(** * fastidious-mcp: the tool dispatcher and the HTTP session manager

    A shallow embedding of [src/tools.ts] (remote API client, tool
    dispatcher, call-tool request handler) and of the hosted server's
    transport handlers (POST /sse, GET /sse, POST /message), followed by
    the properties the specification states about them.

    Conventions of the embedding.
    - A JavaScript value is a [JsValue], a value as [JSON.parse] builds
      it (and undefined): an object is a plain object, given by the list
      of its own enumerable properties in enumeration order, so that
      [JSON.stringify] prints them in the order the code built them.  No
      property holds a function; an object with an own [toString]
      property therefore cannot be converted to a string.
    - A string is a Rocq [string] (the bytes of its UTF-8 encoding).
    - The code never computes with numbers: it tests them for truthiness
      and prints them.  A number is therefore carried as those
      observations ([JsNumber]); every IEEE double has one.
    - [await fetch(...)] is a node [Fetch] of a finite interaction tree
      ([Prog]): the continuation receives whatever the remote service
      answered.  Exceptions are the [Throw] leaf.  Everything thrown is
      an instance of [Error]: the program's own errors, the runtime's
      [TypeError]s, and the rejections of [fetch] and of [json()].
    - The hosted server is a step function over its two session tables.
      A handler runs to completion in one step; what the SDK's transports
      and the runtime decide on the way (how an awaited call settles,
      which session identifier is assigned or generated) comes in with
      the event.  The [token] query parameter is whatever the query
      parser made of it: undefined, a string, or an array or an object
      for a repeated or bracketed parameter.  [console.log] is left
      out.

    The call-tool handler of the first hosted server
    ([src/http-server.ts]) is embedded next to the current one, and the
    last sections state what the code shows beyond the specification:
    how the tools fail, how many requests they issue and where to, and
    what the session tables keep. *)

From Stdlib Require Import String Ascii List Bool Arith PeanoNat Lia.
Import ListNotations.
Open Scope string_scope.
Set Warnings "-register-all".

(* ================================================================== *)
(** ** JavaScript values                                               *)
(* ================================================================== *)

Module Js.

(** What the code can observe of a number: [Boolean(n)], [isFinite(n)]
    and [String(n)]. *)
Record JsNumber : Type := mkNumber {
  num_truthy : bool;
  num_finite : bool;
  num_text : string
}.

Inductive JsValue : Type :=
| JUndefined
| JNull
| JBool (b : bool)
| JNum (n : JsNumber)
| JStr (s : string)
| JArr (items : list JsValue)
| JObj (props : list (string * JsValue)).

(** An object: own enumerable properties, in enumeration order. *)
Definition JsObject : Type := list (string * JsValue).

(** The double-quote character and a name between double quotes. *)
Definition dquote : string := String "034"%char EmptyString.
Definition quoted (s : string) : string := dquote ++ s ++ dquote.

(** [Boolean(v)]: the falsy values are undefined, null, false, 0, NaN
    and the empty string. *)
Definition truthy (v : JsValue) : bool :=
  match v with
  | JUndefined | JNull => false
  | JBool b => b
  | JNum n => num_truthy n
  | JStr s => negb (s =? EmptyString)
  | JArr _ | JObj _ => true
  end.

(** [a || b] *)
Definition js_or (a b : JsValue) : JsValue := if truthy a then a else b.

(** [o[k]] on a plain object, for a name that is not on
    [Object.prototype]: the own property, or undefined. *)
Fixpoint own (o : JsObject) (k : string) : JsValue :=
  match o with
  | [] => JUndefined
  | (k', v) :: o' => if k' =? k then v else own o' k
  end.

(** [const { k1, ..., kn, ...rest } = o]: the properties of [o] but the
    named ones. *)
Definition rest_without (names : list string) (o : JsObject) : JsObject :=
  filter (fun p => negb (existsb (String.eqb (fst p)) names)) o.

(** The object has an own property named [k]. *)
Definition has_own (o : JsObject) (k : string) : bool :=
  existsb (fun p => fst p =? k) o.

(** [ToString(v)], as a template literal and [URLSearchParams] apply it;
    [None] is the [TypeError] of [OrdinaryToPrimitive].  A plain object
    answers through [Object.prototype.toString] unless it has an own
    [toString] property: that property is not callable, and [valueOf]
    (inherited or own) yields no primitive, so the conversion throws.
    An array joins the conversions of its elements, undefined and null
    as empty strings. *)
Fixpoint ToString (v : JsValue) : option string :=
  match v with
  | JUndefined => Some "undefined"
  | JNull => Some "null"
  | JBool b => Some (if b then "true" else "false")
  | JNum n => Some (num_text n)
  | JStr s => Some s
  | JArr items =>
      option_map (String.concat ",")
        ((fix join (l : list JsValue) : option (list string) :=
            match l with
            | [] => Some []
            | x :: rest =>
                match match x with
                      | JUndefined | JNull => Some EmptyString
                      | _ => ToString x
                      end, join rest with
                | Some s, Some ss => Some (s :: ss)
                | _, _ => None
                end
            end) items)
  | JObj props =>
      if has_own props "toString" then None else Some "[object Object]"
  end.

(** [v === s] for a string literal [s]. *)
Definition strict_eq_str (v : JsValue) (s : string) : bool :=
  match v with
  | JStr s' => s' =? s
  | _ => false
  end.

(** *** JSON.stringify *)

Definition hex_lower (n : nat) : string :=
  String (nth n (list_ascii_of_string "0123456789abcdef") "0"%char) EmptyString.

(** One character of [QuoteJSONString]. *)
Definition QuoteJSONChar (c : ascii) : string :=
  let n := nat_of_ascii c in
  if Nat.eqb n 8 then "\b"
  else if Nat.eqb n 9 then "\t"
  else if Nat.eqb n 10 then "\n"
  else if Nat.eqb n 12 then "\f"
  else if Nat.eqb n 13 then "\r"
  else if Nat.eqb n 34 then "\" ++ dquote
  else if Nat.eqb n 92 then "\\"
  else if Nat.ltb n 32 then "\u00" ++ hex_lower (n / 16) ++ hex_lower (n mod 16)
  else String c EmptyString.

Fixpoint QuoteJSONBody (s : string) : string :=
  match s with
  | EmptyString => EmptyString
  | String c s' => QuoteJSONChar c ++ QuoteJSONBody s'
  end.

Definition QuoteJSONString (s : string) : string := quoted (QuoteJSONBody s).

Definition newline : string := String "010"%char EmptyString.

(** The closing step of [SerializeJSONObject] and [SerializeJSONArray]:
    [partial] between the brackets, one per line when [gap] is not
    empty. *)
Definition JSON_wrap (opening closing gap indent stepback : string)
    (partial : list string) : string :=
  match partial with
  | [] => opening ++ closing
  | _ =>
      if gap =? EmptyString
      then opening ++ String.concat "," partial ++ closing
      else opening ++ newline ++ indent
           ++ String.concat ("," ++ newline ++ indent) partial
           ++ newline ++ stepback ++ closing
  end.

(** [SerializeJSONProperty]: [None] is JavaScript's undefined (the
    property is left out of an object, and printed null in an array). *)
Fixpoint SerializeJSONProperty (gap indent : string) (v : JsValue)
    : option string :=
  match v with
  | JUndefined => None
  | JNull => Some "null"
  | JBool b => Some (if b then "true" else "false")
  | JNum n => Some (if num_finite n then num_text n else "null")
  | JStr s => Some (QuoteJSONString s)
  | JArr items =>
      let stepback := indent in
      let indent' := indent ++ gap in
      let partial :=
        map (fun x => match SerializeJSONProperty gap indent' x with
                      | Some s => s
                      | None => "null"
                      end) items in
      Some (JSON_wrap "[" "]" gap indent' stepback partial)
  | JObj props =>
      let stepback := indent in
      let indent' := indent ++ gap in
      let partial :=
        flat_map (fun p => match p with
                           | (k, x) =>
                               match SerializeJSONProperty gap indent' x with
                               | Some s =>
                                   [QuoteJSONString k ++ ":"
                                    ++ (if gap =? EmptyString
                                        then EmptyString else " ") ++ s]
                               | None => []
                               end
                           end) props in
      Some (JSON_wrap "{" "}" gap indent' stepback partial)
  end.

(** [JSON.stringify(v)] *)
Definition JSON_stringify (v : JsValue) : option string :=
  SerializeJSONProperty EmptyString EmptyString v.

(** [JSON.stringify(v, null, 2)] *)
Definition JSON_stringify_2 (v : JsValue) : option string :=
  SerializeJSONProperty "  " EmptyString v.

(** A property [k] of [o] is printed by [JSON.stringify(o)] when its value
    is not undefined. *)
Definition printed_key (o : JsObject) (k : string) : bool :=
  match own o k with
  | JUndefined => false
  | _ => true
  end.

(** *** URLSearchParams *)

Definition hex_upper (n : nat) : string :=
  String (nth n (list_ascii_of_string "0123456789ABCDEF") "0"%char) EmptyString.

(** The application/x-www-form-urlencoded byte serializer. *)
Definition urlencode_byte (c : ascii) : string :=
  let n := nat_of_ascii c in
  if Nat.eqb n 32 then "+"
  else if (Nat.leb 48 n && Nat.leb n 57) || (Nat.leb 65 n && Nat.leb n 90)
          || (Nat.leb 97 n && Nat.leb n 122)
          || Nat.eqb n 42 || Nat.eqb n 45 || Nat.eqb n 46 || Nat.eqb n 95
  then String c EmptyString
  else "%" ++ hex_upper (n / 16) ++ hex_upper (n mod 16).

Fixpoint urlencode (s : string) : string :=
  match s with
  | EmptyString => EmptyString
  | String c s' => urlencode_byte c ++ urlencode s'
  end.

Definition URLSearchParams : Type := list (string * string).

(** [params.set(name, value)]: the first pair of that name takes the value
    and the others go; a new name is appended. *)
Fixpoint URLSearchParams_set (params : URLSearchParams) (name value : string)
    : URLSearchParams :=
  match params with
  | [] => [(name, value)]
  | (n, v) :: rest =>
      if n =? name
      then (n, value) :: filter (fun p => negb (fst p =? name)) rest
      else (n, v) :: URLSearchParams_set rest name value
  end.

Definition URLSearchParams_toString (params : URLSearchParams) : string :=
  String.concat "&"
    (map (fun p => urlencode (fst p) ++ "=" ++ urlencode (snd p)) params).

End Js.
Import Js.

(* ================================================================== *)
(** ** Remote API client and tool dispatcher ([src/tools.ts])          *)
(* ================================================================== *)

Module Tools.

(** *** Errors and asynchronous results *)

(** The members of the SDK's [ErrorCode] that the repository uses. *)
Inductive ErrorCode : Type :=
| MethodNotFound
| InternalError.

Definition ErrorCode_text (c : ErrorCode) : string :=
  match c with
  | MethodNotFound => "-32601"
  | InternalError => "-32603"
  end.

(** Error objects: [name] tells the class, [McpError] has a code. *)
Inductive ErrorClass : Type :=
| PlainError
| TypeErrorClass
| SyntaxErrorClass
| McpErrorClass (code : ErrorCode).

(** What a [throw] carries: an instance of [Error] with its [message].
    Nothing else is thrown here: [fetch] rejects with a [TypeError] (or
    an abort error), [json()] with a [SyntaxError] or a [TypeError]. *)
Inductive JsError : Type :=
| ErrorObject (class : ErrorClass) (message : string).

(** [new Error(message)] *)
Definition Error (message : string) : JsError :=
  ErrorObject PlainError message.

(** A [TypeError] of the runtime; the text of its message is the
    runtime's. *)
Definition TypeError (message : string) : JsError :=
  ErrorObject TypeErrorClass message.

(** [new McpError(code, message)]; the SDK's constructor puts the code in
    front of the message. *)
Definition McpError (code : ErrorCode) (message : string) : JsError :=
  ErrorObject (McpErrorClass code)
              ("MCP error " ++ ErrorCode_text code ++ ": " ++ message).

(** The code under which the protocol reports a thrown error. *)
Definition error_code (e : JsError) : option ErrorCode :=
  match e with
  | ErrorObject (McpErrorClass code) _ => Some code
  | _ => None
  end.

(** [error instanceof Error ? error.message : String(error)]: what is
    caught is an instance of [Error]. *)
Definition message_or_String (e : JsError) : string :=
  match e with
  | ErrorObject _ message => message
  end.

(** How a promise settles. *)
Inductive Outcome (A : Type) : Type :=
| Resolved (a : A)
| Rejected (e : JsError).
Arguments Resolved {A} a.
Arguments Rejected {A} e.

(** *** HTTP requests and responses *)

Record APIClientConfig : Type := {
  baseUrl : string;
  token : string
}.

(** A request body: a string, or one of the binary kinds of [BodyInit]. *)
Inductive BodyInit : Type :=
| BodyText (s : string)
| BodyData (bytes : list ascii).

Record RequestInit : Type := {
  method : option string;
  body : option BodyInit;
  headers : option (list (string * string))
}.

(** [{}], the default of [options]. *)
Definition no_options : RequestInit :=
  {| method := None; body := None; headers := None |}.

(** What [fetch] is called with. *)
Record Request : Type := {
  req_url : string;
  req_method : option string;
  req_headers : list (string * string);
  req_body : option BodyInit
}.

(** What the code reads of a [Response]: [ok], [statusText] and how
    [json()] settles. *)
Record Response : Type := {
  ok : bool;
  statusText : string;
  json : Outcome JsValue
}.

(** [headers[k] = v] on a [Record<string, string>]. *)
Fixpoint record_set (o : list (string * string)) (k v : string)
    : list (string * string) :=
  match o with
  | [] => [(k, v)]
  | (k', v') :: o' =>
      if k' =? k then (k', v) :: o' else (k', v') :: record_set o' k v
  end.

Fixpoint record_get (o : list (string * string)) (k : string) : option string :=
  match o with
  | [] => None
  | (k', v) :: o' => if k' =? k then Some v else record_get o' k
  end.

(** [{ ...target, ...source }] *)
Definition spread_into (target source : list (string * string))
    : list (string * string) :=
  fold_left (fun acc p => record_set acc (fst p) (snd p)) source target.

(** [options.body && typeof options.body === 'string'] *)
Definition body_is_text (b : option BodyInit) : bool :=
  match b with
  | Some (BodyText s) => negb (s =? EmptyString)
  | _ => false
  end.

(** The request [fetchAPI] hands to [fetch]. *)
Definition fetchAPI_request (config : APIClientConfig) (path : string)
    (options : RequestInit) : Request :=
  let url := baseUrl config ++ path in
  let headers0 :=
    spread_into [("Authorization", "Bearer " ++ token config)]
                (match headers options with Some h => h | None => [] end) in
  let headers1 :=
    if body_is_text (body options)
    then record_set headers0 "Content-Type" "application/json"
    else headers0 in
  {| req_url := url;
     req_method := method options;
     req_headers := headers1;
     req_body := body options |}.

(** *** Handler programs *)

(** An [async] function body: it returns, throws, or awaits [fetch] and
    goes on with what the remote service answered. *)
Inductive Prog (A : Type) : Type :=
| Ret (a : A)
| Throw (e : JsError)
| Fetch (r : Request) (k : Outcome Response -> Prog A).
Arguments Ret {A} a.
Arguments Throw {A} e.
Arguments Fetch {A} r k.

Fixpoint bind {A B : Type} (p : Prog A) (f : A -> Prog B) : Prog B :=
  match p with
  | Ret a => f a
  | Throw e => Throw e
  | Fetch r k => Fetch r (fun o => bind (k o) f)
  end.

Notation "x <- p ;; q" := (bind p (fun x => q))
  (at level 61, p at next level, right associativity).

(** [try { p } catch (error) { h error }] *)
Fixpoint try_catch {A : Type} (p : Prog A) (h : JsError -> Prog A) : Prog A :=
  match p with
  | Ret a => Ret a
  | Throw e => h e
  | Fetch r k => Fetch r (fun o => try_catch (k o) h)
  end.

(** [await promise] *)
Definition await {A : Type} (o : Outcome A) : Prog A :=
  match o with
  | Resolved a => Ret a
  | Rejected e => Throw e
  end.

Definition fetchAPI (config : APIClientConfig) (path : string)
    (options : RequestInit) : Prog Response :=
  Fetch (fetchAPI_request config path options) await.

(** Running a program against a remote service with state [S]: how the
    program settles, and the requests it issued, in order. *)
Fixpoint run {A S : Type} (remote : S -> Request -> Outcome Response * S)
    (s : S) (p : Prog A) : Outcome A * list Request :=
  match p with
  | Ret a => (Resolved a, [])
  | Throw e => (Rejected e, [])
  | Fetch r k =>
      let (o, s') := remote s r in
      let (res, calls) := run remote s' (k o) in
      (res, r :: calls)
  end.

Definition calls {A S : Type} (remote : S -> Request -> Outcome Response * S)
    (s : S) (p : Prog A) : list Request :=
  snd (run remote s p).

Definition result {A S : Type} (remote : S -> Request -> Outcome Response * S)
    (s : S) (p : Prog A) : Outcome A :=
  fst (run remote s p).

(** *** Property access, destructuring, [Array.prototype.filter] *)

(** The name of undefined or null in the runtime's messages. *)
Definition nullish_name (v : JsValue) : string :=
  match v with
  | JNull => "null"
  | _ => "undefined"
  end.

(** The [TypeError] of a conversion to a string that finds no
    primitive. *)
Definition conversion_error : JsError :=
  TypeError "Cannot convert object to primitive value".

(** A hole of a template literal, or an argument of [URLSearchParams]:
    the value goes through [ToString], which may throw. *)
Definition interpolate (v : JsValue) : Prog string :=
  match ToString v with
  | Some s => Ret s
  | None => Throw conversion_error
  end.

(** [const { first, ... } = args]: a [TypeError] when [args] is undefined. *)
Definition Destructure (args : option JsObject) (first : string)
    : Prog JsObject :=
  match args with
  | Some o => Ret o
  | None =>
      Throw (TypeError ("Cannot destructure property '" ++ first
                        ++ "' of 'undefined' as it is undefined."))
  end.

(** [v.k] for a name [k] that no prototype defines ([pastes], [type]). *)
Definition GetMember (v : JsValue) (k : string) : Prog JsValue :=
  match v with
  | JUndefined | JNull =>
      Throw (TypeError ("Cannot read properties of " ++ nullish_name v
                        ++ " (reading '" ++ k ++ "')"))
  | JObj props => Ret (own props k)
  | _ => Ret JUndefined
  end.

Fixpoint filterM (cb : JsValue -> Prog bool) (items : list JsValue)
    : Prog (list JsValue) :=
  match items with
  | [] => Ret []
  | x :: rest =>
      keep <- cb x ;;
      kept <- filterM cb rest ;;
      Ret (if keep then x :: kept else kept)
  end.

(** [v.filter(cb)]: only an array has the method. *)
Definition CallFilter (v : JsValue) (cb : JsValue -> Prog bool)
    : Prog JsValue :=
  match v with
  | JArr items => kept <- filterM cb items ;; Ret (JArr kept)
  | JUndefined | JNull =>
      Throw (TypeError ("Cannot read properties of " ++ nullish_name v
                        ++ " (reading 'filter')"))
  | _ => Throw (TypeError "data.pastes.filter is not a function")
  end.

(** [JSON.stringify(v)] as a request body. *)
Definition json_body (v : JsValue) : option BodyInit :=
  option_map BodyText (JSON_stringify v).

(** *** The tool catalog *)

(** A tool descriptor: name, description, and of its input schema the
    top-level properties with their types and the required names. *)
Record ToolDescriptor : Type := {
  name : string;
  description : string;
  properties : list (string * string);
  required : list string
}.

Definition TOOLS : list ToolDescriptor :=
  [ {| name := "create_note";
       description := "Create a new note in Fastidious. Notes should be in Markdown format.";
       properties := [("title", "string"); ("content", "string");
                      ("parentId", "string"); ("fields", "object")];
       required := ["title"; "content"] |};
    {| name := "get_note";
       description := "Get a specific note by ID with its full content";
       properties := [("id", "string")];
       required := ["id"] |};
    {| name := "update_note";
       description := "Update an existing note";
       properties := [("id", "string"); ("title", "string");
                      ("content", "string"); ("fields", "object")];
       required := ["id"] |};
    {| name := "delete_note";
       description := "Delete a note by ID";
       properties := [("id", "string")];
       required := ["id"] |};
    {| name := "list_notes";
       description := "List all notes, optionally filtered by parent collection";
       properties := [("parentId", "string")];
       required := [] |};
    {| name := "search_notes";
       description := "Search notes by content";
       properties := [("query", "string"); ("parentId", "string")];
       required := ["query"] |};
    {| name := "create_collection";
       description := "Create a new collection to organize notes";
       properties := [("title", "string"); ("parentId", "string");
                      ("fieldDefinitions", "array"); ("displayFields", "array")];
       required := ["title"] |};
    {| name := "update_collection";
       description := "Update a collection's settings, including field definitions";
       properties := [("id", "string"); ("title", "string");
                      ("fieldDefinitions", "array");
                      ("displayFields", "array"); ("viewMode", "string");
                      ("sortField", "string"); ("sortDirection", "string")];
       required := ["id"] |};
    {| name := "get_collection";
       description := "Get a collection by ID, optionally including its children";
       properties := [("id", "string"); ("includeChildren", "boolean")];
       required := ["id"] |};
    {| name := "list_collections";
       description := "List all collections at root level or within a parent";
       properties := [("parentId", "string")];
       required := [] |};
    {| name := "move_note";
       description := "Move a note or collection to a different parent collection";
       properties := [("id", "string"); ("targetParentId", "string")];
       required := ["id"] |} ].

Definition tool_names : list string := map name TOOLS.

(** *** handleToolCall, case by case *)

Definition case_create_note (config : APIClientConfig)
    (args : option JsObject) : Prog JsValue :=
  a <- Destructure args "title" ;;
  let title := own a "title" in
  let content := own a "content" in
  let parentId := own a "parentId" in
  let fields := own a "fields" in
  response <- fetchAPI config "/api/pastes"
    {| method := Some "POST";
       body := json_body (JObj [("type", JStr "text");
                                ("title", title);
                                ("content", content);
                                ("parentId", parentId);
                                ("fields", fields)]);
       headers := None |} ;;
  if negb (ok response)
  then Throw (Error ("Failed to create note: " ++ statusText response))
  else await (json response).

Definition case_get_note (config : APIClientConfig)
    (args : option JsObject) : Prog JsValue :=
  a <- Destructure args "id" ;;
  let id := own a "id" in
  id_text <- interpolate id ;;
  response <- fetchAPI config ("/api/pastes/" ++ id_text) no_options ;;
  if negb (ok response)
  then Throw (Error ("Failed to get note: " ++ statusText response))
  else await (json response).

Definition case_update_note (config : APIClientConfig)
    (args : option JsObject) : Prog JsValue :=
  a <- Destructure args "id" ;;
  let id := own a "id" in
  let updates := rest_without ["id"] a in
  id_text <- interpolate id ;;
  response <- fetchAPI config ("/api/pastes/" ++ id_text)
    {| method := Some "PUT";
       body := json_body (JObj updates);
       headers := None |} ;;
  if negb (ok response)
  then Throw (Error ("Failed to update note: " ++ statusText response))
  else await (json response).

Definition case_delete_note (config : APIClientConfig)
    (args : option JsObject) : Prog JsValue :=
  a <- Destructure args "id" ;;
  let id := own a "id" in
  id_text <- interpolate id ;;
  response <- fetchAPI config ("/api/pastes/" ++ id_text)
    {| method := Some "DELETE"; body := None; headers := None |} ;;
  if negb (ok response)
  then Throw (Error ("Failed to delete note: " ++ statusText response))
  else Ret (JObj [("success", JBool true); ("id", id)]).

(** [/api/pastes] followed by the query string when there is one. *)
Definition pastes_path (params : URLSearchParams) : string :=
  let queryString := URLSearchParams_toString params in
  "/api/pastes"
  ++ (if negb (queryString =? EmptyString) then "?" ++ queryString
      else EmptyString).

(** [if (parentId) params.set('parentId', parentId)] *)
Definition with_parentId (params : URLSearchParams) (parentId : JsValue)
    : Prog URLSearchParams :=
  if truthy parentId
  then
    value <- interpolate parentId ;;
    Ret (URLSearchParams_set params "parentId" value)
  else Ret params.

(** [p => p.type !== 'collection'] *)
Definition not_collection (p : JsValue) : Prog bool :=
  t <- GetMember p "type" ;; Ret (negb (strict_eq_str t "collection")).

(** [p => p.type === 'collection'] *)
Definition is_collection (p : JsValue) : Prog bool :=
  t <- GetMember p "type" ;; Ret (strict_eq_str t "collection").

Definition case_list_notes (config : APIClientConfig)
    (args : option JsObject) : Prog JsValue :=
  a <- Destructure args "parentId" ;;
  let parentId := own a "parentId" in
  params <- with_parentId [] parentId ;;
  let path := pastes_path params in
  response <- fetchAPI config path no_options ;;
  if negb (ok response)
  then Throw (Error ("Failed to list notes: " ++ statusText response))
  else
    data <- await (json response) ;;
    pastes <- GetMember data "pastes" ;;
    notes <- CallFilter pastes not_collection ;;
    Ret (JObj [("notes", notes)]).

Definition case_search_notes (config : APIClientConfig)
    (args : option JsObject) : Prog JsValue :=
  a <- Destructure args "query" ;;
  let query := own a "query" in
  let parentId := own a "parentId" in
  q <- interpolate query ;;
  params <- with_parentId [("q", q)] parentId ;;
  response <- fetchAPI config
    ("/api/pastes?" ++ URLSearchParams_toString params) no_options ;;
  if negb (ok response)
  then Throw (Error ("Failed to search notes: " ++ statusText response))
  else
    data <- await (json response) ;;
    pastes <- GetMember data "pastes" ;;
    notes <- CallFilter pastes not_collection ;;
    Ret (JObj [("notes", notes)]).

Definition default_displayFields : JsValue :=
  JArr [JStr "title"; JStr "type"; JStr "createdAt"].

Definition case_create_collection (config : APIClientConfig)
    (args : option JsObject) : Prog JsValue :=
  a <- Destructure args "title" ;;
  let title := own a "title" in
  let parentId := own a "parentId" in
  let fieldDefinitions := own a "fieldDefinitions" in
  let displayFields := own a "displayFields" in
  response <- fetchAPI config "/api/pastes"
    {| method := Some "POST";
       body := json_body
                 (JObj [("type", JStr "collection");
                        ("title", title);
                        ("parentId", parentId);
                        ("fieldDefinitions", fieldDefinitions);
                        ("displayFields",
                         js_or displayFields default_displayFields);
                        ("viewMode", JStr "grid");
                        ("sortField", JStr "createdAt");
                        ("sortDirection", JStr "desc")]);
       headers := None |} ;;
  if negb (ok response)
  then Throw (Error ("Failed to create collection: " ++ statusText response))
  else await (json response).

Definition case_update_collection (config : APIClientConfig)
    (args : option JsObject) : Prog JsValue :=
  a <- Destructure args "id" ;;
  let id := own a "id" in
  let updates := rest_without ["id"] a in
  id_text <- interpolate id ;;
  response <- fetchAPI config ("/api/pastes/" ++ id_text)
    {| method := Some "PUT";
       body := json_body (JObj updates);
       headers := None |} ;;
  if negb (ok response)
  then Throw (Error ("Failed to update collection: " ++ statusText response))
  else await (json response).

Definition case_get_collection (config : APIClientConfig)
    (args : option JsObject) : Prog JsValue :=
  a <- Destructure args "id" ;;
  let id := own a "id" in
  let includeChildren := own a "includeChildren" in
  id_text <- interpolate id ;;
  response <- fetchAPI config ("/api/pastes/" ++ id_text) no_options ;;
  if negb (ok response)
  then Throw (Error ("Failed to get collection: " ++ statusText response))
  else
    collection <- await (json response) ;;
    if negb (truthy includeChildren)
    then Ret (JObj [("collection", collection)])
    else
      parent_text <- interpolate id ;;
      childrenResponse <- fetchAPI config
        ("/api/pastes?parentId=" ++ parent_text) no_options ;;
      if negb (ok childrenResponse)
      then Throw (Error ("Failed to get collection children: "
                         ++ statusText childrenResponse))
      else
        childrenData <- await (json childrenResponse) ;;
        pastes <- GetMember childrenData "pastes" ;;
        Ret (JObj [("collection", collection); ("children", pastes)]).

Definition case_list_collections (config : APIClientConfig)
    (args : option JsObject) : Prog JsValue :=
  a <- Destructure args "parentId" ;;
  let parentId := own a "parentId" in
  params <- with_parentId [] parentId ;;
  let path := pastes_path params in
  response <- fetchAPI config path no_options ;;
  if negb (ok response)
  then Throw (Error ("Failed to list collections: " ++ statusText response))
  else
    data <- await (json response) ;;
    pastes <- GetMember data "pastes" ;;
    collections <- CallFilter pastes is_collection ;;
    Ret (JObj [("collections", collections)]).

Definition case_move_note (config : APIClientConfig)
    (args : option JsObject) : Prog JsValue :=
  a <- Destructure args "id" ;;
  let id := own a "id" in
  let targetParentId := own a "targetParentId" in
  id_text <- interpolate id ;;
  response <- fetchAPI config ("/api/pastes/" ++ id_text ++ "/move")
    {| method := Some "POST";
       body := json_body (JObj [("targetParentId",
                                 js_or targetParentId JNull)]);
       headers := None |} ;;
  if negb (ok response)
  then Throw (Error ("Failed to move note: " ++ statusText response))
  else await (json response).

Definition handleToolCall (config : APIClientConfig) (toolName : string)
    (args : option JsObject) : Prog JsValue :=
  if toolName =? "create_note" then case_create_note config args
  else if toolName =? "get_note" then case_get_note config args
  else if toolName =? "update_note" then case_update_note config args
  else if toolName =? "delete_note" then case_delete_note config args
  else if toolName =? "list_notes" then case_list_notes config args
  else if toolName =? "search_notes" then case_search_notes config args
  else if toolName =? "create_collection"
       then case_create_collection config args
  else if toolName =? "update_collection"
       then case_update_collection config args
  else if toolName =? "get_collection" then case_get_collection config args
  else if toolName =? "list_collections"
       then case_list_collections config args
  else if toolName =? "move_note" then case_move_note config args
  else Throw (McpError MethodNotFound ("Unknown tool: " ++ toolName)).

(** *** createMCPServer: the call-tool request handler *)

Record TextContent : Type := {
  type : string;
  text : option string
}.

Record CallToolResult : Type := {
  content : list TextContent
}.

Definition CallToolRequest_handler (config : APIClientConfig)
    (toolName : string) (args : option JsObject) : Prog CallToolResult :=
  try_catch
    (result <- handleToolCall config toolName args ;;
     Ret {| content := [ {| type := "text";
                            text := JSON_stringify_2 result |} ] |})
    (fun error =>
       let message := message_or_String error in
       Throw (McpError InternalError message)).

End Tools.
Import Tools.

(* ================================================================== *)
(** ** The hosted server: session tables and transport handlers        *)
(* ================================================================== *)

(** A JavaScript [Map] with string keys: its entries in insertion order. *)
Module JsMap.
Section Ops.
Context {V : Type}.

Fixpoint get (m : list (string * V)) (k : string) : option V :=
  match m with
  | [] => None
  | (k', v) :: m' => if k' =? k then Some v else get m' k
  end.

Definition has (m : list (string * V)) (k : string) : bool :=
  match get m k with
  | Some _ => true
  | None => false
  end.

(** [m.set(k, v)]: a key already there keeps its place. *)
Fixpoint set (m : list (string * V)) (k : string) (v : V)
    : list (string * V) :=
  match m with
  | [] => [(k, v)]
  | (k', v') :: m' =>
      if k' =? k then (k', v) :: m' else (k', v') :: set m' k v
  end.

(** [m.delete(k)] *)
Definition delete (m : list (string * V)) (k : string) : list (string * V) :=
  filter (fun p => negb (fst p =? k)) m.

(** [Array.from(m.entries())] *)
Definition entries (m : list (string * V)) : list (string * V) := m.

Definition keys (m : list (string * V)) : list string := map fst m.

End Ops.
End JsMap.

Module Server.
Local Open Scope list_scope.

(** What an awaited SDK call did. *)
Inductive Awaited : Type :=
| Returned
| Threw.

(** What the SDK does while a POST /sse handler runs: how
    [server.connect] and [transport.handleRequest] settle, whether the
    response headers were sent by then, and [transport.sessionId]
    afterwards. *)
Record SdkRun : Type := {
  connect : Awaited;
  handleRequest : Awaited;
  headersSent : bool;
  assignedSessionId : option string
}.

(** What happens to the server: a request arrives and its handler runs,
    or a registered listener fires.  Requests are numbered as they
    arrive; the objects of a request ([res], the transport and the engine
    its handler constructs) carry its number.  [GetSse] comes with the
    identifier the handler draws from [Date.now()] and [Math.random()];
    [ResClose n] is the [close] event of the response of request [n],
    [TransportClose n] the SDK calling [onclose] of transport [n]. *)
Inductive Event : Type :=
| PostSse (token : JsValue) (sessionId : option string) (sdk : SdkRun)
| GetSse (token : JsValue) (generated : string) (connected : Awaited)
| PostMessage (handled : Awaited)
| ResClose (n : nat)
| TransportClose (n : nat).

(** What a handler does that the outside can see; [Unhandled] is a
    rejection that leaves the handler without an answer. *)
Inductive Action : Type :=
| Respond (status : nat) (body : JsValue)
| NewStreamableTransport (n : nat)
| NewSSETransport (n : nat) (endpoint : string)
| CreateMCPServer (n : nat) (config : APIClientConfig)
| Connect (server transport : nat)
| HandleRequest (transport : nat)
| HandlePostMessage (transport : nat)
| Unhandled.

(** The two tables, the listeners registered so far ([res.on('close')]
    of the legacy handler, [transport.onclose] of the streaming one, each
    with the identifier its closure deletes), and the number of requests
    served. *)
Record State : Type := {
  sseTransports : list (string * nat);
  streamableTransports : list (string * (nat * string));
  close_listeners : list (nat * string);
  onclose : list (nat * string);
  requests : nat
}.

Definition initial : State :=
  {| sseTransports := [];
     streamableTransports := [];
     close_listeners := [];
     onclose := [];
     requests := 0 |}.

(** [!token || !token.startsWith('fst_')], the condition of the gate.
    A falsy token (undefined, an empty string) makes it true.  A truthy
    one is asked for [startsWith]: only a string has that method, and on
    anything else (the array of a repeated parameter, the object of a
    bracketed one) the call throws a [TypeError], which is [None]. *)
Definition token_refused (token : JsValue) : option bool :=
  if negb (truthy token) then Some true
  else
    match token with
    | JStr t => Some (negb (String.prefix "fst_" t))
    | _ => None
    end.

(** The request passes the gate. *)
Definition token_ok (token : JsValue) : bool :=
  match token_refused token with
  | Some false => true
  | _ => false
  end.

(** The token of a request that passed the gate: a string. *)
Definition token_text (token : JsValue) : string :=
  match token with
  | JStr t => t
  | _ => EmptyString
  end.

Definition error_body (message : string) : JsValue :=
  JObj [("error", JStr message)].

Definition unauthorized : Action :=
  Respond 401 (error_body "Valid token required as query parameter").

(** The [catch] of the POST /sse handlers. *)
Definition catch_handle (sdk : SdkRun) : list Action :=
  if headersSent sdk then []
  else [Respond 500 (error_body "Failed to handle request")].

Definition next (s : State) : State :=
  {| sseTransports := sseTransports s;
     streamableTransports := streamableTransports s;
     close_listeners := close_listeners s;
     onclose := onclose s;
     requests := S (requests s) |}.

Definition with_sse (s : State) (m : list (string * nat)) : State :=
  {| sseTransports := m;
     streamableTransports := streamableTransports s;
     close_listeners := close_listeners s;
     onclose := onclose s;
     requests := requests s |}.

Definition with_streamable (s : State) (m : list (string * (nat * string)))
    : State :=
  {| sseTransports := sseTransports s;
     streamableTransports := m;
     close_listeners := close_listeners s;
     onclose := onclose s;
     requests := requests s |}.

(** [sessionId && streamableTransports.has(sessionId)] *)
Definition known_session (s : State) (sessionId : option string) : bool :=
  match sessionId with
  | Some sid => negb (sid =? EmptyString)
                && JsMap.has (streamableTransports s) sid
  | None => false
  end.

Section Hosted.

(** [process.env.FASTIDIOUS_URL || 'http://localhost:3000'] *)
Variable FASTIDIOUS_URL : string.

(** [app.post('/sse', ...)].  The reuse branch reads the stored entry
    outside its [try].  A gate that throws rejects the handler's
    promise, and the handler has answered nothing. *)
Definition post_sse (s : State) (token : JsValue)
    (sessionId : option string) (sdk : SdkRun) : State * list Action :=
  let n := requests s in
  match token_refused token with
  | None => (next s, [Unhandled])
  | Some true => (next s, [unauthorized])
  | Some false =>
    let tok := token_text token in
    if known_session s sessionId then
      match JsMap.get (streamableTransports s)
                      (match sessionId with Some sid => sid
                                          | None => EmptyString end) with
      | Some (transport, _) =>
          (next s,
           HandleRequest transport
           :: match handleRequest sdk with
              | Returned => []
              | Threw => catch_handle sdk
              end)
      | None => (next s, [Unhandled])
      end
    else
      let transport := n in
      let created :=
        [NewStreamableTransport transport;
         CreateMCPServer n {| baseUrl := FASTIDIOUS_URL; token := tok |};
         Connect n transport] in
      match connect sdk with
      | Threw => (next s, created ++ [Unhandled])
      | Returned =>
          match handleRequest sdk with
          | Threw =>
              (next s, created ++ HandleRequest transport :: catch_handle sdk)
          | Returned =>
              match assignedSessionId sdk with
              | Some newSessionId =>
                  if negb (newSessionId =? EmptyString)
                     && negb (JsMap.has (streamableTransports s) newSessionId)
                  then
                    ({| sseTransports := sseTransports s;
                        streamableTransports :=
                          JsMap.set (streamableTransports s) newSessionId
                                    (transport, tok);
                        close_listeners := close_listeners s;
                        onclose := onclose s ++ [(transport, newSessionId)];
                        requests := S n |},
                     created ++ [HandleRequest transport])
                  else (next s, created ++ [HandleRequest transport])
              | None => (next s, created ++ [HandleRequest transport])
              end
          end
      end
  end.

(** [app.get('/sse', ...)] *)
Definition get_sse (s : State) (token : JsValue) (generated : string)
    (connected : Awaited) : State * list Action :=
  let n := requests s in
  match token_refused token with
  | None => (next s, [Unhandled])
  | Some true => (next s, [unauthorized])
  | Some false =>
    let tok := token_text token in
    let transport := n in
    let sessionId := generated in
    let registered := JsMap.set (sseTransports s) sessionId transport in
    let acts :=
      [NewSSETransport transport "/message";
       CreateMCPServer n {| baseUrl := FASTIDIOUS_URL; token := tok |};
       Connect n transport] in
    ({| sseTransports :=
          match connected with
          | Returned => registered
          | Threw => JsMap.delete registered sessionId
          end;
        streamableTransports := streamableTransports s;
        close_listeners := close_listeners s ++ [(n, sessionId)];
        onclose := onclose s;
        requests := S n |},
     acts)
  end.

(** [app.post('/message', ...)] *)
Definition post_message (s : State) (handled : Awaited)
    : State * list Action :=
  let transportEntries := JsMap.entries (sseTransports s) in
  if Nat.eqb (length transportEntries) 0
  then (next s, [Respond 400 (error_body "No active SSE connection")])
  else
    match nth_error transportEntries (length transportEntries - 1) with
    | Some (_, transport) =>
        (next s,
         HandlePostMessage transport
         :: match handled with
            | Returned => []
            | Threw => [Respond 500 (error_body "Failed to handle message")]
            end)
    | None => (next s, [Unhandled])
    end.

(** The listeners registered for object [n] run: each deletes its session
    identifier from [table]. *)
Definition run_listeners {V : Type} (listeners : list (nat * string))
    (n : nat) (table : list (string * V)) : list (string * V) :=
  fold_left (fun m l => if Nat.eqb (fst l) n then JsMap.delete m (snd l) else m)
            listeners table.

Definition step (s : State) (e : Event) : State * list Action :=
  match e with
  | PostSse token sessionId sdk => post_sse s token sessionId sdk
  | GetSse token generated connected => get_sse s token generated connected
  | PostMessage handled => post_message s handled
  | ResClose n =>
      (with_sse s (run_listeners (close_listeners s) n (sseTransports s)), [])
  | TransportClose n =>
      (with_streamable s
         (run_listeners (onclose s) n (streamableTransports s)), [])
  end.

(** The server after a sequence of events. *)
Definition exec (s : State) (events : list Event) : State :=
  fold_left (fun st e => fst (step st e)) events s.

End Hosted.
End Server.
Import Server.

(* ================================================================== *)
(** ** Vocabulary of the specification                                 *)
(* ================================================================== *)

Module Spec.

(** [undefined] or [null]. *)
Definition nullish (v : JsValue) : bool :=
  match v with
  | JUndefined | JNull => true
  | _ => false
  end.

(** The type tag of an item of a listing: its [type] property. *)
Definition type_of (p : JsValue) : JsValue :=
  match p with
  | JObj props => own props "type"
  | _ => JUndefined
  end.

(** The [pastes] array of a successful answer with a JSON body. *)
Definition response_pastes (o : Outcome Response) : option (list JsValue) :=
  match o with
  | Resolved r =>
      if ok r then
        match json r with
        | Resolved (JObj props) =>
            match own props "pastes" with
            | JArr ps => Some ps
            | _ => None
            end
        | _ => None
        end
      else None
  | Rejected _ => None
  end.

(** The value converts to a string. *)
Definition converts (v : JsValue) : bool :=
  match ToString v with
  | Some _ => true
  | None => false
  end.

(** The string of a value that converts. *)
Definition text_of (v : JsValue) : string :=
  match ToString v with
  | Some s => s
  | None => EmptyString
  end.

(** The arguments a tool writes into the URL of its request, in the
    order it converts them: [id] in a path, a truthy [parentId] and the
    [query] in a query string. *)
Definition interpolated (toolName : string) (args : JsObject)
    : list JsValue :=
  let parent := if truthy (own args "parentId")
                then [own args "parentId"] else [] in
  if existsb (String.eqb toolName)
       ["get_note"; "update_note"; "delete_note"; "update_collection";
        "get_collection"; "move_note"]
  then [own args "id"]
  else if existsb (String.eqb toolName) ["list_notes"; "list_collections"]
  then parent
  else if toolName =? "search_notes" then own args "query" :: parent
  else [].

(** Every argument the tool writes into its URL converts to a string
    (as every string, number and boolean does, and every object without
    a [toString] property of its own). *)
Definition printable (toolName : string) (args : JsObject) : bool :=
  forallb converts (interpolated toolName args).

(** The remote service that answers [o] to every request. *)
Definition answering (o : Outcome Response) (s : unit) (r : Request)
    : Outcome Response * unit := (o, tt).

(** What a listing tool returns when the remote answered [o]: an object
    with the one property [field], holding exactly the items of the
    answer that are [kept]; and it fails only when an argument did not
    convert to a string ([converted] is false), or the answer is not a
    listing or lists a null item. *)
Definition listing_result (field : string) (kept : JsValue -> Prop)
    (converted : bool) (o : Outcome Response) (res : Outcome JsValue)
    : Prop :=
  match res with
  | Resolved v =>
      converted = true /\
      exists ps items,
        response_pastes o = Some ps /\
        v = JObj [(field, JArr items)] /\
        forall p, In p items <-> In p ps /\ kept p
  | Rejected _ =>
      converted = true ->
      forall ps, response_pastes o = Some ps ->
                 Exists (fun p => nullish p = true) ps
  end.

(** The request carries header [h] with value [v]. *)
Definition carries (r : Request) (h v : string) : Prop :=
  record_get (req_headers r) h = Some v.

(** The request has a string body. *)
Definition has_text_body (r : Request) : Prop :=
  exists t, req_body r = Some (BodyText t).

(** The body of [r] is the JSON text of the object [payload]. *)
Definition sends (r : Request) (payload : JsObject) : Prop :=
  req_body r = json_body (JObj payload).

(** A program that awaits nothing more. *)
Definition settled {A : Type} (p : Prog A) : Prop :=
  match p with
  | Fetch _ _ => False
  | _ => True
  end.

(** Every request the program may issue, whatever the remote answers,
    satisfies [P]. *)
Inductive all_calls {A : Type} (P : Request -> Prop) : Prog A -> Prop :=
| all_calls_ret a : all_calls P (Ret a)
| all_calls_throw e : all_calls P (Throw e)
| all_calls_fetch r k :
    P r -> (forall o, all_calls P (k o)) -> all_calls P (Fetch r k).

(** The legacy sessions that are registered and still open after
    [events], oldest first, each by the number of the GET /sse request
    that opened it; [n] is the number of the next request. *)
Fixpoint legacy_open (n : nat) (open : list nat) (events : list Event)
    : list nat :=
  match events with
  | [] => open
  | GetSse token _ connected :: rest =>
      legacy_open (S n)
        (match connected with
         | Returned =>
             if token_ok token then (open ++ [n])%list else open
         | Threw => open
         end) rest
  | PostSse _ _ _ :: rest => legacy_open (S n) open rest
  | PostMessage _ :: rest => legacy_open (S n) open rest
  | ResClose c :: rest =>
      legacy_open n (filter (fun x => negb (Nat.eqb x c)) open) rest
  | TransportClose _ :: rest => legacy_open n open rest
  end.

(** The session identifiers that accepted GET /sse requests generated. *)
Fixpoint generated_ids (events : list Event) : list string :=
  match events with
  | [] => []
  | GetSse token generated _ :: rest =>
      if token_ok token then generated :: generated_ids rest
      else generated_ids rest
  | _ :: rest => generated_ids rest
  end.

(** The last element of a list. *)
Definition last_of {A : Type} (l : list A) : option A :=
  nth_error l (length l - 1).

(** The actions construct no transport and no engine. *)
Definition constructs_nothing (acts : list Action) : Prop :=
  forall a, In a acts ->
            match a with
            | NewStreamableTransport _
            | NewSSETransport _ _
            | CreateMCPServer _ _
            | Connect _ _ => False
            | _ => True
            end.

(** The header rule of the client: the bearer token of the
    configuration, and the JSON content type exactly with a string
    body. *)
Definition authorized (config : APIClientConfig) (r : Request) : Prop :=
  carries r "Authorization" ("Bearer " ++ token config) /\
  (carries r "Content-Type" "application/json" <-> has_text_body r).


(** A state the server can be in. *)
Definition reachable (url : string) (s : State) : Prop :=
  exists events, s = exec url initial events.

(** Session identifiers of the streaming table are bound once, to
    transports of earlier requests, and none of them is empty. *)
Definition streamable_inv (s : State) : Prop :=
  NoDup (JsMap.keys (streamableTransports s)) /\
  (forall sid t tok, In (sid, (t, tok)) (streamableTransports s) ->
                     t < requests s) /\
  ~ In EmptyString (JsMap.keys (streamableTransports s)).

(** Every entry of the legacy table has its close listener; a listener
    belongs to an earlier request; a request has one identifier and an
    identifier one request. *)
Definition legacy_inv (s : State) : Prop :=
  NoDup (JsMap.keys (sseTransports s)) /\
  (forall sid c, In (sid, c) (sseTransports s) ->
                 In (c, sid) (close_listeners s)) /\
  (forall c sid, In (c, sid) (close_listeners s) -> c < requests s) /\
  (forall c sid sid', In (c, sid) (close_listeners s) ->
                      In (c, sid') (close_listeners s) -> sid = sid') /\
  (forall c c' sid, In (c, sid) (close_listeners s) ->
                    In (c', sid) (close_listeners s) -> c = c').

(** The number of requests among [events]. *)
Fixpoint request_count (events : list Event) : nat :=
  match events with
  | [] => 0
  | ResClose _ :: rest | TransportClose _ :: rest => request_count rest
  | _ :: rest => S (request_count rest)
  end.

(** During [events] no legacy session is opened and the response of
    request [b] does not close. *)
Fixpoint still_latest (b : nat) (events : list Event) : bool :=
  match events with
  | [] => true
  | GetSse token _ Returned :: rest =>
      negb (token_ok token) && still_latest b rest
  | ResClose c :: rest => negb (Nat.eqb c b) && still_latest b rest
  | _ :: rest => still_latest b rest
  end.

End Spec.
Import Spec.

(** Inputs of the worked examples. *)
Module Examples.

Definition localhost : string := "http://localhost:3000".

Definition config : APIClientConfig :=
  {| baseUrl := localhost; token := "fst_k" |}.

(** A remote service that cannot be reached. *)
Definition unreachable : unit -> Request -> Outcome Response * unit :=
  answering (Rejected (TypeError "fetch failed")).

Definition note (id type : string) : JsValue :=
  JObj [("id", JStr id); ("type", JStr type)].

(** A successful answer listing a note, a collection and a note. *)
Definition listing : Outcome Response :=
  Resolved {| ok := true;
              statusText := "OK";
              json := Resolved
                        (JObj [("pastes",
                                JArr [note "n1" "text";
                                      note "c1" "collection";
                                      note "n2" "text"])]) |}.

(** The SDK handled an initialize request and assigned [sid]. *)
Definition initialized (sid : string) : SdkRun :=
  {| connect := Returned;
     handleRequest := Returned;
     headersSent := true;
     assignedSessionId := Some sid |}.

(** One streaming session, [uuid-1], served by transport 0. *)
Definition one_session : State :=
  exec localhost initial [PostSse (JStr "fst_a") None (initialized "uuid-1")].

(** Two legacy sessions opened in sequence. *)
Definition A_then_B : list Event :=
  [GetSse (JStr "fst_a") "1700000000000-k3x9p" Returned;
   GetSse (JStr "fst_b") "1700000000002-q7m2d" Returned].

End Examples.

(* ================================================================== *)
(** ** The first hosted server ([src/http-server.ts])                  *)
(* ================================================================== *)

(** The call-tool handler that this server declares inline: its own
    catalog, its own paths, and no look at [response.ok]. *)
Module OldHttp.

Definition tool_names : list string :=
  ["create_note"; "get_note"; "update_note"; "delete_note"; "list_notes";
   "search_notes"; "create_collection"; "get_collection";
   "list_collections"; "add_to_collection"; "remove_from_collection"].

Section Handler.

(** [process.env.FASTIDIOUS_URL || 'http://localhost:3000'] *)
Variable FASTIDIOUS_URL : string.

(** [fetchAPI(token, path, options)]: the client of [tools.ts] with the
    URL of the process. *)
Definition fetchAPI (token path : string) (options : RequestInit)
    : Prog Response :=
  Tools.fetchAPI {| baseUrl := FASTIDIOUS_URL; token := token |} path options.

(** The [switch] of the handler: each case ends in
    [result = await response.json()]. *)
Definition switch (token name : string) (args : option JsObject)
    : Prog JsValue :=
  if name =? "create_note" then
    a <- Destructure args "title" ;;
    response <- fetchAPI token "/api/mcp/notes"
      {| method := Some "POST";
         body := json_body (JObj [("title", own a "title");
                                  ("content", own a "content");
                                  ("collectionId", own a "collectionId");
                                  ("fields", own a "fields")]);
         headers := None |} ;;
    await (json response)
  else if name =? "get_note" then
    a <- Destructure args "id" ;;
    id_text <- interpolate (own a "id") ;;
    response <- fetchAPI token ("/api/mcp/notes/" ++ id_text) no_options ;;
    await (json response)
  else if name =? "update_note" then
    a <- Destructure args "id" ;;
    id_text <- interpolate (own a "id") ;;
    response <- fetchAPI token ("/api/mcp/notes/" ++ id_text)
      {| method := Some "PUT";
         body := json_body (JObj (rest_without ["id"] a));
         headers := None |} ;;
    await (json response)
  else if name =? "delete_note" then
    a <- Destructure args "id" ;;
    id_text <- interpolate (own a "id") ;;
    response <- fetchAPI token ("/api/mcp/notes/" ++ id_text)
      {| method := Some "DELETE"; body := None; headers := None |} ;;
    await (json response)
  else if name =? "list_notes" then
    a <- Destructure args "collectionId" ;;
    let collectionId := own a "collectionId" in
    params <- (if truthy collectionId
               then
                 collection_text <- interpolate collectionId ;;
                 Ret ("?collectionId=" ++ collection_text)
               else Ret EmptyString) ;;
    response <- fetchAPI token ("/api/mcp/notes" ++ params) no_options ;;
    await (json response)
  else if name =? "search_notes" then
    a <- Destructure args "query" ;;
    let collectionId := own a "collectionId" in
    q <- interpolate (own a "query") ;;
    let params0 := [("q", q)] in
    params <- (if truthy collectionId
               then
                 collection_text <- interpolate collectionId ;;
                 Ret (URLSearchParams_set params0 "collectionId"
                                          collection_text)
               else Ret params0) ;;
    response <- fetchAPI token
                  ("/api/mcp/notes?" ++ URLSearchParams_toString params)
                  no_options ;;
    await (json response)
  else if name =? "create_collection" then
    a <- Destructure args "title" ;;
    response <- fetchAPI token "/api/mcp/collections"
      {| method := Some "POST";
         body := json_body (JObj [("title", own a "title");
                                  ("items", own a "items");
                                  ("displayFields", own a "displayFields")]);
         headers := None |} ;;
    await (json response)
  else if name =? "get_collection" then
    a <- Destructure args "id" ;;
    let params := if truthy (own a "includeContents")
                  then "?includeContents=true" else EmptyString in
    id_text <- interpolate (own a "id") ;;
    response <- fetchAPI token
                  ("/api/mcp/collections/" ++ id_text ++ params)
                  no_options ;;
    await (json response)
  else if name =? "list_collections" then
    response <- fetchAPI token "/api/mcp/collections" no_options ;;
    await (json response)
  else if name =? "add_to_collection" then
    a <- Destructure args "collectionId" ;;
    collection_text <- interpolate (own a "collectionId") ;;
    response <- fetchAPI token
                  ("/api/mcp/collections/" ++ collection_text ++ "/add")
      {| method := Some "POST";
         body := json_body (JObj [("noteIds", own a "noteIds")]);
         headers := None |} ;;
    await (json response)
  else if name =? "remove_from_collection" then
    a <- Destructure args "collectionId" ;;
    collection_text <- interpolate (own a "collectionId") ;;
    response <- fetchAPI token
                  ("/api/mcp/collections/" ++ collection_text ++ "/remove")
      {| method := Some "POST";
         body := json_body (JObj [("noteIds", own a "noteIds")]);
         headers := None |} ;;
    await (json response)
  else Throw (McpError MethodNotFound ("Unknown tool: " ++ name)).

(** The handler of [CallToolRequestSchema]. *)
Definition CallToolRequest_handler (token name : string)
    (args : option JsObject) : Prog CallToolResult :=
  try_catch
    (result <- switch token name args ;;
     Ret {| content := [ {| type := "text";
                            text := JSON_stringify_2 result |} ] |})
    (fun error =>
       let message := message_or_String error in
       Throw (McpError InternalError message)).

End Handler.
End OldHttp.

(* ================================================================== *)
(** ** Vocabulary of the further properties                            *)
(* ================================================================== *)

Module Coverage.

(** A remote service that gives the answers of a script, one per
    request, and cannot be reached once the script is over. *)
Definition scripted (script : list (Outcome Response)) (r : Request)
    : Outcome Response * list (Outcome Response) :=
  match script with
  | [] => (Rejected (TypeError "fetch failed"), [])
  | o :: rest => (o, rest)
  end.

(** The program issues at most [n] requests, whatever the remote
    answers. *)
Inductive within {A : Type} : nat -> Prog A -> Prop :=
| within_ret n a : within n (Ret a)
| within_throw n e : within n (Throw e)
| within_fetch n r k :
    (forall o, within n (k o)) -> within (S n) (Fetch r k).

(** How many requests a call of a tool may take: two for
    [get_collection] with a truthy [includeChildren], one otherwise. *)
Definition request_bound (toolName : string) (args : option JsObject) : nat :=
  if (toolName =? "get_collection")
     && match args with
        | Some a => truthy (own a "includeChildren")
        | None => false
        end
  then 2 else 1.

(** What each tool puts in front of [response.statusText] when the
    remote answer is not [ok]. *)
Definition failure_prefix (toolName : string) : string :=
  if toolName =? "create_note" then "Failed to create note: "
  else if toolName =? "get_note" then "Failed to get note: "
  else if toolName =? "update_note" then "Failed to update note: "
  else if toolName =? "delete_note" then "Failed to delete note: "
  else if toolName =? "list_notes" then "Failed to list notes: "
  else if toolName =? "search_notes" then "Failed to search notes: "
  else if toolName =? "create_collection" then "Failed to create collection: "
  else if toolName =? "update_collection" then "Failed to update collection: "
  else if toolName =? "get_collection" then "Failed to get collection: "
  else if toolName =? "list_collections" then "Failed to list collections: "
  else if toolName =? "move_note" then "Failed to move note: "
  else EmptyString.

(** The tools that end in [return response.json()]. *)
Definition returns_the_answer : list string :=
  ["create_note"; "get_note"; "update_note"; "create_collection";
   "update_collection"; "move_note"].

(** What the call-tool handler returns for the result [v] of a tool. *)
Definition text_result (v : JsValue) : CallToolResult :=
  {| content := [ {| type := "text"; text := JSON_stringify_2 v |} ] |}.

(** The item is tagged as a collection. *)
Definition is_collection_item (p : JsValue) : bool :=
  strict_eq_str (type_of p) "collection".

(** Every character of [s] passes [f]. *)
Fixpoint all_chars (f : ascii -> bool) (s : string) : bool :=
  match s with
  | EmptyString => true
  | String c s' => f c && all_chars f s'
  end.

(** The characters a form-urlencoded value is written with: letters,
    digits, [*], [-], [.], [_], [+] and [%].  None of them ends a
    parameter or a query. *)
Definition query_safe (c : ascii) : bool :=
  let n := nat_of_ascii c in
  (Nat.leb 48 n && Nat.leb n 57) || (Nat.leb 65 n && Nat.leb n 90)
  || (Nat.leb 97 n && Nat.leb n 122)
  || Nat.eqb n 42 || Nat.eqb n 45 || Nat.eqb n 46 || Nat.eqb n 95
  || Nat.eqb n 43 || Nat.eqb n 37.

(** The [parentId] parameter of a query, after [lead]; nothing for a
    falsy [parentId]. *)
Definition parent_query (lead : string) (parentId : JsValue) : string :=
  if truthy parentId
  then lead ++ "parentId=" ++ urlencode (text_of parentId)
  else EmptyString.

(** The arguments a tool of the first hosted server writes into the URL
    of its request. *)
Definition old_interpolated (toolName : string) (args : JsObject)
    : list JsValue :=
  let collection := if truthy (own args "collectionId")
                    then [own args "collectionId"] else [] in
  if existsb (String.eqb toolName)
       ["get_note"; "update_note"; "delete_note"; "get_collection"]
  then [own args "id"]
  else if toolName =? "list_notes" then collection
  else if toolName =? "search_notes" then own args "query" :: collection
  else if existsb (String.eqb toolName)
            ["add_to_collection"; "remove_from_collection"]
  then [own args "collectionId"]
  else [].

(** The value an object spread takes for [k]: the last one listed. *)
Definition spread_value (source : list (string * string)) (k : string)
    : option string :=
  record_get (rev source) k.

(** The request goes to [root] under the base URL, with one of the
    methods the client uses (none given is a GET), and with a string
    body exactly when it is a POST or a PUT. *)
Definition well_formed (base root : string) (r : Request) : Prop :=
  (exists rest, req_url r = base ++ root ++ rest) /\
  In (req_method r) [None; Some "POST"; Some "PUT"; Some "DELETE"] /\
  (has_text_body r <->
   req_method r = Some "POST" \/ req_method r = Some "PUT").

(** The [token] query parameter of a request to /sse. *)
Definition event_token (e : Event) : JsValue :=
  match e with
  | PostSse token _ _ | GetSse token _ _ => token
  | _ => JUndefined
  end.

(** The transports of the streaming table. *)
Definition streamable_transports (s : State) : list nat :=
  map (fun p => fst (snd p)) (streamableTransports s).

(** Listeners belong to earlier requests, one identifier each. *)
Definition listeners_inv (listeners : list (nat * string)) (bound : nat)
    : Prop :=
  (forall n sid, In (n, sid) listeners -> n < bound) /\
  (forall n sid sid',
     In (n, sid) listeners -> In (n, sid') listeners -> sid = sid').

(** What the handlers keep of the tables and their listeners, whatever
    identifiers are generated: every entry has the listener that removes
    it, no transport stands twice in a table, and no request registered
    listeners of both kinds. *)
Definition tables_inv (s : State) : Prop :=
  listeners_inv (close_listeners s) (requests s) /\
  listeners_inv (onclose s) (requests s) /\
  (forall sid c, In (sid, c) (sseTransports s) ->
                 In (c, sid) (close_listeners s)) /\
  (forall sid t tok, In (sid, (t, tok)) (streamableTransports s) ->
                     In (t, sid) (onclose s)) /\
  NoDup (map snd (sseTransports s)) /\
  NoDup (streamable_transports s) /\
  (forall n sid sid', In (n, sid) (close_listeners s) ->
                      In (n, sid') (onclose s) -> False).

End Coverage.
Import Coverage.

(** Inputs of the further examples. *)
Module Cases.

(** A 404 answer with a JSON error body. *)
Definition not_found : Response :=
  {| ok := false;
     statusText := "Not Found";
     json := Resolved (JObj [("error", JStr "no such paste")]) |}.

(** A 200 answer with the JSON body [v]. *)
Definition answer (v : JsValue) : Response :=
  {| ok := true; statusText := "OK"; json := Resolved v |}.

(** The SDK's [server.connect] rejected. *)
Definition refused : SdkRun :=
  {| connect := Threw;
     handleRequest := Returned;
     headersSent := false;
     assignedSessionId := None |}.

(** The descriptor of [get_note] in the catalog. *)
Definition get_note : ToolDescriptor :=
  {| name := "get_note";
     description := "Get a specific note by ID with its full content";
     properties := [("id", "string")];
     required := ["id"] |}.

(** Three accepted GET /sse requests, A, B and C, where the identifier
    generated for C is the one generated for A. *)
Definition A_B_then_C_as_A : list Event :=
  [GetSse (JStr "fst_a") "1700000000000-k3x9p" Returned;
   GetSse (JStr "fst_b") "1700000000002-q7m2d" Returned;
   GetSse (JStr "fst_c") "1700000000000-k3x9p" Returned].

End Cases.

(* ================================================================== *)
(** ** Facts about values, JSON text and handler programs              *)
(* ================================================================== *)

Example stringify_move_body :
  JSON_stringify (JObj [("targetParentId", JNull)])
  = Some ("{" ++ quoted "targetParentId" ++ ":null}").
Proof. reflexivity. Qed.

Example stringify_drops_undefined :
  JSON_stringify (JObj [("a", JUndefined); ("b", JArr [JUndefined; JBool true])])
  = Some ("{" ++ quoted "b" ++ ":[null,true]}").
Proof. reflexivity. Qed.

Example stringify_indent :
  JSON_stringify_2 (JObj [("notes", JArr [JStr "x"]); ("n", JArr [])])
  = Some ("{" ++ newline ++ "  " ++ quoted "notes" ++ ": [" ++ newline
          ++ "    " ++ quoted "x" ++ newline ++ "  ]," ++ newline
          ++ "  " ++ quoted "n" ++ ": []" ++ newline ++ "}").
Proof. reflexivity. Qed.

Example urlencode_space : urlencode "a b/c_d" = "a+b%2Fc_d".
Proof. reflexivity. Qed.

Lemma strict_eq_str_true (v : JsValue) (s : string) :
  strict_eq_str v s = true <-> v = JStr s.
Proof.
  destruct v; simpl; try (split; [discriminate | discriminate]).
  rewrite String.eqb_eq. split; [intros -> | intros [= ->]]; reflexivity.
Qed.

(** Only undefined has no JSON text. *)
Lemma SerializeJSONProperty_None (gap indent : string) (v : JsValue) :
  SerializeJSONProperty gap indent v = None <-> v = JUndefined.
Proof. destruct v; simpl; split; intros H; try discriminate H; reflexivity. Qed.

(** A property is printed exactly when its value has a JSON text. *)
Lemma printed_key_text (gap indent : string) (o : JsObject) (k : string) :
  printed_key o k = true <-> SerializeJSONProperty gap indent (own o k) <> None.
Proof.
  rewrite SerializeJSONProperty_None. unfold printed_key.
  destruct (own o k); split; intros H; try reflexivity; try discriminate;
    try (intros E; discriminate E).
  now exfalso.
Qed.

(** A property that is not there reads as undefined. *)
Lemma own_absent (o : JsObject) (k : string) :
  ~ In k (map fst o) -> own o k = JUndefined.
Proof.
  induction o as [|[k' v] o IH]; simpl; [reflexivity|].
  intros H. destruct (String.eqb_spec k' k) as [->|Hne].
  - exfalso. apply H. now left.
  - apply IH. intros Hin. apply H. now right.
Qed.

Lemma own_rest_without_other (names : list string) (o : JsObject) (k : string) :
  ~ In k names -> own (rest_without names o) k = own o k.
Proof.
  intros Hk. induction o as [|[k' v] o IH]; simpl; [reflexivity|].
  destruct (existsb (String.eqb k') names) eqn:Hex; simpl.
  - destruct (k' =? k) eqn:E; [|exact IH].
    apply String.eqb_eq in E. subst k'.
    apply existsb_exists in Hex. destruct Hex as (x & Hx & Hxk).
    apply String.eqb_eq in Hxk. subst x. contradiction.
  - now rewrite IH.
Qed.

Lemma own_rest_without_named (names : list string) (o : JsObject) (k : string) :
  In k names -> own (rest_without names o) k = JUndefined.
Proof.
  intros Hk. induction o as [|[k' v] o IH]; simpl; [reflexivity|].
  destruct (existsb (String.eqb k') names) eqn:Hex; simpl; [exact IH|].
  destruct (k' =? k) eqn:E; [|exact IH].
  apply String.eqb_eq in E. subst k'.
  assert (existsb (String.eqb k) names = true) as Hc.
  { apply existsb_exists. exists k. split; [assumption|apply String.eqb_refl]. }
  congruence.
Qed.

Lemma In_rest_without (names : list string) (o : JsObject) (k : string)
    (v : JsValue) :
  In (k, v) (rest_without names o) <-> In (k, v) o /\ ~ In k names.
Proof.
  unfold rest_without. rewrite filter_In. simpl.
  rewrite negb_true_iff, <- not_true_iff_false, existsb_exists.
  split; intros [H1 H2]; split; auto.
  - intros Hin. apply H2. exists k. split; [assumption|apply String.eqb_refl].
  - intros (x & Hx & E). apply String.eqb_eq in E. subst x. contradiction.
Qed.

Lemma JSON_wrap_not_empty (closing gap indent stepback : string)
    (partial : list string) :
  JSON_wrap "{" closing gap indent stepback partial <> EmptyString.
Proof.
  unfold JSON_wrap. destruct partial; [discriminate|].
  destruct (gap =? EmptyString); discriminate.
Qed.

(** The JSON text of an object is a string, and not the empty one. *)
Lemma json_body_object (o : JsObject) :
  exists t, json_body (JObj o) = Some (BodyText t) /\ t <> EmptyString.
Proof.
  unfold json_body, JSON_stringify. simpl. eexists. split; [reflexivity|].
  apply JSON_wrap_not_empty.
Qed.

(** A program whose continuation awaits nothing issues one request. *)
Lemma calls_one {A S : Type} (remote : S -> Request -> Outcome Response * S)
    (s : S) (r : Request) (k : Outcome Response -> Prog A) :
  (forall o, settled (k o)) -> calls remote s (Fetch r k) = [r].
Proof.
  intros Hk. unfold calls. simpl.
  destruct (remote s r) as [o s'].
  specialize (Hk o). destruct (k o); simpl in *; [reflexivity|reflexivity|].
  destruct Hk.
Qed.

(** What follows the [fetch] of the tools that return the JSON answer. *)
Lemma settled_json_tail (msg : string) (o : Outcome Response) :
  settled (response <- await o ;;
           if negb (ok response)
           then Throw (Error (msg ++ statusText response))
           else await (json response)).
Proof.
  destruct o as [resp|e]; simpl; [|exact I].
  destruct (ok resp); simpl; [|exact I].
  destruct (json resp); exact I.
Qed.

Section Calls.
Context {P : Request -> Prop}.

Lemma all_calls_bind {A B : Type} (p : Prog A) (f : A -> Prog B) :
  all_calls P p -> (forall a, all_calls P (f a)) -> all_calls P (bind p f).
Proof.
  intros Hp Hf. induction Hp as [a|e|r k Hr Hk IH]; simpl.
  - apply Hf.
  - constructor.
  - constructor; assumption.
Qed.

Lemma all_calls_try_catch {A : Type} (p : Prog A) (h : JsError -> Prog A) :
  all_calls P p -> (forall e, all_calls P (h e)) -> all_calls P (try_catch p h).
Proof.
  intros Hp Hh. induction Hp as [a|e|r k Hr Hk IH]; simpl.
  - constructor.
  - apply Hh.
  - constructor; assumption.
Qed.

Lemma all_calls_await {A : Type} (o : Outcome A) : all_calls P (await o).
Proof. destruct o; constructor. Qed.

Lemma all_calls_if {A : Type} (c : bool) (p q : Prog A) :
  all_calls P p -> all_calls P q -> all_calls P (if c then p else q).
Proof. now destruct c. Qed.

Lemma all_calls_Destructure (args : option JsObject) (first : string) :
  all_calls P (Destructure args first).
Proof. destruct args; constructor. Qed.

Lemma all_calls_interpolate (v : JsValue) : all_calls P (interpolate v).
Proof. unfold interpolate. destruct (ToString v); constructor. Qed.

Lemma all_calls_with_parentId (params : URLSearchParams) (v : JsValue) :
  all_calls P (with_parentId params v).
Proof.
  unfold with_parentId, interpolate.
  destruct (truthy v); [destruct (ToString v)|]; constructor.
Qed.

Lemma all_calls_GetMember (v : JsValue) (k : string) :
  all_calls P (GetMember v k).
Proof. destruct v; constructor. Qed.

Lemma all_calls_filterM (cb : JsValue -> Prog bool) (items : list JsValue) :
  (forall p, all_calls P (cb p)) -> all_calls P (filterM cb items).
Proof.
  intros Hcb. induction items as [|x rest IH]; simpl; [constructor|].
  apply all_calls_bind; [apply Hcb|]. intros keep.
  apply all_calls_bind; [exact IH|]. intros kept. constructor.
Qed.

Lemma all_calls_CallFilter (v : JsValue) (cb : JsValue -> Prog bool) :
  (forall p, all_calls P (cb p)) -> all_calls P (CallFilter v cb).
Proof.
  intros Hcb. destruct v; simpl; try constructor.
  apply all_calls_bind; [now apply all_calls_filterM|]. intros; constructor.
Qed.

Lemma all_calls_fetchAPI (config : APIClientConfig) (path : string)
    (options : RequestInit) :
  P (fetchAPI_request config path options) ->
  all_calls P (fetchAPI config path options).
Proof. intros H. constructor; [exact H|]. intros o. apply all_calls_await. Qed.

Lemma all_calls_run {A S : Type} (p : Prog A)
    (remote : S -> Request -> Outcome Response * S) (s : S) :
  all_calls P p -> Forall P (calls remote s p).
Proof.
  intros Hp. revert s. unfold calls.
  induction Hp as [a|e|r k Hr Hk IH]; intros s; simpl; try constructor.
  destruct (remote s r) as [o s']. specialize (IH o s').
  destruct (run remote s' (k o)) as [res cs]. simpl in *.
  constructor; assumption.
Qed.

End Calls.

(** Without caller headers, [fetchAPI] sets the JSON content type exactly
    when the body is a string that is not empty. *)
Lemma fetchAPI_content_type (config : APIClientConfig) (path : string)
    (m : option string) (b : option BodyInit) :
  carries (fetchAPI_request config path
             {| method := m; body := b; headers := None |})
          "Content-Type" "application/json"
  <-> body_is_text b = true.
Proof.
  unfold carries, fetchAPI_request. simpl.
  destruct (body_is_text b); simpl; split; intros H;
    try reflexivity; discriminate H.
Qed.

Lemma authorized_without_body (config : APIClientConfig) (path : string)
    (m : option string) :
  authorized config
    (fetchAPI_request config path
       {| method := m; body := None; headers := None |}).
Proof.
  split; [reflexivity|]. rewrite fetchAPI_content_type.
  unfold has_text_body. simpl.
  split; [discriminate | intros [t Ht]; discriminate].
Qed.

Lemma authorized_with_json (config : APIClientConfig) (path : string)
    (m : option string) (o : JsObject) :
  authorized config
    (fetchAPI_request config path
       {| method := m; body := json_body (JObj o); headers := None |}).
Proof.
  destruct (json_body_object o) as (t & Ht & Hne).
  split.
  - unfold carries, fetchAPI_request. cbn [body headers req_headers].
    rewrite Ht. destruct (body_is_text (Some (BodyText t))); reflexivity.
  - rewrite fetchAPI_content_type. unfold has_text_body. simpl req_body.
    rewrite Ht. simpl. apply String.eqb_neq in Hne. rewrite Hne.
    split; [eauto | reflexivity].
Qed.

Create HintDb calls.
#[local] Hint Resolve all_calls_await all_calls_if all_calls_Destructure
  all_calls_interpolate all_calls_with_parentId
  all_calls_GetMember all_calls_CallFilter all_calls_fetchAPI
  authorized_without_body authorized_with_json : calls.
#[local] Hint Constructors all_calls : calls.

Ltac calls_step :=
  first [ apply all_calls_bind; [|intro]
        | apply all_calls_fetchAPI
        | apply all_calls_if
        | apply all_calls_CallFilter; intro
        | solve [auto with calls] ].

(** Every request of every tool obeys the header rule. *)
Lemma handleToolCall_calls (config : APIClientConfig) (toolName : string)
    (args : option JsObject) :
  all_calls (authorized config) (handleToolCall config toolName args).
Proof.
  unfold handleToolCall.
  repeat match goal with
         | |- all_calls _ (if ?c then _ else _) => destruct c
         end;
  try solve [constructor];
  cbv [case_create_note case_get_note case_update_note case_delete_note
       case_list_notes case_search_notes case_create_collection
       case_update_collection case_get_collection case_list_collections
       case_move_note not_collection is_collection no_options];
  repeat calls_step.
Qed.

(* ================================================================== *)
(** ** The dispatcher                                                  *)
(* ================================================================== *)

Lemma GetMember_type (p : JsValue) :
  nullish p = false -> GetMember p "type" = Ret (type_of p).
Proof. destruct p; simpl; intros H; try discriminate; reflexivity. Qed.

Lemma GetMember_nullish (p : JsValue) (k : string) :
  nullish p = true -> exists e, GetMember p k = Throw e.
Proof. destruct p; simpl; intros H; try discriminate; eauto. Qed.

(** Filtering on the type tag keeps exactly the items whose tag passes,
    and throws exactly on a null item. *)
Lemma filterM_by_type (cb : JsValue -> Prog bool) (g : JsValue -> bool)
    (items : list JsValue) :
  (forall p, cb p = (t <- GetMember p "type" ;; Ret (g t))) ->
  match filterM cb items with
  | Ret kept => kept = filter (fun p => g (type_of p)) items
  | Throw _ => Exists (fun p => nullish p = true) items
  | Fetch _ _ => False
  end.
Proof.
  intros Hcb.
  induction items as [|x rest IH]; simpl; [reflexivity|].
  rewrite Hcb.
  destruct (nullish x) eqn:Hx.
  - destruct (GetMember_nullish x "type" Hx) as [e ->]. simpl.
    now constructor.
  - rewrite (GetMember_type x Hx). simpl.
    destruct (filterM cb rest) as [kept|e|r k]; simpl.
    + subst kept. now destruct (g (type_of x)).
    + now apply Exists_cons_tl.
    + exact IH.
Qed.

Lemma listing_result_ext (field : string) (P Q : JsValue -> Prop)
    (converted : bool) (o : Outcome Response) (res : Outcome JsValue) :
  (forall p, P p <-> Q p) ->
  listing_result field P converted o res ->
  listing_result field Q converted o res.
Proof.
  intros HPQ. destruct res as [v|e]; simpl; [|auto].
  intros (Hc & ps & items & Hps & Hv & Hin).
  split; [exact Hc|].
  exists ps, items. split; [assumption|]. split; [assumption|].
  intros p. specialize (Hin p). specialize (HPQ p). tauto.
Qed.

(** The part of a listing tool that follows its [fetch]. *)
Lemma listing_after_fetch (field msg : string) (cb : JsValue -> Prog bool)
    (g : JsValue -> bool) (r : Request) (o : Outcome Response) :
  (forall p, cb p = (t <- GetMember p "type" ;; Ret (g t))) ->
  listing_result field (fun p => g (type_of p) = true) true o
    (result (answering o) tt
       (Fetch r (fun o' =>
          response <- await o' ;;
          if negb (ok response)
          then Throw (Error (msg ++ statusText response))
          else
            data <- await (json response) ;;
            pastes <- GetMember data "pastes" ;;
            items <- CallFilter pastes cb ;;
            Ret (JObj [(field, items)])))).
Proof.
  intros Hcb. unfold listing_result, response_pastes, result, answering. simpl.
  destruct o as [resp|e]; simpl; [|intros _ ? Hno; discriminate Hno].
  destruct (ok resp) eqn:Hok; simpl; [|intros _ ? Hno; discriminate Hno].
  destruct (json resp) as [data|e] eqn:Hjson; simpl;
    [|intros _ ? Hno; discriminate Hno].
  destruct data as [| |b|n|s|l|props]; simpl;
    try (intros _ ? Hno; discriminate Hno).
  destruct (own props "pastes") as [| |b|n|s|ps|q] eqn:Hp; simpl;
    try (intros _ ? Hno; discriminate Hno).
  pose proof (filterM_by_type cb g ps Hcb) as HF.
  destruct (filterM cb ps) as [kept|e|r' k']; simpl.
  - split; [reflexivity|].
    exists ps, kept. split; [reflexivity|]. split; [reflexivity|].
    intros p. subst kept. exact (filter_In (fun q => g (type_of q)) p ps).
  - intros _ ps' [= <-]. exact HF.
  - destruct HF.
Qed.

(** C1. For every argument object, [list_notes] and [search_notes] return
    the object [{notes}] whose items are exactly the items of the remote
    answer whose type is not "collection" (so none of them is a
    collection and each was in the answer), and [list_collections]
    returns [{collections}] whose items are exactly those of type
    "collection".  They fail only when an argument that goes into the
    URL does not convert to a string, when the answer is not a
    successful listing, or when it lists a null item. *)
Theorem listings_keep_their_kind (config : APIClientConfig) (args : JsObject)
    (o : Outcome Response) :
  listing_result "notes" (fun n => type_of n <> JStr "collection")
    (printable "list_notes" args) o
    (result (answering o) tt
       (handleToolCall config "list_notes" (Some args))) /\
  listing_result "notes" (fun n => type_of n <> JStr "collection")
    (printable "search_notes" args) o
    (result (answering o) tt
       (handleToolCall config "search_notes" (Some args))) /\
  listing_result "collections" (fun c => type_of c = JStr "collection")
    (printable "list_collections" args) o
    (result (answering o) tt
       (handleToolCall config "list_collections" (Some args))).
Proof.
  assert (Hnot : forall v, negb (strict_eq_str v "collection") = true
                           <-> v <> JStr "collection").
  { intros v. rewrite negb_true_iff, <- not_true_iff_false.
    now rewrite strict_eq_str_true. }
  assert (Hand : forall b, b && true = b) by (intros []; reflexivity).
  split; [|split].
  - eapply listing_result_ext; [intros p; apply Hnot|].
    change (handleToolCall config "list_notes" (Some args))
      with (case_list_notes config (Some args)).
    unfold printable, interpolated, case_list_notes, with_parentId.
    cbn [existsb String.eqb Ascii.eqb Bool.eqb orb Destructure bind forallb].
    destruct (truthy (own args "parentId")); cbn [forallb bind].
    + rewrite Hand. unfold converts, interpolate.
      destruct (ToString (own args "parentId")) as [text|]; cbn [bind];
        [|intros Hno; discriminate Hno].
      apply (listing_after_fetch "notes" "Failed to list notes: "
               not_collection (fun t => negb (strict_eq_str t "collection"))).
      reflexivity.
    + apply (listing_after_fetch "notes" "Failed to list notes: "
               not_collection (fun t => negb (strict_eq_str t "collection"))).
      reflexivity.
  - eapply listing_result_ext; [intros p; apply Hnot|].
    change (handleToolCall config "search_notes" (Some args))
      with (case_search_notes config (Some args)).
    unfold printable, interpolated, case_search_notes, with_parentId.
    cbn [existsb String.eqb Ascii.eqb Bool.eqb orb Destructure bind forallb].
    unfold converts at 1, interpolate at 1.
    destruct (ToString (own args "query")) as [q|]; cbn [bind andb];
      [|intros Hno; discriminate Hno].
    destruct (truthy (own args "parentId")); cbn [forallb bind].
    + rewrite Hand. unfold converts, interpolate.
      destruct (ToString (own args "parentId")) as [text|]; cbn [bind];
        [|intros Hno; discriminate Hno].
      apply (listing_after_fetch "notes" "Failed to search notes: "
               not_collection (fun t => negb (strict_eq_str t "collection"))).
      reflexivity.
    + apply (listing_after_fetch "notes" "Failed to search notes: "
               not_collection (fun t => negb (strict_eq_str t "collection"))).
      reflexivity.
  - eapply listing_result_ext; [intros p; apply strict_eq_str_true|].
    change (handleToolCall config "list_collections" (Some args))
      with (case_list_collections config (Some args)).
    unfold printable, interpolated, case_list_collections, with_parentId.
    cbn [existsb String.eqb Ascii.eqb Bool.eqb orb Destructure bind forallb].
    destruct (truthy (own args "parentId")); cbn [forallb bind].
    + rewrite Hand. unfold converts, interpolate.
      destruct (ToString (own args "parentId")) as [text|]; cbn [bind];
        [|intros Hno; discriminate Hno].
      apply (listing_after_fetch "collections" "Failed to list collections: "
               is_collection (fun t => strict_eq_str t "collection")).
      reflexivity.
    + apply (listing_after_fetch "collections" "Failed to list collections: "
               is_collection (fun t => strict_eq_str t "collection")).
      reflexivity.
Qed.

Example list_notes_drops_the_collection :
  run (answering Examples.listing) tt
    (handleToolCall Examples.config "list_notes"
       (Some [("parentId", JStr "c 0")]))
  = (Resolved (JObj [("notes", JArr [Examples.note "n1" "text";
                                     Examples.note "n2" "text"])]),
     [ {| req_url := "http://localhost:3000/api/pastes?parentId=c+0";
          req_method := None;
          req_headers := [("Authorization", "Bearer fst_k")];
          req_body := None |} ]).
Proof. reflexivity. Qed.

Example list_collections_keeps_the_collection :
  result (answering Examples.listing) tt
    (handleToolCall Examples.config "list_collections" (Some []))
  = Resolved (JObj [("collections", JArr [Examples.note "c1" "collection"])]).
Proof. reflexivity. Qed.

(** C2. When [targetParentId] is omitted (or undefined) or null, every
    request of [move_note] is a POST whose body is the JSON text of
    [{targetParentId: null}]: the key is there, with the value null.
    There is one such request, to the path of the [id], whenever the
    [id] converts to a string; an [id] that does not makes the call fail
    before any request. *)
Theorem move_note_root_target_is_null (config : APIClientConfig)
    (args : JsObject) (S : Type)
    (remote : S -> Request -> Outcome Response * S) (s : S) :
  own args "targetParentId" = JUndefined \/ own args "targetParentId" = JNull ->
  Forall (fun req =>
            req_method req = Some "POST" /\
            sends req [("targetParentId", JNull)] /\
            req_body req
            = Some (BodyText ("{" ++ quoted "targetParentId" ++ ":null}")))
         (calls remote s (handleToolCall config "move_note" (Some args))) /\
  match ToString (own args "id") with
  | Some id =>
      exists req,
        calls remote s (handleToolCall config "move_note" (Some args))
        = [req] /\
        req_url req = baseUrl config ++ "/api/pastes/" ++ id ++ "/move"
  | None =>
      run remote s (handleToolCall config "move_note" (Some args))
      = (Rejected conversion_error, [])
  end.
Proof.
  intros H.
  change (handleToolCall config "move_note" (Some args))
    with (case_move_note config (Some args)).
  unfold case_move_note, interpolate. cbn [Destructure bind].
  destruct (ToString (own args "id")) as [id|]; cbn [bind fetchAPI].
  - erewrite calls_one by (intros o; apply settled_json_tail).
    split; [|eexists; split; reflexivity].
    constructor; [|constructor].
    unfold sends. simpl. destruct H as [-> | ->]; repeat split; reflexivity.
  - split; [constructor | reflexivity].
Qed.

Lemma move_note_root_target_is_null_witness :
  Forall (fun req =>
            req_method req = Some "POST" /\
            sends req [("targetParentId", JNull)] /\
            req_body req
            = Some (BodyText ("{" ++ quoted "targetParentId" ++ ":null}")))
         (calls Examples.unreachable tt
            (handleToolCall Examples.config "move_note"
               (Some [("id", JStr "n1")]))) /\
  exists req,
    calls Examples.unreachable tt
      (handleToolCall Examples.config "move_note" (Some [("id", JStr "n1")]))
    = [req] /\
    req_url req = "http://localhost:3000/api/pastes/n1/move".
Proof.
  exact (move_note_root_target_is_null Examples.config [("id", JStr "n1")]
           unit Examples.unreachable tt (or_introl eq_refl)).
Defined.

Example move_note_unprintable_id :
  run Examples.unreachable tt
    (handleToolCall Examples.config "move_note"
       (Some [("id", JObj [("toString", JNum (mkNumber true true "1"))])]))
  = (Rejected (TypeError "Cannot convert object to primitive value"), []).
Proof. reflexivity. Qed.


Example move_note_empty_target :
  calls Examples.unreachable tt
    (handleToolCall Examples.config "move_note"
       (Some [("id", JStr "n1"); ("targetParentId", JStr EmptyString)]))
  = [ {| req_url := "http://localhost:3000/api/pastes/n1/move";
         req_method := Some "POST";
         req_headers := [("Authorization", "Bearer fst_k");
                         ("Content-Type", "application/json")];
         req_body := Some (BodyText ("{" ++ quoted "targetParentId"
                                     ++ ":null}")) |} ].
Proof. reflexivity. Qed.

(** C4, as amended.  The one request of [create_collection] is a POST
    whose body is the JSON text of an object with viewMode "grid",
    sortField "createdAt" and sortDirection "desc", whatever the
    arguments hold: they are not read from the arguments.  Its
    displayFields are [title, type, createdAt] when the arguments have
    none or have a falsy value there (null, false, zero, NaN, an empty
    string), and the value of the arguments, as given, when that is
    truthy (so every array, also an empty one). *)
Theorem create_collection_defaults (config : APIClientConfig)
    (args : JsObject) (S : Type)
    (remote : S -> Request -> Outcome Response * S) (s : S) :
  exists req payload,
    calls remote s (handleToolCall config "create_collection" (Some args))
    = [req] /\
    req_method req = Some "POST" /\
    req_url req = baseUrl config ++ "/api/pastes" /\
    sends req payload /\
    map fst payload
    = ["type"; "title"; "parentId"; "fieldDefinitions"; "displayFields";
       "viewMode"; "sortField"; "sortDirection"] /\
    own payload "type" = JStr "collection" /\
    own payload "title" = own args "title" /\
    own payload "viewMode" = JStr "grid" /\
    own payload "sortField" = JStr "createdAt" /\
    own payload "sortDirection" = JStr "desc" /\
    (own args "displayFields" = JUndefined ->
     own payload "displayFields"
     = JArr [JStr "title"; JStr "type"; JStr "createdAt"]) /\
    (truthy (own args "displayFields") = false ->
     own payload "displayFields"
     = JArr [JStr "title"; JStr "type"; JStr "createdAt"]) /\
    (truthy (own args "displayFields") = true ->
     own payload "displayFields" = own args "displayFields") /\
    (forall fields, own args "displayFields" = JArr fields ->
                    own payload "displayFields" = JArr fields).
Proof.
  eexists. eexists. split.
  { apply calls_one. intros o. apply settled_json_tail. }
  repeat split; simpl.
  - intros ->. reflexivity.
  - unfold js_or. intros ->. reflexivity.
  - unfold js_or. intros ->. reflexivity.
  - intros fields ->. reflexivity.
Qed.

(** C4, the counterexample.  Display fields supplied as null are not
    sent as given: the body of the request carries
    [title, type, createdAt] in their place, and differs from the body
    that would carry the supplied null. *)
Lemma supplied_null_displayFields_are_replaced :
  own [("title", JStr "Groceries"); ("displayFields", JNull)] "displayFields"
  = JNull /\
  map req_body
    (calls Examples.unreachable tt
       (handleToolCall Examples.config "create_collection"
          (Some [("title", JStr "Groceries"); ("displayFields", JNull)])))
  = [json_body
       (JObj [("type", JStr "collection");
              ("title", JStr "Groceries");
              ("displayFields",
               JArr [JStr "title"; JStr "type"; JStr "createdAt"]);
              ("viewMode", JStr "grid");
              ("sortField", JStr "createdAt");
              ("sortDirection", JStr "desc")])] /\
  map req_body
    (calls Examples.unreachable tt
       (handleToolCall Examples.config "create_collection"
          (Some [("title", JStr "Groceries"); ("displayFields", JNull)])))
  <> [json_body
        (JObj [("type", JStr "collection");
               ("title", JStr "Groceries");
               ("displayFields", JNull);
               ("viewMode", JStr "grid");
               ("sortField", JStr "createdAt");
               ("sortDirection", JStr "desc")])].
Proof.
  split; [reflexivity|]. split; [reflexivity|].
  intros E. vm_compute in E. discriminate E.
Qed.

Example create_collection_groceries :
  calls Examples.unreachable tt
    (handleToolCall Examples.config "create_collection"
       (Some [("title", JStr "Groceries")]))
  = [ {| req_url := "http://localhost:3000/api/pastes";
         req_method := Some "POST";
         req_headers := [("Authorization", "Bearer fst_k");
                         ("Content-Type", "application/json")];
         req_body :=
           Some (BodyText
                   ("{" ++ quoted "type" ++ ":" ++ quoted "collection"
                    ++ "," ++ quoted "title" ++ ":" ++ quoted "Groceries"
                    ++ "," ++ quoted "displayFields" ++ ":["
                    ++ quoted "title" ++ "," ++ quoted "type" ++ ","
                    ++ quoted "createdAt" ++ "],"
                    ++ quoted "viewMode" ++ ":" ++ quoted "grid" ++ ","
                    ++ quoted "sortField" ++ ":" ++ quoted "createdAt" ++ ","
                    ++ quoted "sortDirection" ++ ":" ++ quoted "desc" ++ "}"))
      |} ].
Proof. reflexivity. Qed.

(** C9. Every request of [update_note] is a PUT whose body is the JSON
    text of an object holding exactly the properties of the arguments
    other than [id]: nothing the caller did not supply is printed, and
    [id] is not.  There is one such request, to the path of the note's
    [id], when the [id] converts to a string; an [id] that does not
    makes the call fail before any request. *)
Theorem update_note_sends_supplied_fields (config : APIClientConfig)
    (args : JsObject) (S : Type)
    (remote : S -> Request -> Outcome Response * S) (s : S) :
  exists updates,
    Forall (fun req => req_method req = Some "PUT" /\ sends req updates)
           (calls remote s (handleToolCall config "update_note" (Some args))) /\
    (forall k v, In (k, v) updates <-> In (k, v) args /\ k <> "id") /\
    (forall k, printed_key updates k
               = negb (k =? "id") && printed_key args k) /\
    match ToString (own args "id") with
    | Some id =>
        exists req,
          calls remote s (handleToolCall config "update_note" (Some args))
          = [req] /\
          req_url req = baseUrl config ++ "/api/pastes/" ++ id
    | None =>
        run remote s (handleToolCall config "update_note" (Some args))
        = (Rejected conversion_error, [])
    end.
Proof.
  exists (rest_without ["id"] args).
  assert (Hkeys :
            (forall k v, In (k, v) (rest_without ["id"] args)
                         <-> In (k, v) args /\ k <> "id") /\
            (forall k, printed_key (rest_without ["id"] args) k
                       = negb (k =? "id") && printed_key args k)).
  { split; intros k.
    - intros v. rewrite In_rest_without. simpl.
      split; intros [H1 H2]; (split; [exact H1|]).
      + intros ->. apply H2. now left.
      + intros [E|[]]. now apply H2.
    - unfold printed_key. destruct (k =? "id") eqn:E; simpl.
      + apply String.eqb_eq in E. subst k.
        rewrite own_rest_without_named; [reflexivity | now left].
      + apply String.eqb_neq in E.
        rewrite own_rest_without_other; [reflexivity|].
        intros [H|[]]. now subst k. }
  destruct Hkeys as [Hin Hprinted].
  change (handleToolCall config "update_note" (Some args))
    with (case_update_note config (Some args)).
  unfold case_update_note, interpolate. cbn [Destructure bind].
  destruct (ToString (own args "id")) as [id|]; cbn [bind fetchAPI].
  - erewrite calls_one by (intros o; apply settled_json_tail).
    split; [|split; [exact Hin|split; [exact Hprinted|]]].
    + constructor; [|constructor]. split; reflexivity.
    + eexists. split; reflexivity.
  - split; [constructor|]. split; [exact Hin|]. split; [exact Hprinted|].
    reflexivity.
Qed.

Example update_note_unprintable_id :
  run Examples.unreachable tt
    (handleToolCall Examples.config "update_note"
       (Some [("id", JArr [JObj [("toString", JNull)]]);
              ("title", JStr "New")]))
  = (Rejected (TypeError "Cannot convert object to primitive value"), []).
Proof. reflexivity. Qed.

Example update_note_title_only :
  calls Examples.unreachable tt
    (handleToolCall Examples.config "update_note"
       (Some [("id", JStr "n1"); ("title", JStr "New")]))
  = [ {| req_url := "http://localhost:3000/api/pastes/n1";
         req_method := Some "PUT";
         req_headers := [("Authorization", "Bearer fst_k");
                         ("Content-Type", "application/json")];
         req_body := Some (BodyText ("{" ++ quoted "title" ++ ":"
                                     ++ quoted "New" ++ "}")) |} ].
Proof. reflexivity. Qed.

Lemma record_get_set (o : list (string * string)) (k v k' : string) :
  record_get (record_set o k v) k'
  = if k =? k' then Some v else record_get o k'.
Proof.
  induction o as [|[e w] o IH]; simpl; [reflexivity|].
  destruct (String.eqb_spec e k) as [->|Hne]; simpl.
  - destruct (k =? k'); reflexivity.
  - rewrite IH. destruct (String.eqb_spec e k') as [->|Hne'].
    + destruct (String.eqb_spec k k') as [->|_]; [contradiction | reflexivity].
    + reflexivity.
Qed.

Lemma record_get_spread (target source : list (string * string)) (k : string) :
  record_get (spread_into target source) k
  = match spread_value source k with
    | Some v => Some v
    | None => record_get target k
    end.
Proof.
  unfold spread_into, spread_value.
  induction source as [|[e w] source IH] using rev_ind; [reflexivity|].
  rewrite fold_left_app, rev_app_distr. simpl.
  rewrite record_get_set, IH. now destruct (e =? k).
Qed.

(** C8, as amended.  Every request that any tool issues (called through
    the dispatcher or through the call-tool handler), whatever its
    arguments and whatever the remote service answers, carries
    [Authorization: Bearer <token>] for the token of the configuration,
    and carries [Content-Type: application/json] if and only if it has a
    string body.  Of the client itself, for any options: the bearer
    token is carried unless the caller's headers have an
    [Authorization] of their own, which is then carried in its place;
    the JSON content type is carried whenever the body is a string that
    is not empty; and with any other body (none, an empty string, one
    that is not a string) the content type is the caller's, if any. *)
Theorem every_call_is_authorized (config : APIClientConfig)
    (toolName : string) (args : option JsObject) (S : Type)
    (remote : S -> Request -> Outcome Response * S) (s : S)
    (path : string) (options : RequestInit) :
  Forall (authorized config)
         (calls remote s (handleToolCall config toolName args)) /\
  Forall (authorized config)
         (calls remote s (CallToolRequest_handler config toolName args)) /\
  let r := fetchAPI_request config path options in
  let given := match headers options with Some h => h | None => [] end in
  (spread_value given "Authorization" = None ->
   carries r "Authorization" ("Bearer " ++ token config)) /\
  (forall v, spread_value given "Authorization" = Some v ->
             carries r "Authorization" v) /\
  (body_is_text (body options) = true ->
   carries r "Content-Type" "application/json") /\
  (body_is_text (body options) = false ->
   forall v, carries r "Content-Type" v
             <-> spread_value given "Content-Type" = Some v).
Proof.
  split; [|split].
  - apply all_calls_run, handleToolCall_calls.
  - apply all_calls_run. unfold CallToolRequest_handler.
    apply all_calls_try_catch.
    + apply all_calls_bind; [apply handleToolCall_calls|].
      intros a. constructor.
    + intros e. constructor.
  - intros r given. subst r. unfold carries, fetchAPI_request. fold given.
    cbn [req_headers].
    assert (Hauth : forall k,
              record_get
                (if body_is_text (body options)
                 then record_set
                        (spread_into
                           [("Authorization", "Bearer " ++ token config)] given)
                        "Content-Type" "application/json"
                 else spread_into
                        [("Authorization", "Bearer " ++ token config)] given)
                k
              = if body_is_text (body options) && ("Content-Type" =? k)
                then Some "application/json"
                else match spread_value given k with
                     | Some v => Some v
                     | None => if "Authorization" =? k
                               then Some ("Bearer " ++ token config)
                               else None
                     end).
    { intros k. destruct (body_is_text (body options)); cbn [andb].
      - rewrite record_get_set. destruct ("Content-Type" =? k);
          [reflexivity|]. now rewrite record_get_spread.
      - now rewrite record_get_spread. }
    split; [|split; [|split]].
    + intros Hnone. rewrite Hauth, Hnone.
      cbn [String.eqb Ascii.eqb Bool.eqb]. rewrite andb_false_r. reflexivity.
    + intros v Hsome. rewrite Hauth, Hsome.
      cbn [String.eqb Ascii.eqb Bool.eqb]. rewrite andb_false_r. reflexivity.
    + intros Htext. rewrite Hauth, Htext. reflexivity.
    + intros Htext v. rewrite Hauth, Htext. cbn [andb].
      destruct (spread_value given "Content-Type") as [w|];
        cbn [String.eqb Ascii.eqb Bool.eqb]; [reflexivity|].
      split; intros H; discriminate H.
Qed.

(** C8, the counterexample.  A call through the client with an
    [Authorization] header of the caller and an empty string as body
    does not carry the bearer token, and has a string body without the
    JSON content type. *)
Lemma caller_authorization_and_empty_body :
  ~ carries (fetchAPI_request Examples.config "/api/pastes"
               {| method := Some "POST";
                  body := Some (BodyText EmptyString);
                  headers := Some [("Authorization", "Basic dXNlcg==")] |})
            "Authorization" ("Bearer " ++ token Examples.config) /\
  has_text_body (fetchAPI_request Examples.config "/api/pastes"
                   {| method := Some "POST";
                      body := Some (BodyText EmptyString);
                      headers := Some [("Authorization", "Basic dXNlcg==")] |})
  /\
  ~ carries (fetchAPI_request Examples.config "/api/pastes"
               {| method := Some "POST";
                  body := Some (BodyText EmptyString);
                  headers := Some [("Authorization", "Basic dXNlcg==")] |})
            "Content-Type" "application/json" /\
  ~ authorized Examples.config
      (fetchAPI_request Examples.config "/api/pastes"
         {| method := Some "POST";
            body := Some (BodyText EmptyString);
            headers := Some [("Authorization", "Basic dXNlcg==")] |}).
Proof.
  split; [intros H; discriminate H|].
  split; [exists EmptyString; reflexivity|].
  split; [intros H; discriminate H|].
  intros [H _]. discriminate H.
Qed.

Example get_collection_calls :
  calls (answering Examples.listing) tt
    (handleToolCall Examples.config "get_collection"
       (Some [("id", JStr "c1"); ("includeChildren", JBool true)]))
  = [ {| req_url := "http://localhost:3000/api/pastes/c1";
         req_method := None;
         req_headers := [("Authorization", "Bearer fst_k")];
         req_body := None |};
      {| req_url := "http://localhost:3000/api/pastes?parentId=c1";
         req_method := None;
         req_headers := [("Authorization", "Bearer fst_k")];
         req_body := None |} ].
Proof. reflexivity. Qed.

(** The default case of the dispatcher. *)
Lemma handleToolCall_unknown (config : APIClientConfig) (toolName : string)
    (args : option JsObject) :
  ~ In toolName tool_names ->
  handleToolCall config toolName args
  = Throw (McpError MethodNotFound ("Unknown tool: " ++ toolName)).
Proof.
  intros Hn. unfold handleToolCall.
  repeat match goal with
         | |- (if ?n =? ?lit then _ else _) = _ =>
             destruct (String.eqb_spec n lit) as [E|_];
             [exfalso; apply Hn; rewrite E; simpl; tauto|]
         end.
  reflexivity.
Qed.

(** What the protocol caller gets for a name outside the catalog. *)
Lemma CallToolRequest_handler_unknown (config : APIClientConfig)
    (toolName : string) (args : option JsObject) :
  ~ In toolName tool_names ->
  CallToolRequest_handler config toolName args
  = Throw (McpError InternalError
             ("MCP error -32601: Unknown tool: " ++ toolName)) /\
  error_code (McpError InternalError
                ("MCP error -32601: Unknown tool: " ++ toolName))
  = Some InternalError.
Proof.
  intros Hn. unfold CallToolRequest_handler.
  rewrite (handleToolCall_unknown config toolName args Hn).
  split; reflexivity.
Qed.

Example remote_failure_is_internal_error :
  result
    (answering (Resolved {| ok := false;
                            statusText := "Not Found";
                            json := Resolved JNull |})) tt
    (CallToolRequest_handler Examples.config "get_note"
       (Some [("id", JStr "n1")]))
  = Rejected (McpError InternalError "Failed to get note: Not Found").
Proof. reflexivity. Qed.

(** C3. For the name "frobnicate", which is not in the catalog, the
    dispatcher fails with an [McpError] of code MethodNotFound, but the
    call-tool request handler catches it and throws a new [McpError] of
    code InternalError, with the first one's message: the protocol
    caller does not observe "method not found". *)
Theorem unknown_tool_is_reclassified :
  ~ In "frobnicate" tool_names /\
  handleToolCall Examples.config "frobnicate" (Some [])
  = Throw (McpError MethodNotFound "Unknown tool: frobnicate") /\
  (exists e,
     CallToolRequest_handler Examples.config "frobnicate" (Some [])
     = Throw e /\
     e = McpError InternalError "MCP error -32601: Unknown tool: frobnicate" /\
     error_code e = Some InternalError /\
     error_code e <> Some MethodNotFound).
Proof.
  assert (Hn : ~ In "frobnicate" tool_names).
  { simpl. intros H.
    repeat (destruct H as [H|H]; [discriminate H|]). exact H. }
  split; [exact Hn|]. split.
  - exact (handleToolCall_unknown Examples.config "frobnicate" (Some []) Hn).
  - destruct (CallToolRequest_handler_unknown Examples.config "frobnicate"
                (Some []) Hn) as [Hthrow Hcode].
    eexists. split; [exact Hthrow|]. split; [reflexivity|].
    split; [exact Hcode | discriminate].
Qed.

(* ================================================================== *)
(** ** The session tables                                              *)
(* ================================================================== *)

Local Open Scope list_scope.

Section MapFacts.
Context {V : Type}.
Implicit Types (m : list (string * V)) (k : string) (v : V).

Lemma has_false_iff m k : JsMap.has m k = false <-> ~ In k (JsMap.keys m).
Proof.
  unfold JsMap.has. induction m as [|[k' v'] m IH]; simpl.
  - split; [intros _ []|reflexivity].
  - destruct (String.eqb_spec k' k) as [->|Hne].
    + split; [discriminate | intros H; exfalso; apply H; now left].
    + rewrite IH. split; [intros H [E|Hin]; [contradiction | now apply H]
                         | intros H Hin; apply H; now right].
Qed.

Lemma get_In m k v : JsMap.get m k = Some v -> In (k, v) m.
Proof.
  induction m as [|[k' v'] m IH]; simpl; [discriminate|].
  destruct (String.eqb_spec k' k) as [->|Hne].
  - intros [= ->]. now left.
  - intros H. right. now apply IH.
Qed.

Lemma In_get m k v :
  NoDup (JsMap.keys m) -> In (k, v) m -> JsMap.get m k = Some v.
Proof.
  induction m as [|[k' v'] m IH]; simpl; [intros _ []|].
  intros Hnd [E|Hin].
  - injection E as -> ->. now rewrite String.eqb_refl.
  - inversion Hnd as [|? ? Hnotin Hnd']; subst.
    destruct (String.eqb_spec k' k) as [->|Hne].
    + exfalso. apply Hnotin. apply (in_map fst) in Hin. exact Hin.
    + now apply IH.
Qed.

Lemma set_fresh m k v :
  ~ In k (JsMap.keys m) -> JsMap.set m k v = m ++ [(k, v)].
Proof.
  induction m as [|[k' v'] m IH]; simpl; [reflexivity|].
  intros H. destruct (String.eqb_spec k' k) as [->|Hne].
  - exfalso. apply H. now left.
  - rewrite IH; [reflexivity|]. intros Hin. apply H. now right.
Qed.

Lemma In_delete m k (p : string * V) :
  In p (JsMap.delete m k) <-> In p m /\ fst p <> k.
Proof.
  unfold JsMap.delete. rewrite filter_In, negb_true_iff.
  now rewrite String.eqb_neq.
Qed.

Lemma delete_absent m k : ~ In k (JsMap.keys m) -> JsMap.delete m k = m.
Proof.
  unfold JsMap.delete. induction m as [|[k' v'] m IH]; simpl; [reflexivity|].
  intros H. destruct (String.eqb_spec k' k) as [->|Hne]; simpl.
  - exfalso. apply H. now left.
  - rewrite IH; [reflexivity|]. intros Hin. apply H. now right.
Qed.

Lemma delete_app m1 m2 k :
  JsMap.delete (m1 ++ m2) k = JsMap.delete m1 k ++ JsMap.delete m2 k.
Proof. apply filter_app. Qed.

End MapFacts.

Lemma get_set_same {V : Type} (m : list (string * V)) (k : string) (v : V) :
  JsMap.get (JsMap.set m k v) k = Some v.
Proof.
  induction m as [|[k0 v0] m IH]; simpl; [now rewrite String.eqb_refl|].
  destruct (String.eqb_spec k0 k) as [->|Hne]; simpl.
  - now rewrite String.eqb_refl.
  - destruct (String.eqb_spec k0 k); [contradiction | exact IH].
Qed.

Lemma get_set_fresh {V : Type} (m : list (string * V)) (k k' : string)
    (v b : V) :
  JsMap.get m k' = Some b -> JsMap.get (JsMap.set m k v) k' = Some b \/ k = k'.
Proof.
  induction m as [|[k0 v0] m IH]; simpl; [discriminate|].
  destruct (String.eqb_spec k0 k') as [->|Hne].
  - intros [= ->]. destruct (String.eqb_spec k' k) as [->|Hne']; simpl.
    + now right.
    + left. now rewrite String.eqb_refl.
  - intros H. destruct (String.eqb_spec k0 k) as [->|Hne']; simpl.
    + left. destruct (String.eqb_spec k k'); [contradiction | exact H].
    + destruct (String.eqb_spec k0 k'); [contradiction|]. now apply IH.
Qed.

Lemma run_listeners_In {V : Type} (listeners : list (nat * string)) (n : nat)
    (table : list (string * V)) (p : string * V) :
  In p (run_listeners listeners n table) <->
  In p table /\
  forall l, In l listeners -> fst l = n -> snd l <> fst p.
Proof.
  unfold run_listeners. revert table.
  induction listeners as [|[c sid] ls IH]; intros table; simpl.
  - split; [intros H; split; [exact H | intros l []] | tauto].
  - rewrite IH. destruct (Nat.eqb_spec c n) as [->|Hne].
    + rewrite In_delete. split.
      * intros [[H1 H2] H3]. split; [exact H1|].
        intros l [<-|Hl] E; simpl; [congruence | now apply H3].
      * intros [H1 H2]. split; [split; [exact H1|]|].
        -- intros E. apply (H2 (n, sid)); [now left | reflexivity | now symmetry].
        -- intros l Hl. apply H2. now right.
    + split.
      * intros [H1 H2]. split; [exact H1|].
        intros l [<-|Hl] E; simpl in *; [contradiction | now apply H2].
      * intros [H1 H2]. split; [exact H1|]. intros l Hl. apply H2. now right.
Qed.

Lemma run_listeners_filter {V : Type} (listeners : list (nat * string))
    (n : nat) (table : list (string * V)) :
  run_listeners listeners n table
  = filter (fun p => negb (existsb (fun l => Nat.eqb (fst l) n
                                             && (snd l =? fst p)) listeners))
           table.
Proof.
  unfold run_listeners. revert table.
  induction listeners as [|[c sid] ls IH]; intros table; simpl.
  - induction table as [|p t IHt]; simpl; [reflexivity | now rewrite <- IHt].
  - rewrite IH. destruct (Nat.eqb_spec c n) as [->|Hne]; simpl.
    + unfold JsMap.delete. clear IH.
      induction table as [|p t IHt]; simpl; [reflexivity|].
      rewrite (String.eqb_sym sid (fst p)).
      destruct (fst p =? sid); simpl; [exact IHt|].
      destruct (existsb _ ls); simpl; [exact IHt | now rewrite IHt].
    + reflexivity.
Qed.

Lemma NoDup_keys_filter {V : Type} (f : string * V -> bool)
    (m : list (string * V)) :
  NoDup (JsMap.keys m) -> NoDup (JsMap.keys (filter f m)).
Proof.
  induction m as [|p m IH]; simpl; [constructor|].
  intros Hnd. inversion Hnd as [|? ? Hnotin Hnd']; subst.
  destruct (f p); simpl; [|now apply IH].
  constructor; [|now apply IH].
  intros Hin. apply Hnotin. unfold JsMap.keys in *.
  apply in_map_iff in Hin. destruct Hin as (q & Hq & Hin).
  apply filter_In in Hin. apply in_map_iff. exists q. tauto.
Qed.

(** A request passes the gate with a string token, and only so. *)
Lemma token_ok_refused (token : JsValue) :
  token_ok token = true <-> token_refused token = Some false.
Proof.
  unfold token_ok. destruct (token_refused token) as [[|]|];
    split; intros H; try reflexivity; discriminate H.
Qed.

Lemma token_ok_false (token : JsValue) :
  token_ok token = false ->
  token_refused token = Some true \/ token_refused token = None.
Proof.
  unfold token_ok. destruct (token_refused token) as [[|]|];
    intros H; auto; discriminate H.
Qed.

Lemma token_ok_text (token : JsValue) :
  token_ok token = true -> token = JStr (token_text token).
Proof.
  unfold token_ok, token_refused.
  destruct token; simpl; try discriminate;
    try (destruct b; discriminate);
    try (destruct (num_truthy n); discriminate).
  reflexivity.
Qed.

Lemma streamable_inv_initial : streamable_inv initial.
Proof. split; [constructor | split; [intros sid t tok [] | intros []]]. Qed.

Lemma streamable_inv_next (s : State) :
  streamable_inv s -> streamable_inv (next s).
Proof.
  intros (Hnd & Hlt & Hne). split; [exact Hnd|]. split; [|exact Hne]. simpl.
  intros sid t tok Hin. specialize (Hlt sid t tok Hin). lia.
Qed.

Lemma keys_filter_incl {V : Type} (f : string * V -> bool)
    (m : list (string * V)) (k : string) :
  In k (JsMap.keys (filter f m)) -> In k (JsMap.keys m).
Proof.
  unfold JsMap.keys. rewrite !in_map_iff.
  intros (p & Hp & Hin). apply filter_In in Hin. exists p. tauto.
Qed.

Lemma streamable_inv_step (url : string) (s : State) (e : Event) :
  streamable_inv s -> streamable_inv (fst (step url s e)).
Proof.
  intros Hinv. pose proof (streamable_inv_next s Hinv) as Hnext.
  destruct e as [token sessionId sdk|token generated connected|handled|n|n];
    simpl.
  - unfold post_sse.
    destruct (token_refused token) as [[|]|]; simpl;
      [exact Hnext| |exact Hnext].
    destruct (known_session s sessionId).
    { destruct (JsMap.get _ _) as [[transport tok]|]; exact Hnext. }
    destruct (connect sdk); [|exact Hnext].
    destruct (handleRequest sdk); [|exact Hnext].
    destruct (assignedSessionId sdk) as [newSessionId|]; [|exact Hnext].
    destruct (String.eqb_spec newSessionId EmptyString) as [Hempty|Hfull];
      simpl; [exact Hnext|].
    destruct (JsMap.has (streamableTransports s) newSessionId) eqn:Hhas;
      simpl; [exact Hnext|].
    apply has_false_iff in Hhas. destruct Hinv as (Hnd & Hlt & Hne).
    rewrite (set_fresh _ _ _ Hhas). split; [|split]; simpl.
    + unfold JsMap.keys. rewrite map_app. simpl.
      apply NoDup_app; [exact Hnd | repeat constructor; intros [] |].
      intros x Hx [<-|[]]. contradiction.
    + intros sid t tok Hin. apply in_app_or in Hin.
      destruct Hin as [Hin|[[= <- <- <-]|[]]]; [|lia].
      specialize (Hlt sid t tok Hin). lia.
    + unfold JsMap.keys. rewrite map_app. simpl. intros Hin.
      apply in_app_or in Hin. destruct Hin as [Hin|[E|[]]].
      * now apply Hne.
      * now apply Hfull.
  - unfold get_sse. destruct (token_refused token) as [[|]|]; simpl;
      [exact Hnext| |exact Hnext].
    destruct Hinv as (Hnd & Hlt & Hne).
    split; [exact Hnd|]. split; [|exact Hne]. simpl.
    intros sid t tok Hin. specialize (Hlt sid t tok Hin). lia.
  - unfold post_message.
    destruct (Nat.eqb _ 0); [exact Hnext|].
    destruct (nth_error _ _) as [[? ?]|]; exact Hnext.
  - exact Hinv.
  - destruct Hinv as (Hnd & Hlt & Hne). split; [|split]; simpl.
    + rewrite run_listeners_filter. now apply NoDup_keys_filter.
    + intros sid t tok Hin. apply run_listeners_In in Hin.
      now apply (Hlt sid t tok).
    + rewrite run_listeners_filter. intros Hin. apply Hne.
      now apply keys_filter_incl in Hin.
Qed.

Lemma streamable_inv_exec (url : string) (events : list Event) (s : State) :
  streamable_inv s -> streamable_inv (exec url s events).
Proof.
  revert s. induction events as [|e rest IH]; intros s Hinv; simpl.
  - exact Hinv.
  - apply IH. now apply streamable_inv_step.
Qed.

Lemma legacy_inv_initial : legacy_inv initial.
Proof.
  repeat split; simpl; try constructor; try (intros; contradiction).
Qed.

Lemma legacy_inv_same (s s' : State) :
  sseTransports s' = sseTransports s ->
  close_listeners s' = close_listeners s ->
  requests s <= requests s' ->
  legacy_inv s -> legacy_inv s'.
Proof.
  intros Ht Hl Hr (Hnd & Hent & Hlt & Hfun & Hinj).
  unfold legacy_inv. rewrite Ht, Hl. repeat split; auto.
  intros c sid Hin. specialize (Hlt c sid Hin). lia.
Qed.

Lemma post_sse_legacy (url : string) (s : State) (token : JsValue)
    (sessionId : option string)
    (sdk : SdkRun) :
  sseTransports (fst (post_sse url s token sessionId sdk)) = sseTransports s /\
  close_listeners (fst (post_sse url s token sessionId sdk)) = close_listeners s /\
  requests (fst (post_sse url s token sessionId sdk)) = S (requests s).
Proof.
  unfold post_sse.
  destruct (token_refused token) as [[|]|]; simpl; [auto| |auto].
  destruct (known_session s sessionId).
  { destruct (JsMap.get _ _) as [[? ?]|]; simpl; auto. }
  destruct (connect sdk); simpl; [|auto].
  destruct (handleRequest sdk); simpl; [|auto].
  destruct (assignedSessionId sdk) as [sid|]; simpl; [|auto].
  destruct (negb (sid =? EmptyString) && negb (JsMap.has _ sid)); simpl; auto.
Qed.

Lemma post_message_state (s : State) (handled : Awaited) :
  fst (post_message s handled) = next s.
Proof.
  unfold post_message. destruct (Nat.eqb _ 0); [reflexivity|].
  destruct (nth_error _ _) as [[? ?]|]; reflexivity.
Qed.

Lemma map_filter_snd {A B : Type} (f : B -> bool) (l : list (A * B)) :
  map snd (filter (fun p => f (snd p)) l) = filter f (map snd l).
Proof.
  induction l as [|p l IH]; simpl; [reflexivity|].
  destruct (f (snd p)); simpl; now rewrite IH.
Qed.

Lemma legacy_close (s : State) (c : nat) :
  legacy_inv s ->
  map snd (run_listeners (close_listeners s) c (sseTransports s))
  = filter (fun x => negb (Nat.eqb x c)) (map snd (sseTransports s)).
Proof.
  intros (Hnd & Hent & Hlt & Hfun & Hinj).
  rewrite run_listeners_filter, <- map_filter_snd. f_equal.
  apply filter_ext_in. intros [sid x] Hin. simpl. f_equal.
  specialize (Hent sid x Hin).
  destruct (Nat.eqb_spec x c) as [->|Hne].
  - apply existsb_exists. exists (c, sid). simpl.
    now rewrite Nat.eqb_refl, String.eqb_refl.
  - apply not_true_is_false. intros Hex.
    apply existsb_exists in Hex. destruct Hex as ([c' sid'] & Hl & Hb).
    simpl in Hb. apply andb_true_iff in Hb. destruct Hb as [Hc Hs].
    apply Nat.eqb_eq in Hc. apply String.eqb_eq in Hs. subst c' sid'.
    apply Hne. now apply (Hinj x c sid).
Qed.

Lemma legacy_step (url : string) (s : State) (e : Event)
    (rest : list Event) :
  legacy_inv s ->
  NoDup (generated_ids (e :: rest)) ->
  (forall c sid, In (c, sid) (close_listeners s) ->
                 ~ In sid (generated_ids (e :: rest))) ->
  legacy_inv (fst (step url s e)) /\
  NoDup (generated_ids rest) /\
  (forall c sid, In (c, sid) (close_listeners (fst (step url s e))) ->
                 ~ In sid (generated_ids rest)) /\
  legacy_open (requests s) (map snd (sseTransports s)) (e :: rest)
  = legacy_open (requests (fst (step url s e)))
      (map snd (sseTransports (fst (step url s e)))) rest.
Proof.
  intros Hinv Hnd Hfresh.
  destruct e as [token sessionId sdk|token generated connected|handled|c|c].
  - simpl in *.
    destruct (post_sse_legacy url s token sessionId sdk) as (Ht & Hl & Hr).
    rewrite Ht, Hl, Hr. split; [|auto].
    apply (legacy_inv_same s); auto. lia.
  - simpl step. unfold get_sse. simpl generated_ids in *. simpl legacy_open.
    destruct (token_ok token) eqn:Hok; cbn [negb fst].
    { rewrite (proj1 (token_ok_refused token) Hok). cbn [fst].
      inversion Hnd as [|? ? Hg Hnd']; subst.
      destruct Hinv as (Hk & Hent & Hlt & Hfun & Hinj).
      assert (Hkey : ~ In generated (JsMap.keys (sseTransports s))).
      { intros Hin. unfold JsMap.keys in Hin. apply in_map_iff in Hin.
        destruct Hin as ([sid c] & E & Hin). simpl in E. subst sid.
        apply (Hfresh c generated (Hent _ _ Hin)). now left. }
      rewrite (set_fresh _ _ _ Hkey).
      assert (Hdel : JsMap.delete (sseTransports s ++ [(generated, requests s)])
                       generated = sseTransports s).
      { rewrite delete_app, (delete_absent _ _ Hkey). unfold JsMap.delete.
        simpl. rewrite String.eqb_refl. simpl. apply app_nil_r. }
      rewrite Hdel. unfold legacy_inv.
      cbn [sseTransports close_listeners requests].
      split; [split; [|split; [|split; [|split]]] | split; [exact Hnd'|split]].
      - destruct connected; [|exact Hk].
        unfold JsMap.keys. rewrite map_app. simpl.
        apply NoDup_app; [exact Hk | repeat constructor; intros [] |].
        intros x Hx [<-|[]]. contradiction.
      - intros sid c Hin. apply in_or_app.
        destruct connected; [|left; now apply Hent].
        apply in_app_or in Hin. destruct Hin as [Hin|[[= <- <-]|[]]].
        + left. now apply Hent.
        + right. now left.
      - intros c sid Hin. apply in_app_or in Hin.
        destruct Hin as [Hin|[[= <- <-]|[]]]; [|lia].
        specialize (Hlt c sid Hin). lia.
      - intros c sid sid' H1 H2. apply in_app_or in H1. apply in_app_or in H2.
        destruct H1 as [H1|[[= <- <-]|[]]]; destruct H2 as [H2|[E|[]]].
        + now apply (Hfun c).
        + injection E as <- <-. specialize (Hlt _ _ H1). lia.
        + specialize (Hlt _ _ H2). lia.
        + now injection E.
      - intros c c' sid H1 H2. apply in_app_or in H1. apply in_app_or in H2.
        destruct H1 as [H1|[[= <- <-]|[]]]; destruct H2 as [H2|[E|[]]].
        + now apply (Hinj c c' sid).
        + injection E as <- <-. exfalso. apply (Hfresh _ _ H1). now left.
        + exfalso. apply (Hfresh _ _ H2). now left.
        + now injection E.
      - intros c sid Hin. apply in_app_or in Hin.
        destruct Hin as [Hin|[[= <- <-]|[]]]; [|exact Hg].
        intros Hr. apply (Hfresh _ _ Hin). now right.
      - destruct connected; [|reflexivity]. now rewrite map_app. }
    destruct (token_ok_false token Hok) as [-> | ->];
      cbn [fst next sseTransports close_listeners requests];
      (split; [apply (legacy_inv_same s); simpl; auto|]);
      (split; [exact Hnd|]); (split; [exact Hfresh|]);
      destruct connected; reflexivity.
  - simpl step. rewrite post_message_state. simpl in *.
    split; [apply (legacy_inv_same s); simpl; auto | auto].
  - simpl in *. rewrite (legacy_close s c Hinv).
    split; [|auto].
    destruct Hinv as (Hk & Hent & Hlt & Hfun & Hinj).
    unfold legacy_inv. simpl. repeat split; auto.
    + rewrite run_listeners_filter. now apply NoDup_keys_filter.
    + intros sid x Hin. apply run_listeners_In in Hin. now apply Hent.
  - simpl in *. split; [apply (legacy_inv_same s); simpl; auto | auto].
Qed.

Lemma legacy_exec (url : string) (events : list Event) (s : State) :
  legacy_inv s ->
  NoDup (generated_ids events) ->
  (forall c sid, In (c, sid) (close_listeners s) ->
                 ~ In sid (generated_ids events)) ->
  map snd (sseTransports (exec url s events))
  = legacy_open (requests s) (map snd (sseTransports s)) events.
Proof.
  revert s. induction events as [|e rest IH]; intros s Hinv Hnd Hfresh;
    [reflexivity|].
  destruct (legacy_step url s e rest Hinv Hnd Hfresh) as (Hi & Hn & Hf & ->).
  change (exec url s (e :: rest)) with (exec url (fst (step url s e)) rest).
  now apply IH.
Qed.

Lemma last_of_map {A B : Type} (f : A -> B) (l : list A) :
  last_of (map f l) = option_map f (last_of l).
Proof. unfold last_of. now rewrite length_map, nth_error_map. Qed.

Lemma legacy_open_app (pre post : list Event) (n : nat) (open : list nat) :
  legacy_open n open (pre ++ post)
  = legacy_open (n + request_count pre) (legacy_open n open pre) post.
Proof.
  revert n open. induction pre as [|e pre IH]; intros n open; simpl.
  - now rewrite Nat.add_0_r.
  - destruct e; rewrite IH; simpl; f_equal; lia.
Qed.

Lemma last_of_snoc {A : Type} (l : list A) (x : A) : last_of (l ++ [x]) = Some x.
Proof.
  unfold last_of. rewrite length_app. simpl.
  replace (length l + 1 - 1) with (length l) by lia.
  rewrite nth_error_app2 by lia. now rewrite Nat.sub_diag.
Qed.

Lemma legacy_open_still_latest (post : list Event) (n b : nat)
    (open : list nat) :
  still_latest b post = true ->
  last_of (legacy_open n (open ++ [b]) post) = Some b.
Proof.
  revert n open. induction post as [|e post IH]; intros n open Hs; simpl.
  - apply last_of_snoc.
  - destruct e as [t sid sdk|t g c|h|c|c]; simpl in Hs.
    + now apply IH.
    + destruct c.
      * apply andb_true_iff in Hs. destruct Hs as [Ht Hs].
        apply negb_true_iff in Ht. rewrite Ht. now apply IH.
      * now apply IH.
    + now apply IH.
    + apply andb_true_iff in Hs. destruct Hs as [Hc Hs].
      rewrite filter_app. simpl.
      rewrite Nat.eqb_sym, Hc. now apply IH.
    + now apply IH.
Qed.

Lemma latest_session (pre post : list Event) (tok g : string) :
  token_ok (JStr tok) = true ->
  still_latest (request_count pre) post = true ->
  last_of (legacy_open 0 [] (pre ++ GetSse (JStr tok) g Returned :: post))
  = Some (request_count pre).
Proof.
  intros Hok Hs. rewrite legacy_open_app. cbn [legacy_open]. rewrite Hok.
  now apply legacy_open_still_latest.
Qed.

(* ================================================================== *)
(** ** The transport handlers                                          *)
(* ================================================================== *)

Example token_with_prefix : token_ok (JStr "fst_3f9a") = true.
Proof. reflexivity. Qed.

Example token_without_prefix :
  token_ok (JStr "Fst_3f9a") = false /\ token_ok (JStr "fst") = false /\
  token_ok (JStr EmptyString) = false /\ token_ok JUndefined = false.
Proof. repeat split. Qed.

(** What the query parser makes of [?token=fst_a&token=fst_b]. *)
Example token_given_twice :
  token_refused (JArr [JStr "fst_a"; JStr "fst_b"]) = None /\
  token_ok (JArr [JStr "fst_a"; JStr "fst_b"]) = false.
Proof. split; reflexivity. Qed.




(** C6. In every state the server can reach, a session identifier of the
    streaming table is bound to one transport.  A POST /sse request with
    a valid token and an identifier of the table is handed to the
    transport stored under it, and nothing is constructed.  With no
    identifier, or with one that is not in the table, a transport and an
    engine are constructed for the request, numbered as no stored
    transport is; only that transport handles the request; the bindings
    of the table stay; and the identifier the handshake assigned, when
    it is not bound yet, is bound to the new transport. *)
Theorem streamable_session_has_one_transport (url : string) (s : State) :
  reachable url s ->
  (forall sid b1 b2,
     In (sid, b1) (streamableTransports s) ->
     In (sid, b2) (streamableTransports s) -> b1 = b2) /\
  (forall tok sid sdk transport tok',
     token_ok (JStr tok) = true ->
     JsMap.get (streamableTransports s) sid = Some (transport, tok') ->
     exists rest,
       step url s (PostSse (JStr tok) (Some sid) sdk)
       = (next s, HandleRequest transport :: rest) /\
       constructs_nothing (HandleRequest transport :: rest) /\
       forall t, ~ In (HandleRequest t) rest) /\
  (forall tok sessionId sdk,
     token_ok (JStr tok) = true ->
     sessionId = None \/
     (exists sid, sessionId = Some sid /\
                  JsMap.get (streamableTransports s) sid = None) ->
     exists s' rest,
       step url s (PostSse (JStr tok) sessionId sdk)
       = (s',
          NewStreamableTransport (requests s)
          :: CreateMCPServer (requests s) {| baseUrl := url; token := tok |}
          :: Connect (requests s) (requests s)
          :: rest) /\
       (forall sid t tok',
          In (sid, (t, tok')) (streamableTransports s) -> t <> requests s) /\
       (forall t, In (HandleRequest t) rest -> t = requests s) /\
       (forall sid b,
          JsMap.get (streamableTransports s) sid = Some b ->
          JsMap.get (streamableTransports s') sid = Some b) /\
       (forall sid,
          connect sdk = Returned -> handleRequest sdk = Returned ->
          assignedSessionId sdk = Some sid -> sid <> EmptyString ->
          JsMap.get (streamableTransports s) sid = None ->
          JsMap.get (streamableTransports s') sid = Some (requests s, tok))).
Proof.
  intros [events ->].
  pose proof (streamable_inv_exec url events initial streamable_inv_initial)
    as (Hnd & Hlt & Hne).
  set (s := exec url initial events) in *.
  split; [|split].
  - intros sid b1 b2 H1 H2.
    apply (In_get _ _ _ Hnd) in H1. apply (In_get _ _ _ Hnd) in H2. congruence.
  - intros tok sid sdk transport tok' Hok Hget.
    assert (Hsid : sid <> EmptyString).
    { intros ->. apply Hne. apply get_In in Hget.
      apply (in_map fst) in Hget. exact Hget. }
    simpl. unfold post_sse. rewrite (proj1 (token_ok_refused _) Hok). simpl.
    unfold known_session. apply String.eqb_neq in Hsid. rewrite Hsid. simpl.
    unfold JsMap.has. rewrite Hget.
    eexists. split; [reflexivity|].
    unfold catch_handle.
    destruct (handleRequest sdk); [|destruct (headersSent sdk)].
    + split; [intros a [<-|[]]; exact I | intros t []].
    + split; [intros a [<-|[]]; exact I | intros t []].
    + split; [intros a [<-|[<-|[]]]; exact I|].
      intros t [H|[]]. discriminate H.
  - intros tok sessionId sdk Hok Hnew.
    assert (Hunknown : known_session s sessionId = false).
    { destruct Hnew as [->|(sid & -> & Hget)]; [reflexivity|].
      unfold known_session, JsMap.has. rewrite Hget. apply andb_false_r. }
    simpl. unfold post_sse.
    rewrite (proj1 (token_ok_refused _) Hok), Hunknown. simpl.
    assert (Hfresh : forall sid t tok',
               In (sid, (t, tok')) (streamableTransports s) -> t <> requests s).
    { intros sid t tok' Hin. specialize (Hlt sid t tok' Hin). lia. }
    unfold catch_handle.
    destruct (connect sdk).
    2:{ eexists _, _. split; [reflexivity|]. split; [exact Hfresh|].
        split; [intros t [H|[]]; discriminate H|].
        split; [tauto | intros sid H; discriminate H]. }
    destruct (handleRequest sdk).
    2:{ eexists _, _. split; [reflexivity|]. split; [exact Hfresh|].
        split; [|split; [tauto | intros sid _ H; discriminate H]].
        destruct (headersSent sdk).
        - intros t [[= <-]|[]]. reflexivity.
        - intros t [[= <-]|[H|[]]]; [reflexivity | discriminate H]. }
    destruct (assignedSessionId sdk) as [newSessionId|].
    2:{ eexists _, _. split; [reflexivity|]. split; [exact Hfresh|].
        split; [intros t [[= <-]|[]]; reflexivity|].
        split; [tauto | intros sid _ _ H; discriminate H]. }
    destruct (String.eqb_spec newSessionId EmptyString) as [Hempty|Hfull];
      simpl.
    { eexists _, _. split; [reflexivity|]. split; [exact Hfresh|].
      split; [intros t [[= <-]|[]]; reflexivity|].
      split; [tauto|]. intros sid _ _ [= <-] Hno. contradiction. }
    destruct (JsMap.has (streamableTransports s) newSessionId) eqn:Hhas; simpl.
    { eexists _, _. split; [reflexivity|]. split; [exact Hfresh|].
      split; [intros t [[= <-]|[]]; reflexivity|].
      split; [tauto|]. intros sid _ _ [= <-] _ Hno.
      unfold JsMap.has in Hhas. rewrite Hno in Hhas. discriminate. }
    eexists _, _. split; [reflexivity|]. split; [exact Hfresh|].
    split; [intros t [[= <-]|[]]; reflexivity|]. simpl. split.
    + intros sid b Hget.
      destruct (get_set_fresh _ newSessionId sid (requests s, tok) b Hget)
        as [H|<-]; [exact H|].
      unfold JsMap.has in Hhas. rewrite Hget in Hhas. discriminate.
    + intros sid _ _ [= <-] _ _. apply get_set_same.
Qed.

Lemma streamable_session_has_one_transport_witness :
  exists rest,
    step Examples.localhost Examples.one_session
      (PostSse (JStr "fst_a") (Some "uuid-1") (Examples.initialized "uuid-1"))
    = (next Examples.one_session, HandleRequest 0 :: rest) /\
    constructs_nothing (HandleRequest 0 :: rest) /\
    forall t, ~ In (HandleRequest t) rest.
Proof.
  apply (proj1 (proj2 (streamable_session_has_one_transport
                         Examples.localhost Examples.one_session
                         (ex_intro _ [PostSse (JStr "fst_a") None
                                        (Examples.initialized "uuid-1")]
                                   eq_refl)))
           "fst_a" "uuid-1" (Examples.initialized "uuid-1") 0 "fst_a").
  - reflexivity.
  - reflexivity.
Defined.

Example unknown_session_gets_a_new_transport :
  step Examples.localhost Examples.one_session
    (PostSse (JStr "fst_b") (Some "uuid-9") (Examples.initialized "uuid-2"))
  = ({| sseTransports := [];
        streamableTransports := [("uuid-1", (0, "fst_a"));
                                 ("uuid-2", (1, "fst_b"))];
        close_listeners := [];
        onclose := [(0, "uuid-1"); (1, "uuid-2")];
        requests := 2 |},
     [NewStreamableTransport 1;
      CreateMCPServer 1 {| baseUrl := Examples.localhost; token := "fst_b" |};
      Connect 1 1;
      HandleRequest 1]).
Proof. reflexivity. Qed.

(** POST /message reads the last entry of the legacy table. *)
Lemma post_message_last_entry (url : string) (s : State) (handled : Awaited) :
  match last_of (sseTransports s) with
  | None =>
      sseTransports s = [] /\
      step url s (PostMessage handled)
      = (next s,
         [Respond 400 (JObj [("error", JStr "No active SSE connection")])])
  | Some (_, transport) =>
      exists rest,
        step url s (PostMessage handled)
        = (next s, HandlePostMessage transport :: rest) /\
        forall t, ~ In (HandlePostMessage t) rest
  end.
Proof.
  simpl. unfold post_message, last_of, JsMap.entries.
  destruct (sseTransports s) as [|p table] eqn:Ht; [simpl; auto|].
  change (Nat.eqb (length (p :: table)) 0) with false. cbv iota.
  destruct (nth_error (p :: table) (length (p :: table) - 1))
    as [[sid latest]|] eqn:Hlast.
  - eexists. split; [reflexivity|].
    destruct handled; [intros t [] | intros t [H|[]]; discriminate H].
  - apply nth_error_None in Hlast. simpl in Hlast. lia.
Qed.

(** C7, as amended.  After any events in which the accepted GET /sse
    requests generated distinct session identifiers, POST /message is answered
    400 when no legacy session is registered and open (the legacy table
    is then empty), and is otherwise handed to the transport of the
    session registered last among those still open, and to no other.
    In particular, once B was opened (after A or after anything else),
    and as long as no further session is opened and B's response stays
    open, the message goes to B.  In any state, an empty table gives
    400. *)
Theorem post_message_goes_to_latest_open (url : string)
    (events : list Event) (handled : Awaited) :
  NoDup (generated_ids events) ->
  match last_of (legacy_open 0 [] events) with
  | None =>
      sseTransports (exec url initial events) = [] /\
      step url (exec url initial events) (PostMessage handled)
      = (next (exec url initial events),
         [Respond 400 (JObj [("error", JStr "No active SSE connection")])])
  | Some latest =>
      exists rest,
        step url (exec url initial events) (PostMessage handled)
        = (next (exec url initial events), HandlePostMessage latest :: rest) /\
        forall t, ~ In (HandlePostMessage t) rest
  end /\
  (forall pre tok generated post,
     events = pre ++ GetSse (JStr tok) generated Returned :: post ->
     token_ok (JStr tok) = true ->
     still_latest (request_count pre) post = true ->
     exists rest,
       step url (exec url initial events) (PostMessage handled)
       = (next (exec url initial events),
          HandlePostMessage (request_count pre) :: rest) /\
       forall t, ~ In (HandlePostMessage t) rest) /\
  (forall s, sseTransports s = [] ->
             step url s (PostMessage handled)
             = (next s,
                [Respond 400
                   (JObj [("error", JStr "No active SSE connection")])])).
Proof.
  intros Hnd.
  assert (Hmain :
    match last_of (legacy_open 0 [] events) with
    | None =>
        sseTransports (exec url initial events) = [] /\
        step url (exec url initial events) (PostMessage handled)
        = (next (exec url initial events),
           [Respond 400 (JObj [("error", JStr "No active SSE connection")])])
    | Some latest =>
        exists rest,
          step url (exec url initial events) (PostMessage handled)
          = (next (exec url initial events),
             HandlePostMessage latest :: rest) /\
          forall t, ~ In (HandlePostMessage t) rest
    end).
  { pose proof (legacy_exec url events initial legacy_inv_initial Hnd
                  (fun c sid (H : In (c, sid) []) => match H with end))
      as Hopen.
    simpl in Hopen. rewrite <- Hopen, last_of_map.
    pose proof (post_message_last_entry url (exec url initial events) handled)
      as Hlast.
    destruct (last_of (sseTransports (exec url initial events)))
      as [[sid latest]|]; exact Hlast. }
  split; [exact Hmain|]. split.
  - intros pre tok generated post E Hok Hstill.
    pose proof (latest_session pre post tok generated Hok Hstill) as Hlatest.
    rewrite <- E in Hlatest. rewrite Hlatest in Hmain. exact Hmain.
  - intros s Hempty.
    pose proof (post_message_last_entry url s handled) as Hlast.
    rewrite Hempty in Hlast. exact (proj2 Hlast).
Qed.

Lemma post_message_goes_to_latest_open_witness :
  exists rest,
    step Examples.localhost (exec Examples.localhost initial Examples.A_then_B)
      (PostMessage Returned)
    = (next (exec Examples.localhost initial Examples.A_then_B),
       HandlePostMessage 1 :: rest) /\
    forall t, ~ In (HandlePostMessage t) rest.
Proof.
  refine (proj1 (post_message_goes_to_latest_open Examples.localhost
                   Examples.A_then_B Returned _)).
  simpl. repeat constructor; simpl; intuition discriminate.
Defined.

(** C7, the counterexample.  Sessions A, B and C are opened in this
    order and none is closed, and the identifier generated for C is the
    one generated for A: C is the session registered last among those
    still open, yet POST /message is handed to the transport of B, and
    not to that of C. *)
Lemma colliding_identifier_misroutes_the_message :
  last_of (legacy_open 0 [] Cases.A_B_then_C_as_A) = Some 2 /\
  sseTransports (exec Examples.localhost initial Cases.A_B_then_C_as_A)
  = [("1700000000000-k3x9p", 2); ("1700000000002-q7m2d", 1)] /\
  snd (step Examples.localhost
         (exec Examples.localhost initial Cases.A_B_then_C_as_A)
         (PostMessage Returned))
  = [HandlePostMessage 1] /\
  ~ In (HandlePostMessage 2)
       (snd (step Examples.localhost
               (exec Examples.localhost initial Cases.A_B_then_C_as_A)
               (PostMessage Returned))).
Proof.
  split; [reflexivity|]. split; [reflexivity|]. split; [reflexivity|].
  intros [H|[]]. discriminate H.
Qed.

Example message_without_session :
  step Examples.localhost Examples.one_session (PostMessage Returned)
  = (next Examples.one_session,
     [Respond 400 (JObj [("error", JStr "No active SSE connection")])]).
Proof. reflexivity. Qed.

Example message_after_B_closed :
  snd (step Examples.localhost
         (exec Examples.localhost initial (Examples.A_then_B ++ [ResClose 1]))
         (PostMessage Returned))
  = [HandlePostMessage 0].
Proof. reflexivity. Qed.

(* ================================================================== *)
(** ** The dispatcher and its handler, case by case                    *)
(* ================================================================== *)

Local Open Scope string_scope.

(** Running the [try] and [catch] of a handler around a program. *)
Lemma run_handler {A B S : Type}
    (remote : S -> Request -> Outcome Response * S) (p : Prog A)
    (f : A -> B) (g : JsError -> JsError) (s : S) :
  run remote s (try_catch (a <- p ;; Ret (f a)) (fun e => Throw (g e)))
  = (match result remote s p with
     | Resolved a => Resolved (f a)
     | Rejected e => Rejected (g e)
     end, calls remote s p).
Proof.
  unfold result, calls. revert s.
  induction p as [a|e|r k IH]; intros s; simpl; [reflexivity|reflexivity|].
  destruct (remote s r) as [o s']. rewrite IH.
  destruct (run remote s' (k o)) as [res cs]. reflexivity.
Qed.

Lemma CallToolRequest_handler_run (config : APIClientConfig)
    (toolName : string) (args : option JsObject) (S : Type)
    (remote : S -> Request -> Outcome Response * S) (s : S) :
  run remote s (CallToolRequest_handler config toolName args)
  = (match result remote s (handleToolCall config toolName args) with
     | Resolved v => Resolved (text_result v)
     | Rejected e => Rejected (McpError InternalError (message_or_String e))
     end,
     calls remote s (handleToolCall config toolName args)).
Proof.
  exact (run_handler remote (handleToolCall config toolName args) text_result
           (fun e => McpError InternalError (message_or_String e)) s).
Qed.

(** X1. The call-tool handler is the dispatcher with a wrapper: it
    issues exactly the dispatcher's requests; a result becomes one text
    item holding the result's JSON text with an indent of two; and a
    failure of any kind becomes an [McpError] of code InternalError with
    the message of the original, so no other code ever leaves the
    handler. *)
Theorem handler_wraps_dispatcher (config : APIClientConfig)
    (toolName : string) (args : option JsObject) (S : Type)
    (remote : S -> Request -> Outcome Response * S) (s : S) :
  calls remote s (CallToolRequest_handler config toolName args)
  = calls remote s (handleToolCall config toolName args) /\
  result remote s (CallToolRequest_handler config toolName args)
  = match result remote s (handleToolCall config toolName args) with
    | Resolved v => Resolved (text_result v)
    | Rejected e => Rejected (McpError InternalError (message_or_String e))
    end /\
  forall e,
    result remote s (CallToolRequest_handler config toolName args)
    = Rejected e ->
    error_code e = Some InternalError.
Proof.
  unfold calls at 1, result at 1 3.
  rewrite CallToolRequest_handler_run. simpl.
  split; [reflexivity|]. split; [reflexivity|].
  intros e. destruct (result remote s _); intros [= <-]. reflexivity.
Qed.

Ltac open_tool :=
  unfold handleToolCall; cbn [String.eqb Ascii.eqb Bool.eqb];
  cbv [case_create_note case_get_note case_update_note case_delete_note
       case_list_notes case_search_notes case_create_collection
       case_update_collection case_get_collection case_list_collections
       case_move_note with_parentId interpolate];
  cbn [Destructure bind].

Ltac split_conversions :=
  repeat match goal with
         | |- context [truthy (own ?a "parentId")] =>
             destruct (truthy (own a "parentId"))
         end;
  cbn [forallb andb];
  repeat match goal with
         | |- context [ToString (own ?a ?k)] =>
             destruct (ToString (own a k))
         end;
  cbn [forallb andb bind].

(** The tool is run on arguments that convert: [Hp] says so. *)
Ltac with_printable Hp :=
  revert Hp; unfold printable, interpolated, converts;
  cbn [existsb String.eqb Ascii.eqb Bool.eqb orb];
  open_tool; split_conversions;
  intros Hp; try discriminate Hp.

(** A tool of the catalog starts with a request when its arguments
    convert, and with the conversion's [TypeError] otherwise. *)
Lemma handleToolCall_start (config : APIClientConfig) (toolName : string)
    (args : JsObject) :
  In toolName tool_names ->
  if printable toolName args
  then exists r k, handleToolCall config toolName (Some args) = Fetch r k
  else handleToolCall config toolName (Some args) = Throw conversion_error.
Proof.
  intros H. simpl in H.
  repeat (destruct H as [<-|H];
          [unfold printable, interpolated, converts;
           cbn [existsb String.eqb Ascii.eqb Bool.eqb orb];
           open_tool; split_conversions;
           first [reflexivity | eexists; eexists; reflexivity]|]).
  contradiction.
Qed.

(** X2. The catalog and the dispatcher agree, and the dispatcher
    validates nothing but what it must print: a call starts with a
    request to the remote service exactly when the name is of the
    catalog and the arguments that go into the URL convert to strings,
    whatever else the argument object holds.  A name of the catalog with
    an argument that does not convert fails with the conversion's
    [TypeError], before any request. *)
Theorem catalog_matches_dispatcher (config : APIClientConfig)
    (toolName : string) (args : JsObject) :
  (In toolName tool_names /\ printable toolName args = true <->
   exists r k, handleToolCall config toolName (Some args) = Fetch r k) /\
  (In toolName tool_names -> printable toolName args = false ->
   handleToolCall config toolName (Some args) = Throw conversion_error).
Proof.
  split.
  - split.
    + intros [Hin Hp].
      pose proof (handleToolCall_start config toolName args Hin) as H.
      now rewrite Hp in H.
    + intros (r & k & E).
      destruct (in_dec string_dec toolName tool_names) as [Hin|Hn].
      * split; [exact Hin|].
        pose proof (handleToolCall_start config toolName args Hin) as H.
        destruct (printable toolName args); [reflexivity|].
        rewrite H in E. discriminate E.
      * rewrite (handleToolCall_unknown config toolName (Some args) Hn) in E.
        discriminate E.
  - intros Hin Hp.
    pose proof (handleToolCall_start config toolName args Hin) as H.
    now rewrite Hp in H.
Qed.

Example get_note_unprintable_id :
  printable "get_note" [("id", JObj [("toString", JStr "n1")])] = false /\
  handleToolCall Examples.config "get_note"
    (Some [("id", JObj [("toString", JStr "n1")])])
  = Throw (TypeError "Cannot convert object to primitive value").
Proof. split; reflexivity. Qed.

(** X3. A call without arguments ([arguments] undefined) never reaches
    the remote service: every tool of the catalog fails with the
    [TypeError] of destructuring undefined, and the handler reports
    InternalError, having issued no request. *)
Theorem undefined_arguments_reach_no_remote (config : APIClientConfig)
    (toolName : string) (S : Type)
    (remote : S -> Request -> Outcome Response * S) (s : S) :
  exists e,
    handleToolCall config toolName None = Throw e /\
    (In toolName tool_names -> exists m, e = TypeError m) /\
    run remote s (CallToolRequest_handler config toolName None)
    = (Rejected (McpError InternalError (message_or_String e)), []).
Proof.
  destruct (in_dec string_dec toolName tool_names) as [Hin|Hn].
  - simpl in Hin.
    repeat (destruct Hin as [<-|Hin];
            [eexists; split; [reflexivity|];
             split; [intros _; eexists; reflexivity | reflexivity]|]).
    contradiction.
  - exists (McpError MethodNotFound ("Unknown tool: " ++ toolName)).
    split; [exact (handleToolCall_unknown config toolName None Hn)|].
    split; [intros Hin; contradiction|].
    unfold CallToolRequest_handler.
    rewrite (handleToolCall_unknown config toolName None Hn). reflexivity.
Qed.

(** The first answer of the remote service is the one [H] gives. *)
Ltac first_answer H :=
  simpl;
  match goal with
  | |- context [match ?x with pair _ _ => _ end] =>
      let E := fresh "E" in
      let o := fresh "o" in
      let s' := fresh "s'" in
      destruct x as [o s'] eqn:E;
      match type of E with
      | _ _ ?R = _ => specialize (H R); rewrite E in H; simpl in H; subst o
      end; simpl
  end.

(** X4. When the remote service answers the first request of a tool
    with a response that is not [ok], the tool fails with
    [Failed to <do what it does>: <statusText>], having issued that one
    request: the body is not read and nothing is tried again.  (The
    arguments are such that the request is made: what goes into the URL
    converts to a string.) *)
Theorem failed_answer_fails_the_tool (config : APIClientConfig)
    (toolName : string) (args : JsObject) (S : Type)
    (remote : S -> Request -> Outcome Response * S) (s : S) (r : Response) :
  In toolName tool_names ->
  printable toolName args = true ->
  (forall req, fst (remote s req) = Resolved r) ->
  ok r = false ->
  exists req,
    run remote s (handleToolCall config toolName (Some args))
    = (Rejected (Error (failure_prefix toolName ++ statusText r)), [req]).
Proof.
  intros Hin Hp Hfirst Hok. simpl in Hin.
  repeat (destruct Hin as [<-|Hin];
          [with_printable Hp;
           eexists; first_answer Hfirst; rewrite Hok; reflexivity|]).
  contradiction.
Qed.

Lemma failed_answer_fails_the_tool_witness :
  exists req,
    run (answering (Resolved Cases.not_found)) tt
        (handleToolCall Examples.config "get_note" (Some [("id", JStr "n1")]))
    = (Rejected (Error "Failed to get note: Not Found"), [req]).
Proof.
  refine (failed_answer_fails_the_tool Examples.config "get_note"
            [("id", JStr "n1")] unit (answering (Resolved Cases.not_found)) tt
            Cases.not_found _ _ _ _).
  - right. left. reflexivity.
  - reflexivity.
  - intros req. reflexivity.
  - reflexivity.
Defined.

(** X5. When [fetch] itself rejects (the service cannot be reached), a
    tool rejects with that very error after the one request, and the
    handler reports it as InternalError with the error's message.  (The
    arguments are such that the request is made.) *)
Theorem network_failure_is_passed_on (config : APIClientConfig)
    (toolName : string) (args : JsObject) (S : Type)
    (remote : S -> Request -> Outcome Response * S) (s : S) (e : JsError) :
  In toolName tool_names ->
  printable toolName args = true ->
  (forall req, fst (remote s req) = Rejected e) ->
  exists req,
    run remote s (handleToolCall config toolName (Some args))
    = (Rejected e, [req]) /\
    run remote s (CallToolRequest_handler config toolName (Some args))
    = (Rejected (McpError InternalError (message_or_String e)), [req]).
Proof.
  intros Hin Hp Hfirst.
  assert (H : exists req,
             run remote s (handleToolCall config toolName (Some args))
             = (Rejected e, [req])).
  { simpl in Hin.
    repeat (destruct Hin as [<-|Hin];
            [with_printable Hp; eexists; first_answer Hfirst; reflexivity|]).
    contradiction. }
  destruct H as [req Hrun]. exists req. split; [exact Hrun|].
  rewrite CallToolRequest_handler_run. unfold result, calls.
  rewrite Hrun. reflexivity.
Qed.

Lemma network_failure_is_passed_on_witness :
  exists req,
    run Examples.unreachable tt
        (handleToolCall Examples.config "list_notes" (Some []))
    = (Rejected (TypeError "fetch failed"), [req]) /\
    run Examples.unreachable tt
        (CallToolRequest_handler Examples.config "list_notes" (Some []))
    = (Rejected (McpError InternalError "fetch failed"), [req]).
Proof.
  refine (network_failure_is_passed_on Examples.config "list_notes" [] unit
            Examples.unreachable tt (TypeError "fetch failed") _ _ _).
  - do 4 right. left. reflexivity.
  - reflexivity.
  - intros req. reflexivity.
Defined.

(** X6. The six tools that end in [return response.json()] add nothing
    to an [ok] answer: the call settles exactly as reading the body as
    JSON settles, with its value or with its parse error, after one
    request.  (The arguments are such that the request is made.) *)
Theorem ok_answer_is_the_result (config : APIClientConfig)
    (toolName : string) (args : JsObject) (S : Type)
    (remote : S -> Request -> Outcome Response * S) (s : S) (r : Response) :
  In toolName returns_the_answer ->
  printable toolName args = true ->
  (forall req, fst (remote s req) = Resolved r) ->
  ok r = true ->
  exists req,
    run remote s (handleToolCall config toolName (Some args))
    = (json r, [req]).
Proof.
  intros Hin Hp Hfirst Hok. simpl in Hin.
  repeat (destruct Hin as [<-|Hin];
          [with_printable Hp;
           eexists; first_answer Hfirst; rewrite Hok; simpl;
           destruct (json r); reflexivity|]).
  contradiction.
Qed.

Lemma ok_answer_is_the_result_witness :
  exists req,
    run (answering (Resolved (Cases.answer (Examples.note "n1" "text")))) tt
        (handleToolCall Examples.config "move_note" (Some [("id", JStr "n1")]))
    = (Resolved (Examples.note "n1" "text"), [req]).
Proof.
  refine (ok_answer_is_the_result Examples.config "move_note"
            [("id", JStr "n1")] unit
            (answering (Resolved (Cases.answer (Examples.note "n1" "text"))))
            tt (Cases.answer (Examples.note "n1" "text")) _ _ _ _).
  - do 5 right. left. reflexivity.
  - reflexivity.
  - intros req. reflexivity.
  - reflexivity.
Defined.

(** X7. [delete_note] does not read the body of an [ok] answer: for an
    [id] that converts to a string, it returns [{success: true, id}]
    with the [id] it was given, after one DELETE request to
    [/api/pastes/<id>] without a body. *)
Theorem delete_note_does_not_read_the_body (config : APIClientConfig)
    (args : JsObject) (id : string) (S : Type)
    (remote : S -> Request -> Outcome Response * S) (s : S) (r : Response) :
  ToString (own args "id") = Some id ->
  (forall req, fst (remote s req) = Resolved r) ->
  ok r = true ->
  run remote s (handleToolCall config "delete_note" (Some args))
  = (Resolved (JObj [("success", JBool true); ("id", own args "id")]),
     [fetchAPI_request config ("/api/pastes/" ++ id)
        {| method := Some "DELETE"; body := None; headers := None |}]).
Proof.
  intros Hid Hfirst Hok. open_tool. rewrite Hid. cbn [bind].
  first_answer Hfirst. rewrite Hok. reflexivity.
Qed.

Lemma delete_note_does_not_read_the_body_witness :
  run (answering (Resolved {| ok := true;
                              statusText := "No Content";
                              json := Rejected (ErrorObject SyntaxErrorClass
                                                  "Unexpected end of JSON input")
                           |})) tt
      (handleToolCall Examples.config "delete_note" (Some [("id", JStr "n1")]))
  = (Resolved (JObj [("success", JBool true); ("id", JStr "n1")]),
     [ {| req_url := "http://localhost:3000/api/pastes/n1";
          req_method := Some "DELETE";
          req_headers := [("Authorization", "Bearer fst_k")];
          req_body := None |} ]).
Proof.
  refine (delete_note_does_not_read_the_body Examples.config
            [("id", JStr "n1")] "n1" unit _ tt _ _ _ _).
  - reflexivity.
  - intros req. reflexivity.
  - reflexivity.
Defined.

(** X8. [get_collection] on answers that are [ok] and carry JSON, for an
    [id] that converts to a string: with a falsy [includeChildren] it
    returns [{collection}] after one request; otherwise it asks a second
    time, for [/api/pastes?parentId=<id>] with the identifier as
    converted (not URL-encoded), and returns as [children] the [pastes]
    of that answer as they are, notes and collections alike. *)
Theorem get_collection_children (config : APIClientConfig)
    (args : JsObject) (id : string) (first second : Response)
    (collection : JsValue) (data : JsObject)
    (later : list (Outcome Response)) :
  ToString (own args "id") = Some id ->
  ok first = true -> json first = Resolved collection ->
  ok second = true -> json second = Resolved (JObj data) ->
  run scripted (Resolved first :: Resolved second :: later)
      (handleToolCall config "get_collection" (Some args))
  = if truthy (own args "includeChildren")
    then (Resolved (JObj [("collection", collection);
                          ("children", own data "pastes")]),
          [fetchAPI_request config ("/api/pastes/" ++ id) no_options;
           fetchAPI_request config ("/api/pastes?parentId=" ++ id)
             no_options])
    else (Resolved (JObj [("collection", collection)]),
          [fetchAPI_request config ("/api/pastes/" ++ id) no_options]).
Proof.
  intros Hid Hok1 Hj1 Hok2 Hj2. open_tool. rewrite Hid. cbn [bind].
  simpl. rewrite Hok1. simpl. rewrite Hj1. simpl.
  destruct (truthy (own args "includeChildren")); simpl; [|reflexivity].
  rewrite Hok2. simpl. rewrite Hj2. reflexivity.
Qed.

Lemma get_collection_children_witness :
  run scripted
      [Resolved (Cases.answer (Examples.note "c1" "collection"));
       Resolved (Cases.answer
                   (JObj [("pastes", JArr [Examples.note "n1" "text";
                                           Examples.note "c2" "collection"])]))]
      (handleToolCall Examples.config "get_collection"
         (Some [("id", JStr "c1&x=1"); ("includeChildren", JBool true)]))
  = (Resolved (JObj [("collection", Examples.note "c1" "collection");
                     ("children", JArr [Examples.note "n1" "text";
                                        Examples.note "c2" "collection"])]),
     [ {| req_url := "http://localhost:3000/api/pastes/c1&x=1";
          req_method := None;
          req_headers := [("Authorization", "Bearer fst_k")];
          req_body := None |};
       {| req_url := "http://localhost:3000/api/pastes?parentId=c1&x=1";
          req_method := None;
          req_headers := [("Authorization", "Bearer fst_k")];
          req_body := None |} ]).
Proof.
  exact (get_collection_children Examples.config
           [("id", JStr "c1&x=1"); ("includeChildren", JBool true)]
           "c1&x=1"
           (Cases.answer (Examples.note "c1" "collection"))
           (Cases.answer
              (JObj [("pastes", JArr [Examples.note "n1" "text";
                                      Examples.note "c2" "collection"])]))
           (Examples.note "c1" "collection")
           [("pastes", JArr [Examples.note "n1" "text";
                             Examples.note "c2" "collection"])]
           [] eq_refl eq_refl eq_refl eq_refl eq_refl).
Defined.

Lemma filterM_no_null (cb : JsValue -> Prog bool) (g : JsValue -> bool)
    (items : list JsValue) :
  (forall p, cb p = (t <- GetMember p "type" ;; Ret (g t))) ->
  forallb (fun p => negb (nullish p)) items = true ->
  filterM cb items = Ret (filter (fun p => g (type_of p)) items).
Proof.
  intros Hcb Hnn. pose proof (filterM_by_type cb g items Hcb) as H.
  destruct (filterM cb items) as [kept|e|r k]; [now subst| |destruct H].
  exfalso. apply Exists_exists in H. destruct H as (p & Hin & Hp).
  rewrite forallb_forall in Hnn. specialize (Hnn p Hin).
  rewrite Hp in Hnn. discriminate Hnn.
Qed.

(** X9. [list_notes] and [list_collections] are two views of one
    listing: for the same arguments (with a [parentId] that is falsy or
    converts to a string) they issue the same request, and on an answer
    that lists [pastes] (none of them null) the first returns the items
    that are not collections and the second the collections, both in the
    order of the answer, so that every item is in exactly one of the two
    results. *)
Theorem listings_split_the_answer (config : APIClientConfig)
    (args : JsObject) (o : Outcome Response) (pastes : list JsValue) :
  printable "list_notes" args = true ->
  response_pastes o = Some pastes ->
  forallb (fun p => negb (nullish p)) pastes = true ->
  let request :=
    fetchAPI_request config
      ("/api/pastes" ++ parent_query "?" (own args "parentId")) no_options in
  let notes := filter (fun p => negb (is_collection_item p)) pastes in
  let collections := filter is_collection_item pastes in
  run (answering o) tt (handleToolCall config "list_notes" (Some args))
  = (Resolved (JObj [("notes", JArr notes)]), [request]) /\
  run (answering o) tt (handleToolCall config "list_collections" (Some args))
  = (Resolved (JObj [("collections", JArr collections)]), [request]) /\
  length notes + length collections = length pastes.
Proof.
  intros Hp Hps Hnn request notes collections.
  unfold response_pastes in Hps.
  destruct o as [r|e]; [|discriminate Hps].
  destruct (ok r) eqn:Hok; [|discriminate Hps].
  destruct (json r) as [[| |b|n|t|l|props]|e] eqn:Hjson;
    try discriminate Hps.
  destruct (own props "pastes") as [| |b|n|t|ps|q] eqn:Hpastes;
    try discriminate Hps.
  injection Hps as ->.
  assert (Hpath : exists params,
             with_parentId [] (own args "parentId") = Ret params /\
             pastes_path params
             = "/api/pastes" ++ parent_query "?" (own args "parentId")).
  { revert Hp. unfold printable, interpolated, converts, with_parentId,
      interpolate, parent_query, text_of.
    cbn [existsb String.eqb Ascii.eqb Bool.eqb orb].
    destruct (truthy (own args "parentId")); cbn [forallb andb].
    - destruct (ToString (own args "parentId")) as [text|];
        [|intros H; discriminate H].
      intros _. eexists. split; reflexivity.
    - intros _. eexists. split; reflexivity. }
  destruct Hpath as (params & Hparams & Hpath).
  subst request. rewrite <- Hpath.
  split; [|split].
  - change (handleToolCall config "list_notes" (Some args))
      with (case_list_notes config (Some args)).
    unfold case_list_notes. cbn [Destructure bind]. rewrite Hparams.
    simpl. unfold answering. simpl. rewrite Hok. simpl. rewrite Hjson. simpl.
    rewrite Hpastes. simpl.
    rewrite (filterM_no_null not_collection
               (fun t => negb (strict_eq_str t "collection")) pastes
               (fun p => eq_refl) Hnn).
    reflexivity.
  - change (handleToolCall config "list_collections" (Some args))
      with (case_list_collections config (Some args)).
    unfold case_list_collections. cbn [Destructure bind]. rewrite Hparams.
    simpl. unfold answering. simpl. rewrite Hok. simpl. rewrite Hjson. simpl.
    rewrite Hpastes. simpl.
    rewrite (filterM_no_null is_collection
               (fun t => strict_eq_str t "collection") pastes
               (fun p => eq_refl) Hnn).
    reflexivity.
  - subst notes collections. clear.
    induction pastes as [|p ps IH]; simpl; [reflexivity|].
    destruct (is_collection_item p); simpl; lia.
Qed.

Lemma listings_split_the_answer_witness :
  run (answering Examples.listing) tt
      (handleToolCall Examples.config "list_notes" (Some []))
  = (Resolved (JObj [("notes", JArr [Examples.note "n1" "text";
                                     Examples.note "n2" "text"])]),
     [fetchAPI_request Examples.config "/api/pastes" no_options]) /\
  run (answering Examples.listing) tt
      (handleToolCall Examples.config "list_collections" (Some []))
  = (Resolved (JObj [("collections", JArr [Examples.note "c1" "collection"])]),
     [fetchAPI_request Examples.config "/api/pastes" no_options]) /\
  2 + 1 = 3.
Proof.
  exact (listings_split_the_answer Examples.config [] Examples.listing
           [Examples.note "n1" "text"; Examples.note "c1" "collection";
            Examples.note "n2" "text"] eq_refl eq_refl eq_refl).
Defined.

(* ================================================================== *)
(** ** How many requests, and where to                                 *)
(* ================================================================== *)

Section Within.
Context {A B : Type}.

Lemma within_le (n m : nat) (p : Prog A) : within n p -> n <= m -> within m p.
Proof.
  intros H. revert m. induction H as [n a|n e|n r k Hk IH]; intros m Hle;
    try constructor.
  destruct m as [|m]; [lia|]. constructor. intros o. apply IH. lia.
Qed.

Lemma within_bind (n : nat) (p : Prog A) (f : A -> Prog B) :
  within 0 p -> (forall a, within n (f a)) -> within n (bind p f).
Proof.
  intros Hp Hf. inversion Hp; subst; simpl; [apply Hf | constructor].
Qed.

Lemma within_calls (n : nat) (p : Prog A) (S : Type)
    (remote : S -> Request -> Outcome Response * S) (s : S) :
  within n p -> length (calls remote s p) <= n.
Proof.
  intros H. revert s. unfold calls.
  induction H as [n a|n e|n r k Hk IH]; intros s; simpl; try lia.
  destruct (remote s r) as [o s']. specialize (IH o s').
  destruct (run remote s' (k o)) as [res cs]. simpl in *. lia.
Qed.

End Within.

Lemma within_fetchAPI {B : Type} (n : nat) (config : APIClientConfig)
    (path : string) (options : RequestInit) (f : Response -> Prog B) :
  (forall response, within n (f response)) ->
  within (S n) (bind (fetchAPI config path options) f).
Proof.
  intros Hf. simpl. constructor. intros [response|e]; simpl;
    [apply Hf | constructor].
Qed.

Lemma within_await {A : Type} (n : nat) (o : Outcome A) : within n (await o).
Proof. destruct o; constructor. Qed.

Lemma within_if {A : Type} (n : nat) (c : bool) (p q : Prog A) :
  within n p -> within n q -> within n (if c then p else q).
Proof. now destruct c. Qed.

Lemma within_Destructure (n : nat) (args : option JsObject) (first : string) :
  within n (Destructure args first).
Proof. destruct args; constructor. Qed.

Lemma within_interpolate (n : nat) (v : JsValue) : within n (interpolate v).
Proof. unfold interpolate. destruct (ToString v); constructor. Qed.

Lemma within_with_parentId (n : nat) (params : URLSearchParams)
    (v : JsValue) :
  within n (with_parentId params v).
Proof.
  unfold with_parentId, interpolate.
  destruct (truthy v); [destruct (ToString v)|]; constructor.
Qed.

Lemma within_GetMember (n : nat) (v : JsValue) (k : string) :
  within n (GetMember v k).
Proof. destruct v; constructor. Qed.

Lemma within_filterM (cb : JsValue -> Prog bool) (items : list JsValue) :
  (forall x, within 0 (cb x)) -> within 0 (filterM cb items).
Proof.
  intros Hcb. induction items as [|x rest IH]; simpl; [constructor|].
  apply within_bind; [apply Hcb|]. intros keep.
  apply within_bind; [exact IH|]. intros kept. constructor.
Qed.

Lemma within_CallFilter (n : nat) (v : JsValue) (cb : JsValue -> Prog bool) :
  (forall x, within 0 (cb x)) -> within n (CallFilter v cb).
Proof.
  intros Hcb. apply within_le with (n := 0); [|lia].
  destruct v; simpl; try constructor.
  apply within_bind; [now apply within_filterM|]. intros kept. constructor.
Qed.

Create HintDb within.
#[local] Hint Resolve within_await within_Destructure within_interpolate
  within_with_parentId within_GetMember : within.
#[local] Hint Constructors within : within.

Ltac within_step :=
  first [ apply within_fetchAPI; intro
        | apply within_bind; [|intro]
        | apply within_if
        | apply within_CallFilter; intro
        | solve [auto with within] ].

Lemma handleToolCall_within (config : APIClientConfig) (toolName : string)
    (args : option JsObject) :
  within (request_bound toolName args) (handleToolCall config toolName args).
Proof.
  unfold handleToolCall, request_bound.
  destruct (String.eqb_spec toolName "get_collection") as [->|Hne].
  - change (within
              (if match args with
                  | Some a => truthy (own a "includeChildren")
                  | None => false
                  end then 2 else 1)
              (case_get_collection config args)).
    unfold case_get_collection.
    destruct args as [a|]; [|constructor]. cbn [Destructure bind].
    destruct (truthy (own a "includeChildren")).
    + apply within_bind; [apply within_interpolate|]. intros id_text.
      apply within_fetchAPI. intros response.
      apply within_if; [constructor|].
      apply within_bind; [apply within_await|]. intros collection.
      cbn [negb]. cbv iota.
      apply within_bind; [apply within_interpolate|]. intros parent_text.
      apply within_fetchAPI. intros response'.
      apply within_if; [constructor|].
      apply within_bind; [apply within_await|]. intros data.
      apply within_bind; [apply within_GetMember|]. intros; constructor.
    + apply within_bind; [apply within_interpolate|]. intros id_text.
      apply within_fetchAPI. intros response.
      apply within_if; [constructor|].
      apply within_bind; [apply within_await|]. intros collection.
      constructor.
  - cbn [andb].
    repeat match goal with
           | |- within _ (if ?c then _ else _) =>
               destruct c eqn:?
           end;
    try solve [constructor];
    try (apply String.eqb_eq in Heqb7; contradiction);
    cbv [case_create_note case_get_note case_update_note case_delete_note
         case_list_notes case_search_notes case_create_collection
         case_update_collection case_list_collections
         case_move_note not_collection is_collection no_options];
    repeat within_step.
Qed.

(** A program that starts with a request and may issue one issues that
    one. *)
Lemma single_request {A S : Type} (p : Prog A) (r : Request)
    (k : Outcome Response -> Prog A)
    (remote : S -> Request -> Outcome Response * S) (s : S) :
  p = Fetch r k -> within 1 p -> calls remote s p = [r].
Proof.
  intros -> H. inversion H as [| |n r' k' Hk]; subst.
  unfold calls. simpl. destruct (remote s r) as [o s'].
  pose proof (within_calls 0 (k o) S remote s' (Hk o)) as Hlen.
  unfold calls in Hlen. destruct (run remote s' (k o)) as [res cs].
  simpl in *. destruct cs; [reflexivity | simpl in Hlen; lia].
Qed.

(** X10. No tool tries again or pages: whatever the remote service
    answers, a call issues at most one request, and at most two in the
    one case of [get_collection] with a truthy [includeChildren]; the
    same holds of the call-tool handler. *)
Theorem no_tool_retries (config : APIClientConfig) (toolName : string)
    (args : option JsObject) (S : Type)
    (remote : S -> Request -> Outcome Response * S) (s : S) :
  length (calls remote s (handleToolCall config toolName args))
  <= request_bound toolName args /\
  length (calls remote s (CallToolRequest_handler config toolName args))
  <= request_bound toolName args.
Proof.
  split; [apply within_calls, handleToolCall_within|].
  unfold calls at 1. rewrite CallToolRequest_handler_run. simpl.
  apply within_calls, handleToolCall_within.
Qed.

Lemma append_nil_r (a : string) : a ++ EmptyString = a.
Proof. induction a as [|x a IH]; simpl; [reflexivity | now rewrite IH]. Qed.

Lemma all_chars_app (f : ascii -> bool) (a b : string) :
  all_chars f (a ++ b) = all_chars f a && all_chars f b.
Proof.
  induction a as [|c a IH]; simpl; [reflexivity|].
  now rewrite IH, andb_assoc.
Qed.

Lemma urlencode_byte_safe (c : ascii) :
  all_chars query_safe (urlencode_byte c) = true.
Proof. destruct c as [[] [] [] [] [] [] [] []]; reflexivity. Qed.

Lemma urlencode_safe (s : string) : all_chars query_safe (urlencode s) = true.
Proof.
  induction s as [|c s IH]; simpl; [reflexivity|].
  now rewrite all_chars_app, urlencode_byte_safe, IH.
Qed.

(** X11. The listing tools build their query with [URLSearchParams].
    When the arguments that go into it convert to strings, [list_notes]
    and [list_collections] request [/api/pastes], with
    [?parentId=<encoded>] only for a truthy [parentId] (an empty string
    gives no query at all), and [search_notes] requests
    [/api/pastes?q=<encoded>], followed by [&parentId=<encoded>] on the
    same condition; when one of them does not convert, no request is
    made.  An encoded value is written with letters, digits and
    [* - . _ + %] only, so that no argument can add a parameter or cut
    the query short. *)
Theorem listing_queries_are_encoded (config : APIClientConfig)
    (args : JsObject) (S : Type)
    (remote : S -> Request -> Outcome Response * S) (s : S) :
  let parentId := own args "parentId" in
  map req_url (calls remote s (handleToolCall config "list_notes" (Some args)))
  = (if printable "list_notes" args
     then [baseUrl config ++ "/api/pastes" ++ parent_query "?" parentId]
     else []) /\
  map req_url
      (calls remote s (handleToolCall config "list_collections" (Some args)))
  = (if printable "list_collections" args
     then [baseUrl config ++ "/api/pastes" ++ parent_query "?" parentId]
     else []) /\
  map req_url
      (calls remote s (handleToolCall config "search_notes" (Some args)))
  = (if printable "search_notes" args
     then [baseUrl config ++ "/api/pastes?q="
           ++ urlencode (text_of (own args "query"))
           ++ parent_query "&" parentId]
     else []) /\
  forall v, all_chars query_safe (urlencode v) = true.
Proof.
  intros parentId. subst parentId.
  split; [|split; [|split; [|exact urlencode_safe]]].
  - unfold printable, interpolated, converts, parent_query, text_of.
    cbn [existsb String.eqb Ascii.eqb Bool.eqb orb].
    open_tool. split_conversions; try reflexivity.
    + erewrite single_request; [|reflexivity|repeat within_step].
      reflexivity.
    + erewrite single_request; [|reflexivity|repeat within_step].
      reflexivity.
  - unfold printable, interpolated, converts, parent_query, text_of.
    cbn [existsb String.eqb Ascii.eqb Bool.eqb orb].
    open_tool. split_conversions; try reflexivity.
    + erewrite single_request; [|reflexivity|repeat within_step].
      reflexivity.
    + erewrite single_request; [|reflexivity|repeat within_step].
      reflexivity.
  - unfold printable, interpolated, converts, parent_query, text_of.
    cbn [existsb String.eqb Ascii.eqb Bool.eqb orb].
    open_tool. split_conversions; try reflexivity.
    + erewrite single_request; [|reflexivity|repeat within_step].
      reflexivity.
    + erewrite single_request; [|reflexivity|repeat within_step].
      unfold URLSearchParams_toString. simpl. now rewrite append_nil_r.
Qed.

Example search_query_is_escaped :
  map req_url
      (calls Examples.unreachable tt
         (handleToolCall Examples.config "search_notes"
            (Some [("query", JStr "a&b=c d"); ("parentId", JStr "c/1")])))
  = ["http://localhost:3000/api/pastes?q=a%26b%3Dc+d&parentId=c%2F1"].
Proof. reflexivity. Qed.

Example search_query_that_does_not_convert :
  run Examples.unreachable tt
    (handleToolCall Examples.config "search_notes"
       (Some [("query", JObj [("toString", JBool true)])]))
  = (Rejected (TypeError "Cannot convert object to primitive value"), []).
Proof. reflexivity. Qed.

(** X12. What [fetchAPI] hands to [fetch], for any options: the URL is
    the base URL followed by the path, method and body are the caller's,
    and of the headers, [Authorization] is the caller's own when the
    options carry one and the bearer token of the configuration
    otherwise; [Content-Type] is [application/json] whenever the body is
    a string that is not empty, whatever the caller asked for, and the
    caller's otherwise; every other header is the caller's. *)
Theorem fetchAPI_header_rule (config : APIClientConfig) (path : string)
    (options : RequestInit) :
  let r := fetchAPI_request config path options in
  let given := match headers options with Some h => h | None => [] end in
  req_url r = baseUrl config ++ path /\
  req_method r = method options /\
  req_body r = body options /\
  record_get (req_headers r) "Authorization"
  = Some (match spread_value given "Authorization" with
          | Some v => v
          | None => "Bearer " ++ token config
          end) /\
  record_get (req_headers r) "Content-Type"
  = (if body_is_text (body options) then Some "application/json"
     else spread_value given "Content-Type") /\
  forall k, k <> "Authorization" -> k <> "Content-Type" ->
            record_get (req_headers r) k = spread_value given k.
Proof.
  intros r given. subst r. unfold fetchAPI_request. fold given.
  cbn [req_url req_method req_body req_headers].
  split; [reflexivity|]. split; [reflexivity|]. split; [reflexivity|].
  assert (Hspread : forall k,
            record_get
              (spread_into [("Authorization", "Bearer " ++ token config)] given)
              k
            = match spread_value given k with
              | Some v => Some v
              | None => if "Authorization" =? k
                        then Some ("Bearer " ++ token config) else None
              end).
  { intros k. rewrite record_get_spread. reflexivity. }
  split; [|split].
  - destruct (body_is_text (body options));
      [rewrite record_get_set|]; cbn [String.eqb Ascii.eqb Bool.eqb];
      rewrite Hspread;
      destruct (spread_value given "Authorization"); reflexivity.
  - destruct (body_is_text (body options)).
    + rewrite record_get_set. reflexivity.
    + rewrite Hspread. destruct (spread_value given "Content-Type");
        reflexivity.
  - intros k Ha Hc.
    assert (Hk : record_get
                   (spread_into [("Authorization", "Bearer " ++ token config)]
                                given) k
                 = spread_value given k).
    { rewrite Hspread. destruct (spread_value given k); [reflexivity|].
      destruct (String.eqb_spec "Authorization" k) as [E|_];
        [now subst k | reflexivity]. }
    destruct (body_is_text (body options)); [|exact Hk].
    rewrite record_get_set.
    destruct (String.eqb_spec "Content-Type" k) as [E|_];
      [now subst k | exact Hk].
Qed.

Example caller_headers_win_but_for_the_content_type :
  req_headers
    (fetchAPI_request Examples.config "/api/pastes"
       {| method := Some "POST";
          body := Some (BodyText "{}");
          headers := Some [("Content-Type", "text/plain");
                           ("Authorization", "Basic dXNlcg==");
                           ("Accept", "application/json")] |})
  = [("Authorization", "Basic dXNlcg==");
     ("Content-Type", "application/json");
     ("Accept", "application/json")].
Proof. reflexivity. Qed.

(** X13. A tool reads the arguments its schema declares and no other:
    two argument objects that agree on the declared properties give the
    same call, request for request and answer for answer.  The two
    exceptions are [update_note] and [update_collection], which send
    every property but [id]. *)
Theorem undeclared_arguments_are_ignored (config : APIClientConfig)
    (tool : ToolDescriptor) (args args' : JsObject) :
  In tool TOOLS ->
  name tool <> "update_note" -> name tool <> "update_collection" ->
  (forall k, In k (map fst (properties tool)) -> own args k = own args' k) ->
  handleToolCall config (name tool) (Some args)
  = handleToolCall config (name tool) (Some args').
Proof.
  intros Hin Hn Hc Hsame. simpl in Hin.
  repeat (destruct Hin as [<-|Hin];
          [ try (exfalso; apply Hn; reflexivity);
            try (exfalso; apply Hc; reflexivity);
            cbn in Hsame; cbn;
            repeat match goal with
                   | |- context [own args ?k] =>
                       rewrite (Hsame k) by tauto
                   end;
            reflexivity |]).
  contradiction.
Qed.

Lemma undeclared_arguments_are_ignored_witness :
  handleToolCall Examples.config "get_note"
    (Some [("id", JStr "n1"); ("type", JStr "collection")])
  = handleToolCall Examples.config "get_note" (Some [("id", JStr "n1")]).
Proof.
  refine (undeclared_arguments_are_ignored Examples.config Cases.get_note
            [("id", JStr "n1"); ("type", JStr "collection")]
            [("id", JStr "n1")] _ _ _ _).
  - right. left. reflexivity.
  - discriminate.
  - discriminate.
  - intros k [<-|[]]. reflexivity.
Defined.

(** X14. [update_collection] is [update_note] under another name: for
    the same arguments the two issue the same requests and settle alike,
    but for the wording of the failure on an answer that is not [ok].
    Nothing checks that the target is a collection. *)
Theorem update_collection_is_update_note (config : APIClientConfig)
    (args : option JsObject) (S : Type)
    (remote : S -> Request -> Outcome Response * S) (s : S) :
  calls remote s (handleToolCall config "update_collection" args)
  = calls remote s (handleToolCall config "update_note" args) /\
  (result remote s (handleToolCall config "update_collection" args)
   = result remote s (handleToolCall config "update_note" args) \/
   exists status,
     result remote s (handleToolCall config "update_note" args)
     = Rejected (Error ("Failed to update note: " ++ status)) /\
     result remote s (handleToolCall config "update_collection" args)
     = Rejected (Error ("Failed to update collection: " ++ status))).
Proof.
  destruct args as [a|]; [|split; [reflexivity | left; reflexivity]].
  unfold calls, result.
  change (handleToolCall config "update_collection" (Some a))
    with (case_update_collection config (Some a)).
  change (handleToolCall config "update_note" (Some a))
    with (case_update_note config (Some a)).
  unfold case_update_collection, case_update_note, interpolate.
  cbn [Destructure bind].
  destruct (ToString (own a "id")) as [id|]; simpl; [|auto].
  destruct (remote s _) as [[r|e] s']; simpl; [|auto].
  destruct (ok r); simpl.
  - destruct (json r); simpl; auto.
  - split; [reflexivity|]. right. exists (statusText r). split; reflexivity.
Qed.

Lemma well_formed_get (config : APIClientConfig) (root rest : string) :
  well_formed (baseUrl config) root
    (fetchAPI_request config (root ++ rest) no_options).
Proof.
  split; [exists rest; reflexivity|]. split; [simpl; tauto|].
  unfold has_text_body. simpl. split.
  - intros [t Ht]. discriminate Ht.
  - intros [H|H]; discriminate H.
Qed.

Lemma well_formed_delete (config : APIClientConfig) (root rest : string) :
  well_formed (baseUrl config) root
    (fetchAPI_request config (root ++ rest)
       {| method := Some "DELETE"; body := None; headers := None |}).
Proof.
  split; [exists rest; reflexivity|]. split; [simpl; tauto|].
  unfold has_text_body. simpl. split.
  - intros [t Ht]. discriminate Ht.
  - intros [H|H]; discriminate H.
Qed.

Lemma well_formed_json (config : APIClientConfig) (root rest m : string)
    (o : JsObject) :
  m = "POST" \/ m = "PUT" ->
  well_formed (baseUrl config) root
    (fetchAPI_request config (root ++ rest)
       {| method := Some m; body := json_body (JObj o); headers := None |}).
Proof.
  intros Hm. destruct (json_body_object o) as (t & Ht & Hne).
  split; [exists rest; reflexivity|]. split.
  - simpl. destruct Hm as [->| ->]; tauto.
  - unfold has_text_body. simpl. rewrite Ht. split; [intros _|eauto].
    destruct Hm as [->| ->]; auto.
Qed.

Lemma handleToolCall_well_formed (config : APIClientConfig)
    (toolName : string) (args : option JsObject) :
  all_calls (well_formed (baseUrl config) "/api/pastes")
            (handleToolCall config toolName args).
Proof.
  unfold handleToolCall.
  repeat match goal with
         | |- all_calls _ (if ?c then _ else _) => destruct c
         end;
  try solve [constructor];
  cbv [case_create_note case_get_note case_update_note case_delete_note
       case_list_notes case_search_notes case_create_collection
       case_update_collection case_get_collection case_list_collections
       case_move_note not_collection is_collection pastes_path];
  repeat first
    [ apply all_calls_bind; [|intro]
    | apply all_calls_fetchAPI;
      first [ apply (well_formed_get config "/api/pastes")
            | apply (well_formed_delete config "/api/pastes")
            | apply (well_formed_json config "/api/pastes"); tauto
            | apply (well_formed_json config "/api/pastes" EmptyString);
              tauto ]
    | apply all_calls_if
    | apply all_calls_CallFilter; intro
    | solve [auto with calls] ].
Qed.

(** X15. The tools talk to one endpoint: every request of every call
    goes to a URL that starts with the base URL and [/api/pastes], its
    method is GET (none given), POST, PUT or DELETE, and it has a body,
    the JSON text of an object, exactly when it is a POST or a PUT. *)
Theorem every_call_goes_to_pastes (config : APIClientConfig)
    (toolName : string) (args : option JsObject) (S : Type)
    (remote : S -> Request -> Outcome Response * S) (s : S) :
  Forall (well_formed (baseUrl config) "/api/pastes")
         (calls remote s (handleToolCall config toolName args)).
Proof. apply all_calls_run, handleToolCall_well_formed. Qed.

(* ================================================================== *)
(** ** The first hosted server                                         *)
(* ================================================================== *)

Lemma old_switch_calls (url token toolName : string) (args : option JsObject) :
  all_calls (fun r =>
               well_formed url "/api/mcp/" r /\
               authorized {| baseUrl := url; token := token |} r)
            (OldHttp.switch url token toolName args).
Proof.
  set (config := {| baseUrl := url; token := token |}).
  change url with (baseUrl config) at 1.
  unfold OldHttp.switch, OldHttp.fetchAPI. fold config.
  repeat match goal with
         | |- all_calls _ (if ?c =? _ then _ else _) => destruct (c =? _)
         end;
  try solve [constructor];
  repeat first
    [ apply all_calls_bind; [|intro]
    | apply all_calls_fetchAPI; split;
      [ first [ apply (well_formed_get config "/api/mcp/")
              | apply (well_formed_delete config "/api/mcp/")
              | apply (well_formed_json config "/api/mcp/"); tauto
              | apply (well_formed_get config "/api/mcp/" "notes")
              | apply (well_formed_get config "/api/mcp/" "collections")
              | apply (well_formed_json config "/api/mcp/" "notes"); tauto
              | apply (well_formed_json config "/api/mcp/" "collections");
                tauto ]
      | first [ apply authorized_without_body | apply authorized_with_json ] ]
    | apply all_calls_if
    | solve [auto with calls] ].
Qed.

(** X16. The handler of the first hosted server talks to [/api/mcp/]
    under the server's URL, and to nothing else: every request of every
    call goes there, with a method among GET, POST, PUT and DELETE and a
    JSON body exactly for POST and PUT, and carries the bearer token the
    engine was created for, and the JSON content type exactly with a
    body. *)
Theorem old_handler_calls (url token toolName : string)
    (args : option JsObject) (S : Type)
    (remote : S -> Request -> Outcome Response * S) (s : S) :
  Forall (fun r =>
            well_formed url "/api/mcp/" r /\
            authorized {| baseUrl := url; token := token |} r)
         (calls remote s
            (OldHttp.CallToolRequest_handler url token toolName args)).
Proof.
  apply all_calls_run. unfold OldHttp.CallToolRequest_handler.
  apply all_calls_try_catch.
  - apply all_calls_bind; [apply old_switch_calls|]. intros a. constructor.
  - intros e. constructor.
Qed.

(** X17. The handler of the first hosted server never looks at the
    status of an answer: whether the response is [ok] or not, a tool of
    its catalog returns the JSON body as the text of a successful
    result, after one request; it fails, with InternalError, only when
    the body is not JSON.  (The arguments are such that the request is
    made: what goes into the URL converts to a string.) *)
Theorem old_handler_ignores_the_status (url token toolName : string)
    (args : JsObject) (S : Type)
    (remote : S -> Request -> Outcome Response * S) (s : S) (r : Response) :
  In toolName OldHttp.tool_names ->
  forallb converts (old_interpolated toolName args) = true ->
  (forall req, fst (remote s req) = Resolved r) ->
  exists req,
    run remote s (OldHttp.CallToolRequest_handler url token toolName
                    (Some args))
    = (match json r with
       | Resolved v => Resolved (text_result v)
       | Rejected e => Rejected (McpError InternalError (message_or_String e))
       end, [req]).
Proof.
  intros Hin Hp Hfirst. simpl in Hin.
  repeat (destruct Hin as [<-|Hin];
          [revert Hp; unfold old_interpolated, converts;
           cbn [existsb String.eqb Ascii.eqb Bool.eqb orb];
           unfold OldHttp.CallToolRequest_handler, OldHttp.switch,
             OldHttp.fetchAPI, interpolate;
           cbn [String.eqb Ascii.eqb Bool.eqb Destructure bind];
           repeat match goal with
                  | |- context [truthy (own ?a "collectionId")] =>
                      destruct (truthy (own a "collectionId"))
                  end;
           cbn [forallb andb];
           repeat match goal with
                  | |- context [ToString (own ?a ?k)] =>
                      destruct (ToString (own a k))
                  end;
           cbn [forallb andb bind];
           intros Hp; try discriminate Hp;
           eexists; first_answer Hfirst; destruct (json r); reflexivity|]).
  contradiction.
Qed.

Lemma old_handler_ignores_the_status_witness :
  exists req,
    run (answering (Resolved Cases.not_found)) tt
        (OldHttp.CallToolRequest_handler Examples.localhost "fst_k" "get_note"
           (Some [("id", JStr "n1")]))
    = (Resolved (text_result (JObj [("error", JStr "no such paste")])), [req]).
Proof.
  refine (old_handler_ignores_the_status Examples.localhost "fst_k" "get_note"
            [("id", JStr "n1")] unit (answering (Resolved Cases.not_found)) tt
            Cases.not_found _ _ _).
  - right. left. reflexivity.
  - reflexivity.
  - intros req. reflexivity.
Defined.

(** X18. In the first hosted server, [list_collections] is the one tool
    that does not destructure its arguments: called without arguments it
    issues its request, whereas every other name fails with
    InternalError before any request. *)
Theorem old_handler_without_arguments (url token toolName : string)
    (S : Type) (remote : S -> Request -> Outcome Response * S) (s : S) :
  (toolName = "list_collections" ->
   calls remote s (OldHttp.CallToolRequest_handler url token toolName None)
   = [fetchAPI_request {| baseUrl := url; token := token |}
        "/api/mcp/collections" no_options]) /\
  (toolName <> "list_collections" ->
   exists m,
     run remote s (OldHttp.CallToolRequest_handler url token toolName None)
     = (Rejected (McpError InternalError m), [])).
Proof.
  split.
  - intros ->. unfold calls. simpl.
    destruct (remote s _) as [[r|e] s']; simpl; [|reflexivity].
    destruct (json r); reflexivity.
  - intros Hne.
    unfold OldHttp.CallToolRequest_handler, OldHttp.switch.
    repeat match goal with
           | |- context [if ?c =? ?lit then _ else _] =>
               destruct (String.eqb_spec c lit) as [E|_];
               [first [contradiction | eexists; reflexivity]|]
           end.
    eexists; reflexivity.
Qed.

(* ================================================================== *)
(** ** The session tables, whatever identifiers are generated          *)
(* ================================================================== *)

Local Open Scope list_scope.

Section MoreMapFacts.
Context {V : Type}.
Implicit Types (m : list (string * V)) (k : string) (v : V).

Lemma In_set m k v (p : string * V) :
  In p (JsMap.set m k v) -> p = (k, v) \/ In p m.
Proof.
  induction m as [|[k' v'] m IH]; simpl.
  - intros [<-|[]]. now left.
  - destruct (String.eqb_spec k' k) as [->|Hne]; simpl.
    + intros [<-|Hin]; [now left | right; now right].
    + intros [<-|Hin]; [right; now left|].
      destruct (IH Hin) as [E|Hin']; [now left | right; now right].
Qed.

Lemma keys_set_bound m k v :
  JsMap.has m k = true -> JsMap.keys (JsMap.set m k v) = JsMap.keys m.
Proof.
  unfold JsMap.has. induction m as [|[k' v'] m IH]; simpl; [discriminate|].
  destruct (String.eqb_spec k' k) as [->|Hne]; simpl; [reflexivity|].
  intros H. now rewrite IH.
Qed.

Lemma get_delete_same m k : JsMap.get (JsMap.delete m k) k = None.
Proof.
  unfold JsMap.delete. induction m as [|[k' v'] m IH]; simpl; [reflexivity|].
  destruct (String.eqb_spec k' k) as [->|Hne]; simpl; [exact IH|].
  destruct (String.eqb_spec k' k); [contradiction | exact IH].
Qed.

Lemma get_delete_other m k k' :
  k' <> k -> JsMap.get (JsMap.delete m k) k' = JsMap.get m k'.
Proof.
  intros Hne. unfold JsMap.delete.
  induction m as [|[k0 v0] m IH]; simpl; [reflexivity|].
  destruct (String.eqb_spec k0 k) as [->|Hne0]; simpl.
  - destruct (String.eqb_spec k k'); [now subst | exact IH].
  - now rewrite IH.
Qed.

End MoreMapFacts.

Lemma NoDup_map_filter {A B : Type} (f : A -> B) (g : A -> bool)
    (l : list A) :
  NoDup (map f l) -> NoDup (map f (filter g l)).
Proof.
  induction l as [|x l IH]; simpl; [constructor|].
  intros Hnd. inversion Hnd as [|? ? Hnotin Hnd']; subst.
  destruct (g x); simpl; [|now apply IH].
  constructor; [|now apply IH].
  intros Hin. apply Hnotin. apply in_map_iff in Hin.
  destruct Hin as (y & Hy & Hin). apply filter_In in Hin.
  apply in_map_iff. exists y. tauto.
Qed.

Lemma NoDup_snd_set {V : Type} (m : list (string * V)) (k : string) (v : V) :
  NoDup (map snd m) -> ~ In v (map snd m) ->
  NoDup (map snd (JsMap.set m k v)).
Proof.
  induction m as [|[k' v'] m IH]; simpl.
  - intros _ _. repeat constructor. intros [].
  - intros Hnd Hfresh. inversion Hnd as [|? ? Hnotin Hnd']; subst.
    destruct (String.eqb_spec k' k) as [->|Hne]; simpl.
    + constructor; [|exact Hnd']. intros Hin. apply Hfresh. now right.
    + constructor.
      * intros Hin. apply in_map_iff in Hin.
        destruct Hin as ([k0 v0] & E & Hin). simpl in E. subst v0.
        apply In_set in Hin. destruct Hin as [[= -> ->]|Hin].
        -- apply Hfresh. now left.
        -- apply Hnotin. apply in_map_iff. exists (k0, v'). split; auto.
      * apply IH; [exact Hnd'|]. intros Hin. apply Hfresh. now right.
Qed.

(** The listeners of [n] all delete [sid]. *)
Lemma run_listeners_delete {V : Type} (listeners : list (nat * string))
    (n : nat) (sid : string) (table : list (string * V)) :
  In (n, sid) listeners ->
  (forall sid', In (n, sid') listeners -> sid' = sid) ->
  run_listeners listeners n table = JsMap.delete table sid.
Proof.
  intros Hin Hfun. rewrite run_listeners_filter. unfold JsMap.delete.
  apply filter_ext. intros [k v]. simpl. f_equal.
  destruct (String.eqb_spec k sid) as [->|Hne].
  - apply existsb_exists. exists (n, sid). simpl.
    now rewrite Nat.eqb_refl, String.eqb_refl.
  - apply not_true_is_false. intros Hex. apply existsb_exists in Hex.
    destruct Hex as ([n' sid'] & Hl & Hb). simpl in Hb.
    apply andb_true_iff in Hb. destruct Hb as [Hn Hs].
    apply Nat.eqb_eq in Hn. apply String.eqb_eq in Hs. subst n' sid'.
    apply Hne. now apply Hfun.
Qed.

Lemma listeners_inv_le (listeners : list (nat * string)) (n m : nat) :
  listeners_inv listeners n -> n <= m -> listeners_inv listeners m.
Proof.
  intros [Hlt Hfun] Hle. split; [|exact Hfun].
  intros c sid Hin. specialize (Hlt c sid Hin). lia.
Qed.

Lemma listeners_inv_snoc (listeners : list (nat * string)) (n : nat)
    (sid : string) :
  listeners_inv listeners n -> listeners_inv (listeners ++ [(n, sid)]) (S n).
Proof.
  intros [Hlt Hfun]. split.
  - intros c sid' Hin. apply in_app_or in Hin.
    destruct Hin as [Hin|[[= <- <-]|[]]]; [|lia].
    specialize (Hlt c sid' Hin). lia.
  - intros c s1 s2 H1 H2. apply in_app_or in H1. apply in_app_or in H2.
    destruct H1 as [H1|[E1|[]]], H2 as [H2|[E2|[]]].
    + now apply (Hfun c).
    + injection E2 as <- _. specialize (Hlt n s1 H1). lia.
    + injection E1 as <- _. specialize (Hlt n s2 H2). lia.
    + congruence.
Qed.

Lemma tables_inv_initial : tables_inv initial.
Proof.
  unfold tables_inv, listeners_inv. simpl.
  repeat split; try constructor; intros; contradiction.
Qed.

Lemma tables_inv_next (s : State) : tables_inv s -> tables_inv (next s).
Proof.
  intros (Hc & Ho & Hce & Hoe & Hns & Hnt & Hdisj).
  unfold tables_inv. simpl.
  split; [apply (listeners_inv_le _ _ _ Hc); lia|].
  split; [apply (listeners_inv_le _ _ _ Ho); lia|].
  repeat split; assumption.
Qed.

Lemma tables_inv_step (url : string) (s : State) (e : Event) :
  tables_inv s -> tables_inv (fst (step url s e)).
Proof.
  intros Hinv. pose proof (tables_inv_next s Hinv) as Hnext.
  destruct Hinv as (Hc & Ho & Hce & Hoe & Hns & Hnt & Hdisj).
  destruct e as [token sessionId sdk|token generated connected|handled|n|n];
    simpl.
  - unfold post_sse.
    destruct (token_refused token) as [[|]|]; simpl;
      [exact Hnext| |exact Hnext].
    destruct (known_session s sessionId).
    { destruct (JsMap.get _ _) as [[transport tok]|]; exact Hnext. }
    destruct (connect sdk); [|exact Hnext].
    destruct (handleRequest sdk); [|exact Hnext].
    destruct (assignedSessionId sdk) as [newSessionId|]; [|exact Hnext].
    destruct (String.eqb_spec newSessionId EmptyString) as [Hempty|Hfull];
      simpl; [exact Hnext|].
    destruct (JsMap.has (streamableTransports s) newSessionId) eqn:Hhas;
      simpl; [exact Hnext|].
    apply has_false_iff in Hhas. unfold tables_inv. simpl.
    rewrite (set_fresh _ _ _ Hhas).
    split; [apply (listeners_inv_le _ _ _ Hc); lia|].
    split; [now apply listeners_inv_snoc|].
    split; [exact Hce|].
    split; [|split; [exact Hns|split]].
    + intros sid t tok Hin. apply in_app_or in Hin. apply in_or_app.
      destruct Hin as [Hin|[[= <- <- <-]|[]]]; [left; eauto | right; now left].
    + unfold streamable_transports. simpl. rewrite map_app. simpl.
      apply NoDup_app; [exact Hnt | repeat constructor; intros [] |].
      intros t Ht [<-|[]]. unfold streamable_transports in Ht.
      apply in_map_iff in Ht. destruct Ht as ([sid [t tok]] & E & Hin).
      simpl in E. subst t. apply Hoe in Hin. destruct Ho as [Hlt _].
      specialize (Hlt _ _ Hin). lia.
    + intros c sid sid' H1 H2. apply in_app_or in H2.
      destruct H2 as [H2|[[= <- <-]|[]]]; [now apply (Hdisj c sid sid')|].
      destruct Hc as [Hlt _]. specialize (Hlt _ _ H1). lia.
  - unfold get_sse. destruct (token_refused token) as [[|]|]; simpl;
      [exact Hnext| |exact Hnext].
    unfold tables_inv. simpl.
    assert (Hfresh : ~ In (requests s) (map snd (sseTransports s))).
    { intros Hin. apply in_map_iff in Hin.
      destruct Hin as ([sid c] & E & Hin). simpl in E. subst c.
      apply Hce in Hin. destruct Hc as [Hlt _].
      specialize (Hlt _ _ Hin). lia. }
    split; [now apply listeners_inv_snoc|].
    split; [apply (listeners_inv_le _ _ _ Ho); lia|].
    split; [|split; [exact Hoe|split; [|split; [exact Hnt|]]]].
    + intros sid c Hin. apply in_or_app.
      assert (Hin' : In (sid, c)
                        (JsMap.set (sseTransports s) generated (requests s))).
      { destruct connected; [exact Hin | now apply In_delete in Hin]. }
      apply In_set in Hin'.
      destruct Hin' as [[= -> ->]|Hin']; [right; now left | left; auto].
    + pose proof (NoDup_snd_set (sseTransports s) generated (requests s)
                    Hns Hfresh) as Hset.
      destruct connected; [exact Hset|].
      unfold JsMap.delete. now apply NoDup_map_filter.
    + intros c sid sid' H1 H2. apply in_app_or in H1.
      destruct H1 as [H1|[[= <- <-]|[]]]; [now apply (Hdisj c sid sid')|].
      destruct Ho as [Hlt _]. specialize (Hlt _ _ H2). lia.
  - rewrite post_message_state. exact Hnext.
  - unfold tables_inv. simpl.
    split; [exact Hc|]. split; [exact Ho|].
    split; [|split; [exact Hoe|split; [|split; [exact Hnt|exact Hdisj]]]].
    + intros sid c Hin. apply run_listeners_In in Hin. now apply Hce.
    + rewrite run_listeners_filter. now apply NoDup_map_filter.
  - unfold tables_inv. simpl.
    split; [exact Hc|]. split; [exact Ho|].
    split; [exact Hce|]. split; [|split; [exact Hns|split; [|exact Hdisj]]].
    + intros sid t tok Hin. apply run_listeners_In in Hin.
      now apply (Hoe sid t tok).
    + unfold streamable_transports. simpl. rewrite run_listeners_filter.
      now apply NoDup_map_filter.
Qed.

Lemma tables_inv_exec (url : string) (events : list Event) (s : State) :
  tables_inv s -> tables_inv (exec url s events).
Proof.
  revert s. induction events as [|e rest IH]; intros s Hinv; simpl.
  - exact Hinv.
  - apply IH. now apply tables_inv_step.
Qed.

Lemma tables_inv_reachable (url : string) (s : State) :
  reachable url s -> tables_inv s.
Proof. intros [events ->]. apply tables_inv_exec, tables_inv_initial. Qed.

(** X19. In every state the server can reach, no transport serves two
    sessions: the transports of the two tables together are pairwise
    distinct, and each was constructed by an earlier request.  This
    holds whatever session identifiers are generated or assigned. *)
Theorem transports_are_not_shared (url : string) (s : State) :
  reachable url s ->
  NoDup (map snd (sseTransports s) ++ streamable_transports s) /\
  (forall t, In t (map snd (sseTransports s) ++ streamable_transports s) ->
             t < requests s).
Proof.
  intros Hr. apply tables_inv_reachable in Hr.
  destruct Hr as (Hc & Ho & Hce & Hoe & Hns & Hnt & Hdisj).
  assert (Hs : forall t, In t (map snd (sseTransports s)) ->
                         exists sid, In (t, sid) (close_listeners s)).
  { intros t Hin. apply in_map_iff in Hin.
    destruct Hin as ([sid c] & E & Hin). simpl in E. subst c. eauto. }
  assert (Ht : forall t, In t (streamable_transports s) ->
                         exists sid, In (t, sid) (onclose s)).
  { intros t Hin. apply in_map_iff in Hin.
    destruct Hin as ([sid [c tok]] & E & Hin). simpl in E. subst c. eauto. }
  split.
  - apply NoDup_app; [exact Hns | exact Hnt |].
    intros t H1 H2. destruct (Hs t H1) as [sid Hsid].
    destruct (Ht t H2) as [sid' Hsid']. exact (Hdisj t sid sid' Hsid Hsid').
  - intros t Hin. apply in_app_or in Hin. destruct Hin as [Hin|Hin].
    + destruct (Hs t Hin) as [sid Hsid]. destruct Hc as [Hlt _]. eauto.
    + destruct (Ht t Hin) as [sid Hsid]. destruct Ho as [Hlt _]. eauto.
Qed.

Lemma transports_are_not_shared_witness :
  NoDup (map snd (sseTransports (exec Examples.localhost Examples.one_session
                                   Examples.A_then_B))
         ++ streamable_transports (exec Examples.localhost Examples.one_session
                                     Examples.A_then_B)) /\
  (forall t,
     In t (map snd (sseTransports (exec Examples.localhost Examples.one_session
                                     Examples.A_then_B))
           ++ streamable_transports (exec Examples.localhost
                                       Examples.one_session Examples.A_then_B)) ->
     t < 3).
Proof.
  refine (transports_are_not_shared Examples.localhost
            (exec Examples.localhost Examples.one_session Examples.A_then_B) _).
  exists (PostSse (JStr "fst_a") None (Examples.initialized "uuid-1")
          :: Examples.A_then_B).
  reflexivity.
Defined.

(** X20. When the SDK closes a transport of the streaming table, its
    session is forgotten and no other: the table loses exactly the entry
    of that transport, a later POST /sse with the identifier does not
    find a session, every other identifier keeps its binding, and the
    legacy table is untouched. *)
Theorem transport_close_forgets_its_session (url : string) (s : State)
    (sid : string) (t : nat) (tok : string) :
  reachable url s ->
  In (sid, (t, tok)) (streamableTransports s) ->
  let s' := fst (step url s (TransportClose t)) in
  streamableTransports s' = JsMap.delete (streamableTransports s) sid /\
  known_session s' (Some sid) = false /\
  (forall sid', sid' <> sid ->
                JsMap.get (streamableTransports s') sid'
                = JsMap.get (streamableTransports s) sid') /\
  sseTransports s' = sseTransports s.
Proof.
  intros Hr Hin s'. apply tables_inv_reachable in Hr.
  destruct Hr as (Hc & [Hlt Hfun] & Hce & Hoe & Hns & Hnt & Hdisj).
  assert (E : streamableTransports s'
              = JsMap.delete (streamableTransports s) sid).
  { subst s'. simpl. apply run_listeners_delete; [now apply (Hoe sid t tok)|].
    intros sid' Hin'. apply (Hfun t); [exact Hin' | now apply (Hoe sid t tok)]. }
  split; [exact E|]. split; [|split; [|reflexivity]].
  - unfold known_session, JsMap.has. rewrite E, get_delete_same.
    apply andb_false_r.
  - intros sid' Hne. rewrite E. now apply get_delete_other.
Qed.

Lemma transport_close_forgets_its_session_witness :
  let s' := fst (step Examples.localhost Examples.one_session
                   (TransportClose 0)) in
  streamableTransports s'
  = JsMap.delete (streamableTransports Examples.one_session) "uuid-1" /\
  known_session s' (Some "uuid-1") = false /\
  (forall sid', sid' <> "uuid-1" ->
                JsMap.get (streamableTransports s') sid'
                = JsMap.get (streamableTransports Examples.one_session) sid') /\
  sseTransports s' = sseTransports Examples.one_session.
Proof.
  refine (transport_close_forgets_its_session Examples.localhost
            Examples.one_session "uuid-1" 0 "fst_a" _ _).
  - exists [PostSse (JStr "fst_a") None (Examples.initialized "uuid-1")].
    reflexivity.
  - left. reflexivity.
Defined.

(** X21. When the response of a legacy connection closes, its session
    is forgotten and no other: the legacy table loses exactly the entry
    of that connection, every other identifier keeps its transport, and
    the streaming table is untouched. *)
Theorem response_close_forgets_its_session (url : string) (s : State)
    (sid : string) (c : nat) :
  reachable url s ->
  In (sid, c) (sseTransports s) ->
  let s' := fst (step url s (ResClose c)) in
  sseTransports s' = JsMap.delete (sseTransports s) sid /\
  JsMap.get (sseTransports s') sid = None /\
  (forall sid', sid' <> sid ->
                JsMap.get (sseTransports s') sid'
                = JsMap.get (sseTransports s) sid') /\
  streamableTransports s' = streamableTransports s.
Proof.
  intros Hr Hin s'. apply tables_inv_reachable in Hr.
  destruct Hr as ([Hlt Hfun] & Ho & Hce & Hoe & Hns & Hnt & Hdisj).
  assert (E : sseTransports s' = JsMap.delete (sseTransports s) sid).
  { subst s'. simpl. apply run_listeners_delete; [now apply Hce|].
    intros sid' Hin'. apply (Hfun c); [exact Hin' | now apply Hce]. }
  split; [exact E|]. split; [|split; [|reflexivity]].
  - rewrite E. apply get_delete_same.
  - intros sid' Hne. rewrite E. now apply get_delete_other.
Qed.

Lemma response_close_forgets_its_session_witness :
  let s := exec Examples.localhost initial Examples.A_then_B in
  let s' := fst (step Examples.localhost s (ResClose 0)) in
  sseTransports s' = JsMap.delete (sseTransports s) "1700000000000-k3x9p" /\
  JsMap.get (sseTransports s') "1700000000000-k3x9p" = None /\
  (forall sid', sid' <> "1700000000000-k3x9p" ->
                JsMap.get (sseTransports s') sid'
                = JsMap.get (sseTransports s) sid') /\
  streamableTransports s' = streamableTransports s.
Proof.
  refine (response_close_forgets_its_session Examples.localhost
            (exec Examples.localhost initial Examples.A_then_B)
            "1700000000000-k3x9p" 0 _ _).
  - exists Examples.A_then_B. reflexivity.
  - left. reflexivity.
Defined.

(** X22. The legacy table is keyed by the generated identifier alone.
    When an accepted GET /sse generates an identifier that is already in
    the table, the new transport takes the entry over, in the place the
    entry had (the order that POST /message reads does not change), and
    the older connection, when its response closes, removes the entry of
    the newer one. *)
Theorem colliding_identifier_takes_the_session_over (url : string)
    (s : State) (sid tok : string) (c : nat) :
  reachable url s ->
  JsMap.get (sseTransports s) sid = Some c ->
  token_ok (JStr tok) = true ->
  let s1 := fst (step url s (GetSse (JStr tok) sid Returned)) in
  JsMap.get (sseTransports s1) sid = Some (requests s) /\
  JsMap.keys (sseTransports s1) = JsMap.keys (sseTransports s) /\
  c <> requests s /\
  JsMap.get (sseTransports (fst (step url s1 (ResClose c)))) sid = None.
Proof.
  intros Hr Hget Hok s1.
  pose proof (tables_inv_reachable url s Hr) as Hinv.
  pose proof (tables_inv_step url s (GetSse (JStr tok) sid Returned) Hinv)
    as Hinv1.
  fold s1 in Hinv1.
  assert (Hs1 : sseTransports s1
                = JsMap.set (sseTransports s) sid (requests s) /\
                close_listeners s1 = close_listeners s ++ [(requests s, sid)]).
  { subst s1. simpl. unfold get_sse.
    rewrite (proj1 (token_ok_refused _) Hok). simpl. split; reflexivity. }
  destruct Hs1 as [Ht Hl].
  destruct Hinv as ([Hlt Hfun] & _ & Hce & _).
  pose proof (Hce sid c (get_In _ _ _ Hget)) as Hlistener.
  split; [rewrite Ht; apply get_set_same|].
  split; [rewrite Ht; apply keys_set_bound; unfold JsMap.has; now rewrite Hget|].
  split; [specialize (Hlt c sid Hlistener); lia|].
  destruct Hinv1 as ([Hlt1 Hfun1] & _).
  simpl. rewrite (run_listeners_delete (close_listeners s1) c sid).
  - apply get_delete_same.
  - rewrite Hl. apply in_or_app. now left.
  - intros sid' Hin'. apply (Hfun1 c); [exact Hin'|].
    rewrite Hl. apply in_or_app. now left.
Qed.

Lemma colliding_identifier_takes_the_session_over_witness :
  let s := exec Examples.localhost initial Examples.A_then_B in
  let s1 := fst (step Examples.localhost s
                   (GetSse (JStr "fst_c") "1700000000000-k3x9p" Returned)) in
  JsMap.get (sseTransports s1) "1700000000000-k3x9p" = Some 2 /\
  JsMap.keys (sseTransports s1) = JsMap.keys (sseTransports s) /\
  0 <> 2 /\
  JsMap.get (sseTransports (fst (step Examples.localhost s1 (ResClose 0))))
            "1700000000000-k3x9p" = None.
Proof.
  refine (colliding_identifier_takes_the_session_over Examples.localhost
            (exec Examples.localhost initial Examples.A_then_B)
            "1700000000000-k3x9p" "fst_c" 0 _ _ _).
  - exists Examples.A_then_B. reflexivity.
  - reflexivity.
  - reflexivity.
Defined.

(** X23. A streaming handshake that fails stores nothing: when
    [server.connect] or [transport.handleRequest] throws, or the
    transport has no session identifier afterwards (none, or an empty
    one), POST /sse leaves both tables and all listeners as they were.
    When it is [server.connect] that throws, for a request that passed
    the gate and reuses no session, the handler sends no response at
    all: the call stands outside its [try]. *)
Theorem failed_streaming_handshake_stores_nothing (url : string) (s : State)
    (token : JsValue) (sessionId : option string) (sdk : SdkRun) :
  connect sdk = Threw \/ handleRequest sdk = Threw \/
  assignedSessionId sdk = None \/ assignedSessionId sdk = Some EmptyString ->
  fst (step url s (PostSse token sessionId sdk)) = next s /\
  (token_ok token = true -> known_session s sessionId = false ->
   connect sdk = Threw ->
   forall status body,
     ~ In (Respond status body) (snd (step url s (PostSse token sessionId sdk)))).
Proof.
  intros H. simpl. unfold post_sse. split.
  - destruct (token_refused token) as [[|]|]; simpl;
      [reflexivity| |reflexivity].
    destruct (known_session s sessionId).
    { destruct (JsMap.get _ _) as [[transport tok]|]; reflexivity. }
    destruct (connect sdk); [|reflexivity].
    destruct (handleRequest sdk); [|reflexivity].
    destruct H as [H|[H|[H|H]]]; try discriminate H; rewrite H; reflexivity.
  - intros Hok Hk Hc status body.
    rewrite (proj1 (token_ok_refused _) Hok), Hk, Hc. simpl.
    intros [E|[E|[E|[E|[]]]]]; discriminate E.
Qed.

Lemma failed_streaming_handshake_stores_nothing_witness :
  fst (step Examples.localhost Examples.one_session
         (PostSse (JStr "fst_b") None Cases.refused))
  = next Examples.one_session /\
  (token_ok (JStr "fst_b") = true ->
   known_session Examples.one_session None = false ->
   connect Cases.refused = Threw ->
   forall status body,
     ~ In (Respond status body)
          (snd (step Examples.localhost Examples.one_session
                  (PostSse (JStr "fst_b") None Cases.refused)))).
Proof.
  refine (failed_streaming_handshake_stores_nothing Examples.localhost
            Examples.one_session (JStr "fst_b") None Cases.refused _).
  left. reflexivity.
Defined.

(** X24. A legacy connection whose [server.connect] throws leaves no
    session behind: with an identifier that was not in the table, the
    entry registered before the call is deleted again and the legacy
    table is as it was; the streaming table is not touched. *)
Theorem failed_legacy_connect_stores_nothing (url : string) (s : State)
    (token : JsValue) (generated : string) :
  JsMap.has (sseTransports s) generated = false ->
  let s' := fst (step url s (GetSse token generated Threw)) in
  sseTransports s' = sseTransports s /\
  streamableTransports s' = streamableTransports s.
Proof.
  intros Hfresh s'. subst s'. simpl. unfold get_sse.
  destruct (token_refused token) as [[|]|]; simpl;
    [split; reflexivity| |split; reflexivity].
  split; [|reflexivity]. apply has_false_iff in Hfresh.
  rewrite (set_fresh _ _ _ Hfresh), delete_app.
  rewrite (delete_absent _ _ Hfresh). simpl.
  rewrite String.eqb_refl. simpl. apply app_nil_r.
Qed.

Lemma failed_legacy_connect_stores_nothing_witness :
  let s' := fst (step Examples.localhost
                   (exec Examples.localhost initial Examples.A_then_B)
                   (GetSse (JStr "fst_c") "1700000000005-z1y2x" Threw)) in
  sseTransports s'
  = sseTransports (exec Examples.localhost initial Examples.A_then_B) /\
  streamableTransports s'
  = streamableTransports (exec Examples.localhost initial Examples.A_then_B).
Proof.
  refine (failed_legacy_connect_stores_nothing Examples.localhost
            (exec Examples.localhost initial Examples.A_then_B)
            (JStr "fst_c") "1700000000005-z1y2x" _).
  reflexivity.
Defined.

(** X25. Only the closing of a transport ends a streaming session: as
    long as the SDK closes no transport, requests of any kind, accepted
    or rejected, failing or not, and closing legacy connections leave
    every binding of the streaming table as it is.  Nothing expires. *)
Theorem streaming_sessions_stay_until_closed (url : string) (s : State)
    (events : list Event) (sid : string) (b : nat * string) :
  (forall n, ~ In (TransportClose n) events) ->
  JsMap.get (streamableTransports s) sid = Some b ->
  JsMap.get (streamableTransports (exec url s events)) sid = Some b.
Proof.
  revert s. induction events as [|e rest IH]; intros s Hno Hget;
    [exact Hget|].
  change (exec url s (e :: rest)) with (exec url (fst (step url s e)) rest).
  apply IH; [intros n Hin; apply (Hno n); now right|].
  destruct e as [token sessionId sdk|token generated connected|handled|n|n];
    simpl.
  - unfold post_sse.
    destruct (token_refused token) as [[|]|]; simpl;
      [exact Hget| |exact Hget].
    destruct (known_session s sessionId).
    { destruct (JsMap.get _ match sessionId with
                            | Some sid' => sid'
                            | None => EmptyString
                            end) as [[transport tok]|]; exact Hget. }
    destruct (connect sdk); [|exact Hget].
    destruct (handleRequest sdk); [|exact Hget].
    destruct (assignedSessionId sdk) as [newSessionId|]; [|exact Hget].
    destruct (String.eqb_spec newSessionId EmptyString) as [Hempty|Hfull];
      simpl; [exact Hget|].
    destruct (JsMap.has (streamableTransports s) newSessionId) eqn:Hhas;
      simpl; [exact Hget|].
    destruct (get_set_fresh (streamableTransports s) newSessionId sid
                (requests s, token_text token)
                b Hget) as [H|E]; [exact H|].
    subst sid. unfold JsMap.has in Hhas. rewrite Hget in Hhas.
    discriminate Hhas.
  - unfold get_sse. destruct (token_refused token) as [[|]|]; exact Hget.
  - rewrite post_message_state. exact Hget.
  - exact Hget.
  - exfalso. apply (Hno n). now left.
Qed.

Lemma streaming_sessions_stay_until_closed_witness :
  JsMap.get (streamableTransports
               (exec Examples.localhost Examples.one_session
                  (Examples.A_then_B
                   ++ [PostMessage Threw; ResClose 1;
                       PostSse (JStr "fst_b") (Some "uuid-1")
                               (Examples.initialized "uuid-1");
                       PostSse JUndefined None Cases.refused])))
            "uuid-1"
  = Some (0, "fst_a").
Proof.
  refine (streaming_sessions_stay_until_closed Examples.localhost
            Examples.one_session
            (Examples.A_then_B
             ++ [PostMessage Threw; ResClose 1;
                 PostSse (JStr "fst_b") (Some "uuid-1")
                         (Examples.initialized "uuid-1");
                 PostSse JUndefined None Cases.refused])
            "uuid-1" (0, "fst_a") _ _).
  - intros n. simpl. intros [E|[E|[E|[E|[E|[E|[]]]]]]]; discriminate E.
  - reflexivity.
Defined.

(** X26. No engine is built in front of the gate: whenever a handler
    creates an engine, in any state and for any request, the request
    carried a token that passed the gate, the engine is configured with
    that very token and with the URL of the process, and it is connected
    to the transport constructed for the same request. *)
Theorem engines_are_built_behind_the_gate (url : string) (s : State)
    (e : Event) (n : nat) (config : APIClientConfig) :
  In (CreateMCPServer n config) (snd (step url s e)) ->
  n = requests s /\
  baseUrl config = url /\
  event_token e = JStr (token config) /\
  token_ok (JStr (token config)) = true /\
  In (Connect n n) (snd (step url s e)).
Proof.
  destruct e as [tk sessionId sdk|tk generated connected|handled|c|c];
    simpl.
  - unfold post_sse.
    destruct (token_refused tk) as [[|]|] eqn:Href; simpl;
      [intros [E|[]]; discriminate E| |intros [E|[]]; discriminate E].
    assert (Hok : token_ok tk = true) by now apply token_ok_refused.
    pose proof (token_ok_text tk Hok) as Htext.
    set (tok := token_text tk) in *.
    destruct (known_session s sessionId).
    { destruct (JsMap.get _ _) as [[transport tok']|]; simpl.
      - intros [E|Hin]; [discriminate E|].
        destruct (handleRequest sdk); [destruct Hin|].
        unfold catch_handle in Hin.
        destruct (headersSent sdk); [destruct Hin|].
        destruct Hin as [E|[]]; discriminate E.
      - intros [E|[]]; discriminate E. }
    assert (Hmain : forall rest,
              (forall a, In a rest ->
                         match a with CreateMCPServer _ _ => False | _ => True end) ->
              In (CreateMCPServer n config)
                 ([NewStreamableTransport (requests s);
                   CreateMCPServer (requests s)
                     {| baseUrl := url; token := tok |};
                   Connect (requests s) (requests s)] ++ rest) ->
              n = requests s /\ baseUrl config = url /\
              tk = JStr (token config) /\
              token_ok (JStr (token config)) = true /\
              In (Connect n n)
                 ([NewStreamableTransport (requests s);
                   CreateMCPServer (requests s)
                     {| baseUrl := url; token := tok |};
                   Connect (requests s) (requests s)] ++ rest)).
    { intros rest Hrest [E|[E|[E|Hin]]]; try discriminate E.
      - injection E as <- <-. simpl. rewrite <- Htext. repeat split; auto.
      - now apply Hrest in Hin. }
    destruct (connect sdk).
    + destruct (handleRequest sdk).
      * assert (Hone : forall a, In a [HandleRequest (requests s)] ->
                  match a with CreateMCPServer _ _ => False | _ => True end).
        { intros a [<-|[]]. exact I. }
        destruct (assignedSessionId sdk) as [sid|];
          [destruct (negb (sid =? EmptyString) && negb (JsMap.has _ sid))|];
          simpl snd; apply Hmain; exact Hone.
      * simpl snd. apply Hmain. intros a [<-|Hin]; [exact I|].
        unfold catch_handle in Hin.
        destruct (headersSent sdk); [destruct Hin|].
        destruct Hin as [<-|[]]. exact I.
    + simpl snd. apply Hmain. intros a [<-|[]]. exact I.
  - unfold get_sse.
    destruct (token_refused tk) as [[|]|] eqn:Href; simpl;
      [intros [E|[]]; discriminate E| |intros [E|[]]; discriminate E].
    assert (Hok : token_ok tk = true) by now apply token_ok_refused.
    pose proof (token_ok_text tk Hok) as Htext.
    intros [E|[E|[E|[]]]]; try discriminate E.
    injection E as <- <-. simpl. rewrite <- Htext. repeat split; auto.
  - unfold post_message. destruct (Nat.eqb _ 0); simpl;
      [intros [E|[]]; discriminate E|].
    destruct (nth_error _ _) as [[sid t]|]; simpl.
    + intros [E|Hin]; [discriminate E|].
      destruct handled; [destruct Hin | destruct Hin as [E|[]]; discriminate E].
    + intros [E|[]]; discriminate E.
  - intros [].
  - intros [].
Qed.

Lemma engines_are_built_behind_the_gate_witness :
  1 = requests Examples.one_session /\
  baseUrl {| baseUrl := Examples.localhost; token := "fst_b" |}
  = Examples.localhost /\
  event_token (GetSse (JStr "fst_b") "1700000000000-k3x9p" Returned)
  = JStr (token {| baseUrl := Examples.localhost; token := "fst_b" |}) /\
  token_ok (JStr (token {| baseUrl := Examples.localhost; token := "fst_b" |}))
  = true /\
  In (Connect 1 1)
     (snd (step Examples.localhost Examples.one_session
             (GetSse (JStr "fst_b") "1700000000000-k3x9p" Returned))).
Proof.
  refine (engines_are_built_behind_the_gate Examples.localhost
            Examples.one_session
            (GetSse (JStr "fst_b") "1700000000000-k3x9p" Returned) 1
            {| baseUrl := Examples.localhost; token := "fst_b" |} _).
  right. left. reflexivity.
Defined.
